(** * CMMC scoping tool: question engine and scope scorer

    A shallow embedding of [scoping_tool/utils/question_engine.py] and
    [scoping_tool/utils/scoring.py], with the question catalogs of
    [scoping_tool/questions/], and the properties of the dependency
    resolver and of the rule engine proved over it.

    Conventions of the embedding.
    - A Python [str] is a [string] holding its UTF-8 bytes.  Substring
      tests, equality, splitting at an ASCII separator and the code-point
      order agree with the byte-level operations on UTF-8 text.
    - [str.lower], [str.strip], [repr] and [int] are modelled on the ASCII
      range: bytes above 127 are copied and are neither letters, blanks
      nor digits.  The choice labels of the catalogs and the control
      identifiers of the rules have no other non-ASCII character than
      dashes, on which this agrees with Python.
    - An answer is one of the values the collector produces, or an integer:
      [None], a [bool], an [int], a [str] or a list of [str].  A response
      store is a finite map from question ids to answers.
    - A Python exception is a [Raise] in the [result] type.
    - The scorer is embedded twice: as functions of the flat store
      ([ScopeScorer]), and as methods that thread the scorer object through
      every access to it ([ScoringPass]); the two are shown to agree.
    - The console is a list of input lines; [input()] on the empty list
      raises [EOFError].  What is printed is reduced to the numbered
      questions, in order. *)

From Stdlib Require Import ZArith Ascii String List Bool Lia.
From stdpp Require Import base option list sorting strings gmap.

Local Open Scope string_scope.
Local Open Scope list_scope.
Local Open Scope Z_scope.

(** ** Python values and exceptions *)

Inductive answer : Type :=
| ANone
| ABool (b : bool)
| AInt (n : Z)
| AStr (s : string)
| AList (l : list string).

Global Instance answer_eq_dec : EqDecision answer.
Proof. solve_decision. Defined.

Inductive exn : Type :=
| TypeError
| EOFError.

Inductive result (A : Type) : Type :=
| Ok (a : A)
| Raise (e : exn).

Arguments Ok {A} a.
Arguments Raise {A} e.

Global Instance result_ret : MRet result := fun A a => Ok a.

Global Instance result_bind : MBind result := fun A B k r =>
  match r with
  | Ok a => k a
  | Raise e => Raise e
  end.

Global Instance result_fmap : FMap result := fun A B f r =>
  match r with
  | Ok a => Ok (f a)
  | Raise e => Raise e
  end.

(** ** String primitives *)

Module Str.

Definition is_upper (c : ascii) : bool :=
  let n := nat_of_ascii c in (65 <=? n)%nat && (n <=? 90)%nat.

Definition lower_ascii (c : ascii) : ascii :=
  if is_upper c then ascii_of_nat (nat_of_ascii c + 32) else c.

(** [s.lower()] *)
Fixpoint lower (s : string) : string :=
  match s with
  | EmptyString => EmptyString
  | String c t => String (lower_ascii c) (lower t)
  end.

(** The whitespace of [str.strip()] in the ASCII range:
    tab, LF, VT, FF, CR, FS, GS, RS, US and space. *)
Definition is_space (c : ascii) : bool :=
  let n := nat_of_ascii c in
  ((9 <=? n)%nat && (n <=? 13)%nat) || ((28 <=? n)%nat && (n <=? 32)%nat).

Fixpoint lstrip (s : string) : string :=
  match s with
  | EmptyString => EmptyString
  | String c t => if is_space c then lstrip t else s
  end.

Fixpoint rstrip (s : string) : string :=
  match s with
  | EmptyString => EmptyString
  | String c t =>
      match rstrip t with
      | EmptyString => if is_space c then EmptyString else String c EmptyString
      | t' => String c t'
      end
  end.

(** [s.strip()] *)
Definition strip (s : string) : string := rstrip (lstrip s).

(** [needle in hay] for two strings *)
Fixpoint contains (needle hay : string) : bool :=
  String.prefix needle hay ||
  match hay with
  | EmptyString => false
  | String _ t => contains needle t
  end.

(** [s.split(sep)] for a one-character separator: never the empty list. *)
Fixpoint split (sep : ascii) (s : string) : list string :=
  match s with
  | EmptyString => [EmptyString]
  | String c t =>
      if Ascii.eqb c sep then EmptyString :: split sep t
      else match split sep t with
           | [] => [String c EmptyString]
           | w :: ws => String c w :: ws
           end
  end.

(** [sep.join(l)] *)
Fixpoint join (sep : string) (l : list string) : string :=
  match l with
  | [] => EmptyString
  | [x] => x
  | x :: t => x +:+ sep +:+ join sep t
  end.

(** [str(n)] for an integer *)
Fixpoint digits (fuel : nat) (n : N) (acc : string) : string :=
  match fuel with
  | O => acc
  | S fuel' =>
      let d := ascii_of_N (48 + n mod 10)%N in
      let acc' := String d acc in
      if (n <? 10)%N then acc' else digits fuel' (n / 10)%N acc'
  end.

Definition of_N (n : N) : string := digits (S (N.to_nat (N.log2 n))) n EmptyString.

Definition of_Z (z : Z) : string :=
  match z with
  | Z0 => "0"
  | Zpos p => of_N (Npos p)
  | Zneg p => "-" +:+ of_N (Npos p)
  end.

End Str.

(** ** Python built-ins on answers *)

Module Py.

(** [bool(x)] *)
Definition truthy (x : answer) : bool :=
  match x with
  | ANone => false
  | ABool b => b
  | AInt n => negb (n =? 0)
  | AStr s => negb (String.eqb s EmptyString)
  | AList l => match l with [] => false | _ => true end
  end.

Definition hex_digit (n : nat) : ascii :=
  ascii_of_nat (if (n <? 10)%nat then 48 + n else 87 + n).

(** One character of [repr] of a string delimited by [quote]. *)
Definition repr_char (quote c : ascii) : string :=
  let n := nat_of_ascii c in
  if Ascii.eqb c "\"%char then "\\"
  else if Ascii.eqb c quote then String "\"%char (String c EmptyString)
  else if (n =? 9)%nat then "\t"
  else if (n =? 10)%nat then "\n"
  else if (n =? 13)%nat then "\r"
  else if (n <? 32)%nat || (n =? 127)%nat
       then String "\"%char (String "x"%char
              (String (hex_digit (n / 16)) (String (hex_digit (n mod 16)) EmptyString)))
  else String c EmptyString.

Fixpoint repr_body (quote : ascii) (s : string) : string :=
  match s with
  | EmptyString => EmptyString
  | String c t => repr_char quote c +:+ repr_body quote t
  end.

(** [repr(s)] for a string: single quotes, unless the string has a single
    quote and no double quote. *)
Definition repr_str (s : string) : string :=
  let quote : ascii :=
    if Str.contains "'" s && negb (Str.contains (String (ascii_of_nat 34) EmptyString) s)
    then ascii_of_nat 34 else "'"%char in
  String quote (repr_body quote s +:+ String quote EmptyString).

(** [str(x)] *)
Definition str (x : answer) : string :=
  match x with
  | ANone => "None"
  | ABool true => "True"
  | ABool false => "False"
  | AInt n => Str.of_Z n
  | AStr s => s
  | AList l => "[" +:+ Str.join ", " (map repr_str l) +:+ "]"
  end.

(** [x in c] for a string [x]: membership in a list, substring of a
    string, [TypeError] on a value that is not iterable. *)
Definition str_in (x : string) (c : answer) : result bool :=
  match c with
  | AList l => Ok (bool_decide (x ∈ l))
  | AStr s => Ok (Str.contains x s)
  | ANone | ABool _ | AInt _ => Raise TypeError
  end.

(** [a == b] *)
Definition eqb (a b : answer) : bool :=
  match a, b with
  | ABool x, AInt n | AInt n, ABool x => n =? (if x then 1 else 0)
  | _, _ => bool_decide (a = b)
  end.

(** [x is True], [x is False], [x is None] *)
Definition is_True (x : answer) : bool :=
  match x with ABool true => true | _ => false end.
Definition is_False (x : answer) : bool :=
  match x with ABool false => true | _ => false end.
Definition is_None (x : answer) : bool :=
  match x with ANone => true | _ => false end.

(** [d.get(k, dflt)] and [d.get(k)] *)
Definition get_or (d : gmap string answer) (k : string) (dflt : answer) : answer :=
  default dflt (d !! k).
Definition get (d : gmap string answer) (k : string) : answer :=
  get_or d k ANone.

End Py.

(** ** The scope scorer ([scoring.py]) *)

Record Gap : Type := mkGap {
  nist_control : string;
  title : string;
  detail : string;
  priority : string;
}.

Global Instance Gap_eq_dec : EqDecision Gap.
Proof. solve_decision. Defined.

Record Derived : Type := mkDerived {
  cui_in_scope : bool;
  fci_in_scope : bool;
  cmmc_level_required : string;
  enclave_recommended : bool;
  systems_in_scope : string;
  compliance_gaps : list Gap;
  gap_count : nat;
  high_priority_gaps : list Gap;
  nist_control_gaps : list string;
  scope_reduction_possible : bool;
}.

(** A module's saved data: a dict of answers, or anything else. *)
Inductive module_data : Type :=
| MDict (d : gmap string answer)
| MOther.

Module ScopeScorer.

(** [__init__]: the modules' dicts merged into one, later modules
    overriding earlier ones. *)
Definition flatten (responses : list (string * module_data)) : gmap string answer :=
  fold_left (fun flat kv =>
               match kv.2 with
               | MDict d => d ∪ flat
               | MOther => flat
               end) responses ∅.

Definition _cui_in_scope (flat : gmap string answer) : result bool :=
  let handles_gov := Py.is_True (Py.get flat "df_01") in
  let has_dfars := Py.is_True (Py.get flat "df_02") in
  let cui_cats := Py.get_or flat "df_03" (AList []) in
  has_cui_cats ←
    (if Py.truthy cui_cats
     then negb <$> Py.str_in "I am not sure" cui_cats
     else Ok false);
  Ok (handles_gov && (has_dfars || has_cui_cats)).

Definition _fci_in_scope (flat : gmap string answer) : bool :=
  Py.is_True (Py.get flat "df_01") || Py.is_True (Py.get flat "df_09").

Definition _cmmc_level (cui fci : bool) : string :=
  if cui then "Level 2"
  else if fci then "Level 1"
  else "Not Required (verify contract requirements)".

(** *** Gap rules, in the order [_identify_gaps] runs them.  Each rule
    appends at most one record to the list. *)

Definition gap (control title detail priority : string) : Gap :=
  mkGap control title detail priority.

(* MFA *)
Definition gap_mfa (flat : gmap string answer) : list Gap :=
  let mfa := Py.get_or flat "ac_02" (AStr EmptyString) in
  if Str.contains "No — password" (Py.str mfa) || Str.contains "Partial" (Py.str mfa)
  then [gap "IA.3.083" "Multi-Factor Authentication Not Fully Implemented"
          ("MFA is required for all access to CUI systems under NIST 800-171 Rev 3 IA.3.083. "
           +:+ "Password-only authentication is not compliant.")
          "HIGH"]
  else [].

(* Remote access *)
Definition gap_remote (flat : gmap string answer) : list Gap :=
  let remote := Py.get_or flat "ac_05" (AStr EmptyString) in
  if Str.contains "no MFA" (Py.str remote) || Str.contains "direct RDP" (Py.str remote)
  then [gap "AC.1.001 / IA.3.083"
          "Remote Access Lacks MFA or VPN Protection"
          ("Remote access to CUI systems must use MFA and encrypted channels (VPN). "
           +:+ "Direct RDP/SSH without VPN is a critical exposure.")
          "HIGH"]
  else [].

(* Encryption at rest *)
Definition gap_enc_rest (flat : gmap string answer) : list Gap :=
  let enc_rest := Py.get_or flat "df_06" (AStr EmptyString) in
  if Str.contains "No" (Py.str enc_rest)
     || Str.contains "not sure" (Str.lower (Py.str enc_rest))
  then [gap "SC.3.177" "CUI Not Encrypted at Rest"
          ("NIST SC.3.177 requires CUI to be encrypted at rest using FIPS 140-2 validated "
           +:+ "cryptographic modules. Unencrypted CUI storage is a critical gap.")
          "HIGH"]
  else [].

(* Encryption in transit *)
Definition gap_enc_transit (flat : gmap string answer) : list Gap :=
  let enc_transit := Py.get_or flat "df_07" (AStr EmptyString) in
  if Str.contains "plaintext" (Str.lower (Py.str enc_transit))
     || Str.contains "not sure" (Str.lower (Py.str enc_transit))
  then [gap "SC.3.177" "CUI Not Encrypted in Transit"
          ("CUI transmitted over networks must be encrypted (TLS 1.2+ or equivalent). "
           +:+ "Plaintext transmission is a critical compliance failure.")
          "HIGH"]
  else [].

(* Network separation *)
Definition gap_network (flat : gmap string answer) : list Gap :=
  let boundary := Py.get_or flat "bd_02" (AStr EmptyString) in
  if Str.contains "No — all systems share" (Py.str boundary)
  then [gap "SC.3.180" "No Network Segmentation for CUI Systems"
          ("CUI systems should be on an isolated network segment or enclave. "
           +:+ "Flat networks where all systems share the same segment expand CMMC scope significantly.")
          "HIGH"]
  else [].

(* Shared services *)
Definition gap_shared (flat : gmap string answer) : list Gap :=
  if Py.is_True (Py.get flat "bd_06") then
    let shared := Py.get_or flat "bd_06a" (AList []) in
    if Py.truthy shared && negb (Str.contains "None" (Py.str shared))
    then [gap "SC.3.180 / AC.1.001"
            "Shared Services Span CUI and Non-CUI Environments"
            ("Shared services ("
             +:+ match shared with
                 | AList l => Str.join ", " l
                 | _ => Py.str shared
                 end
             +:+ ") "
             +:+ "that span both CUI and non-CUI environments bring additional systems into CMMC scope.")
            "HIGH"]
    else []
  else [].

(* SSP missing *)
Definition gap_ssp (flat : gmap string answer) : list Gap :=
  if Py.is_False (Py.get flat "bd_07")
  then [gap "CM.2.061" "No System Security Plan (SSP)"
          ("A written SSP documenting your system boundary, security controls, and NIST 800-171 "
           +:+ "implementation is required for CMMC Level 2 assessment.")
          "HIGH"]
  else [].

(* SPRS not submitted *)
Definition gap_sprs (flat : gmap string answer) : list Gap :=
  if Py.is_False (Py.get flat "bd_08")
  then [gap "CM.2.061" "SPRS Score Not Submitted"
          ("DoD contractors must submit a NIST SP 800-171 self-assessment score to SPRS. "
           +:+ "Failure to do so may violate contract requirements.")
          "MEDIUM"]
  else [].

(* Logging *)
Definition gap_logging (flat : gmap string answer) : list Gap :=
  let logging := Py.get_or flat "ac_07" (AStr EmptyString) in
  if Str.contains "No logging" (Py.str logging)
  then [gap "AU.2.041" "No Audit Logging on CUI Systems"
          ("NIST AU.2.041 requires audit records for user activities on CUI systems. "
           +:+ "No logging means you cannot detect or investigate security incidents.")
          "HIGH"]
  else [].

(* MFA for privileged *)
Definition gap_privileged (flat : gmap string answer) : list Gap :=
  if Py.is_False (Py.get flat "ac_03")
  then [gap "AC.1.002" "No Separation of Privileged and Standard Accounts"
          ("Admin/privileged accounts should be separate from standard user accounts "
           +:+ "to limit the blast radius of a compromised credential.")
          "MEDIUM"]
  else [].

(* USB control *)
Definition gap_usb (flat : gmap string answer) : list Gap :=
  let usb := Py.get_or flat "ac_08" (AStr EmptyString) in
  if Str.contains "unrestricted" (Str.lower (Py.str usb))
     || Str.contains "No —" (Py.str usb)
  then [gap "AC.2.006 / MP.2.119" "Removable Media Not Controlled"
          ("USB and removable media use on CUI systems must be restricted and controlled. "
           +:+ "Unrestricted USB access is a common data exfiltration vector.")
          "MEDIUM"]
  else [].

(* BYOD *)
Definition gap_byod (flat : gmap string answer) : list Gap :=
  if Py.is_True (Py.get flat "si_04")
  then [gap "AC.1.001 / MP.2.119"
          "Personal Devices (BYOD) Used for Work Activities"
          ("Personal devices accessing company email or systems may bring CUI into an uncontrolled "
           +:+ "environment. BYOD policies and MDM controls are required.")
          "MEDIUM"]
  else [].

(* Awareness training *)
Definition gap_training (flat : gmap string answer) : list Gap :=
  let training := Py.get_or flat "ac_09" (AStr EmptyString) in
  if Str.contains "No formal" (Py.str training)
  then [gap "AT.2.056" "No Formal Cybersecurity Awareness Training Program"
          ("NIST AT.2.056 requires all users with access to CUI systems to receive "
           +:+ "periodic security awareness training.")
          "MEDIUM"]
  else [].

(* Subcontractors without CMMC *)
Definition gap_subcontractors (flat : gmap string answer) : list Gap :=
  let sub := Py.get_or flat "df_08a" (AStr EmptyString) in
  if Py.truthy sub
     && (Str.contains "no known" (Str.lower (Py.str sub))
         || Str.contains "not sure" (Str.lower (Py.str sub)))
  then [gap "AC.2.006" "Subcontractors Handling CUI Lack CMMC Certification"
          ("Subcontractors who receive CUI may be required to obtain their own CMMC certification "
           +:+ "under the flow-down requirements of DFARS 252.204-7021.")
          "HIGH"]
  else [].

Definition _identify_gaps (flat : gmap string answer) : list Gap :=
  gap_mfa flat ++ gap_remote flat ++ gap_enc_rest flat ++ gap_enc_transit flat
  ++ gap_network flat ++ gap_shared flat ++ gap_ssp flat ++ gap_sprs flat
  ++ gap_logging flat ++ gap_privileged flat ++ gap_usb flat ++ gap_byod flat
  ++ gap_training flat ++ gap_subcontractors flat.

Definition _enclave_recommended (flat : gmap string answer) : result bool :=
  cui ← _cui_in_scope flat;
  let no_enclave := Py.is_False (Py.get flat "bd_03") || Py.is_None (Py.get flat "bd_03") in
  let not_all := Py.is_False (Py.get flat "bd_01") in
  let willing := negb (Py.is_False (Py.get flat "bd_04")) in
  Ok (cui && no_enclave && (not_all || willing)).

(** [total_map.get(key, 10)]: a list is unhashable and raises. *)
Definition total_map_get (key : answer) : result Z :=
  match key with
  | AList _ => Raise TypeError
  | AStr s =>
      Ok (if String.eqb s "1–10" then 10
          else if String.eqb s "11–50" then 50
          else if String.eqb s "51–200" then 200
          else if String.eqb s "201–500" then 500
          else if String.eqb s "500+" then 999
          else 10)
  | ANone | ABool _ | AInt _ => Ok 10
  end.

Definition _estimate_systems_in_scope (flat : gmap string answer) : result string :=
  total ← total_map_get (Py.get_or flat "si_01" (AStr "1–10"));
  if Py.is_True (Py.get flat "bd_01") then Ok (Str.of_Z total)
  else
    let boundary := Py.get_or flat "bd_02" (AStr EmptyString) in
    if Str.contains "physically separate" (Py.str boundary)
       || Str.contains "logically separated" (Py.str boundary)
    then Ok ("~" +:+ Str.of_Z (Z.max 1 (total / 5)) +:+ " (estimated enclave systems only)")
    else if Str.contains "Partially" (Py.str boundary)
    then Ok ("~" +:+ Str.of_Z (Z.max 1 (total / 2)) +:+ " (estimated)")
    else Ok (Str.of_Z total).

Definition _scope_reduction_possible (flat : gmap string answer) : bool :=
  Py.is_False (Py.get flat "bd_01")
  && (Py.is_True (Py.get flat "bd_01a") || Py.is_True (Py.get flat "bd_04")).

(** The set built by the two loops of [_nist_control_gaps]. *)
Definition control_set (gaps : list Gap) : gset string :=
  foldl (fun controls g =>
           foldl (fun controls c => controls ∪ {[ Str.strip c ]})
                 controls (Str.split "/" (nist_control g)))
        ∅ gaps.

(** [sorted(xs)] on strings *)
Definition sorted (xs : list string) : list string := merge_sort String.le xs.

Definition _nist_control_gaps (gaps : list Gap) : list string :=
  sorted (elements (control_set gaps)).

Definition calculate (flat : gmap string answer) : result Derived :=
  cui ← _cui_in_scope flat;
  let fci := _fci_in_scope flat in
  let cmmc_level := _cmmc_level cui fci in
  let gaps := _identify_gaps flat in
  enclave_rec ← _enclave_recommended flat;
  scope_sys ← _estimate_systems_in_scope flat;
  Ok {| cui_in_scope := cui;
        fci_in_scope := fci;
        cmmc_level_required := cmmc_level;
        enclave_recommended := enclave_rec;
        systems_in_scope := scope_sys;
        compliance_gaps := gaps;
        gap_count := length gaps;
        high_priority_gaps :=
          filter (fun g => String.eqb (priority g) "HIGH" = true) gaps;
        nist_control_gaps := _nist_control_gaps gaps;
        scope_reduction_possible := _scope_reduction_possible flat |}.

(** The scorer object with its two attributes, and the object that
    [__init__] builds from the responses. *)
Record t : Type := mk { r : list (string * module_data); flat : gmap string answer }.

Definition init (responses : list (string * module_data)) : t :=
  {| r := responses; flat := flatten responses |}.

End ScopeScorer.

(** ** The scoring pass on the scorer object *)

(** The methods of [ScopeScorer] once more, as Python runs them on the
    scorer object: every access to [self.flat] is a step that is handed the
    object and hands it on, an exception leaves the object as it is where
    it is raised, and [sorted] is given the elements of the set in the
    order in which the process iterates over it. *)
Module ScoringPass.

(** A method: from the object to the value returned or the exception
    raised, and the object as the call leaves it. *)
Definition method (A : Type) : Type := ScopeScorer.t → result A * ScopeScorer.t.

Global Instance method_ret : MRet method := λ A a self, (Ok a, self).

Global Instance method_bind : MBind method := λ A B k m self,
  match m self with
  | (Ok a, self') => k a self'
  | (Raise e, self') => (Raise e, self')
  end.

(** An operation on values, which has no access to the object. *)
Definition lift {A} (r : result A) : method A := λ self, (r, self).

(** [self.flat.get(key, dflt)] and [self.flat.get(key)] *)
Definition flat_get_or (key : string) (dflt : answer) : method answer :=
  λ self, (Ok (Py.get_or (ScopeScorer.flat self) key dflt), self).

Definition flat_get (key : string) : method answer := flat_get_or key ANone.

(** [self.flat.update(module_data)] *)
Definition flat_update (module_data : gmap string answer) : method unit :=
  λ self, (Ok tt, {| ScopeScorer.r := ScopeScorer.r self;
                     ScopeScorer.flat := module_data ∪ ScopeScorer.flat self |}).

(** The loop of [__init__] over [responses.values()]. *)
Fixpoint update_all (values : list module_data) : method unit :=
  match values with
  | [] => mret tt
  | module_data :: values' =>
      match module_data with
      | MDict d => flat_update d
      | MOther => mret tt
      end ≫= λ _, update_all values'
  end.

(** [ScopeScorer(responses)]: [self.r] is the dict it is given, [self.flat]
    starts as a new empty dict. *)
Definition __init__ (responses : list (string * module_data)) : ScopeScorer.t :=
  (update_all responses.*2 {| ScopeScorer.r := responses; ScopeScorer.flat := ∅ |}).2.

Definition _cui_in_scope : method bool :=
  df_01 ← flat_get "df_01";
  let handles_gov := Py.is_True df_01 in
  df_02 ← flat_get "df_02";
  let has_dfars := Py.is_True df_02 in
  cui_cats ← flat_get_or "df_03" (AList []);
  has_cui_cats ←
    lift (if Py.truthy cui_cats
          then negb <$> Py.str_in "I am not sure" cui_cats
          else Ok false);
  mret (handles_gov && (has_dfars || has_cui_cats)).

Definition _fci_in_scope : method bool :=
  df_01 ← flat_get "df_01";
  if Py.is_True df_01 then mret true
  else df_09 ← flat_get "df_09"; mret (Py.is_True df_09).

(** [gap(control, title, detail, priority)]: the record appended to the
    local list [gaps]. *)
Definition gap (gaps : list Gap) (control title detail priority : string) : list Gap :=
  gaps ++ [mkGap control title detail priority].

(* MFA *)
Definition check_mfa (gaps : list Gap) : method (list Gap) :=
  mfa ← flat_get_or "ac_02" (AStr EmptyString);
  mret (if Str.contains "No — password" (Py.str mfa) || Str.contains "Partial" (Py.str mfa)
        then gap gaps "IA.3.083" "Multi-Factor Authentication Not Fully Implemented"
          ("MFA is required for all access to CUI systems under NIST 800-171 Rev 3 IA.3.083. "
           +:+ "Password-only authentication is not compliant.")
          "HIGH"
        else gaps).

(* Remote access *)
Definition check_remote (gaps : list Gap) : method (list Gap) :=
  remote ← flat_get_or "ac_05" (AStr EmptyString);
  mret (if Str.contains "no MFA" (Py.str remote) || Str.contains "direct RDP" (Py.str remote)
        then gap gaps "AC.1.001 / IA.3.083"
          "Remote Access Lacks MFA or VPN Protection"
          ("Remote access to CUI systems must use MFA and encrypted channels (VPN). "
           +:+ "Direct RDP/SSH without VPN is a critical exposure.")
          "HIGH"
        else gaps).

(* Encryption at rest *)
Definition check_enc_rest (gaps : list Gap) : method (list Gap) :=
  enc_rest ← flat_get_or "df_06" (AStr EmptyString);
  mret (if Str.contains "No" (Py.str enc_rest)
            || Str.contains "not sure" (Str.lower (Py.str enc_rest))
        then gap gaps "SC.3.177" "CUI Not Encrypted at Rest"
          ("NIST SC.3.177 requires CUI to be encrypted at rest using FIPS 140-2 validated "
           +:+ "cryptographic modules. Unencrypted CUI storage is a critical gap.")
          "HIGH"
        else gaps).

(* Encryption in transit *)
Definition check_enc_transit (gaps : list Gap) : method (list Gap) :=
  enc_transit ← flat_get_or "df_07" (AStr EmptyString);
  mret (if Str.contains "plaintext" (Str.lower (Py.str enc_transit))
            || Str.contains "not sure" (Str.lower (Py.str enc_transit))
        then gap gaps "SC.3.177" "CUI Not Encrypted in Transit"
          ("CUI transmitted over networks must be encrypted (TLS 1.2+ or equivalent). "
           +:+ "Plaintext transmission is a critical compliance failure.")
          "HIGH"
        else gaps).

(* Network separation *)
Definition check_network (gaps : list Gap) : method (list Gap) :=
  boundary ← flat_get_or "bd_02" (AStr EmptyString);
  mret (if Str.contains "No — all systems share" (Py.str boundary)
        then gap gaps "SC.3.180" "No Network Segmentation for CUI Systems"
          ("CUI systems should be on an isolated network segment or enclave. "
           +:+ "Flat networks where all systems share the same segment expand CMMC scope significantly.")
          "HIGH"
        else gaps).

(* Shared services *)
Definition check_shared (gaps : list Gap) : method (list Gap) :=
  bd_06 ← flat_get "bd_06";
  if Py.is_True bd_06 then
    shared ← flat_get_or "bd_06a" (AList []);
    mret (if Py.truthy shared && negb (Str.contains "None" (Py.str shared))
          then gap gaps "SC.3.180 / AC.1.001"
                 "Shared Services Span CUI and Non-CUI Environments"
                 ("Shared services ("
                  +:+ match shared with
                      | AList l => Str.join ", " l
                      | _ => Py.str shared
                      end
                  +:+ ") "
                  +:+ "that span both CUI and non-CUI environments bring additional systems into CMMC scope.")
                 "HIGH"
          else gaps)
  else mret gaps.

(* SSP missing *)
Definition check_ssp (gaps : list Gap) : method (list Gap) :=
  bd_07 ← flat_get "bd_07";
  mret (if Py.is_False bd_07
        then gap gaps "CM.2.061" "No System Security Plan (SSP)"
          ("A written SSP documenting your system boundary, security controls, and NIST 800-171 "
           +:+ "implementation is required for CMMC Level 2 assessment.")
          "HIGH"
        else gaps).

(* SPRS not submitted *)
Definition check_sprs (gaps : list Gap) : method (list Gap) :=
  bd_08 ← flat_get "bd_08";
  mret (if Py.is_False bd_08
        then gap gaps "CM.2.061" "SPRS Score Not Submitted"
          ("DoD contractors must submit a NIST SP 800-171 self-assessment score to SPRS. "
           +:+ "Failure to do so may violate contract requirements.")
          "MEDIUM"
        else gaps).

(* Logging *)
Definition check_logging (gaps : list Gap) : method (list Gap) :=
  logging ← flat_get_or "ac_07" (AStr EmptyString);
  mret (if Str.contains "No logging" (Py.str logging)
        then gap gaps "AU.2.041" "No Audit Logging on CUI Systems"
          ("NIST AU.2.041 requires audit records for user activities on CUI systems. "
           +:+ "No logging means you cannot detect or investigate security incidents.")
          "HIGH"
        else gaps).

(* MFA for privileged *)
Definition check_privileged (gaps : list Gap) : method (list Gap) :=
  ac_03 ← flat_get "ac_03";
  mret (if Py.is_False ac_03
        then gap gaps "AC.1.002" "No Separation of Privileged and Standard Accounts"
          ("Admin/privileged accounts should be separate from standard user accounts "
           +:+ "to limit the blast radius of a compromised credential.")
          "MEDIUM"
        else gaps).

(* USB control *)
Definition check_usb (gaps : list Gap) : method (list Gap) :=
  usb ← flat_get_or "ac_08" (AStr EmptyString);
  mret (if Str.contains "unrestricted" (Str.lower (Py.str usb))
            || Str.contains "No —" (Py.str usb)
        then gap gaps "AC.2.006 / MP.2.119" "Removable Media Not Controlled"
          ("USB and removable media use on CUI systems must be restricted and controlled. "
           +:+ "Unrestricted USB access is a common data exfiltration vector.")
          "MEDIUM"
        else gaps).

(* BYOD *)
Definition check_byod (gaps : list Gap) : method (list Gap) :=
  si_04 ← flat_get "si_04";
  mret (if Py.is_True si_04
        then gap gaps "AC.1.001 / MP.2.119"
          "Personal Devices (BYOD) Used for Work Activities"
          ("Personal devices accessing company email or systems may bring CUI into an uncontrolled "
           +:+ "environment. BYOD policies and MDM controls are required.")
          "MEDIUM"
        else gaps).

(* Awareness training *)
Definition check_training (gaps : list Gap) : method (list Gap) :=
  training ← flat_get_or "ac_09" (AStr EmptyString);
  mret (if Str.contains "No formal" (Py.str training)
        then gap gaps "AT.2.056" "No Formal Cybersecurity Awareness Training Program"
          ("NIST AT.2.056 requires all users with access to CUI systems to receive "
           +:+ "periodic security awareness training.")
          "MEDIUM"
        else gaps).

(* Subcontractors without CMMC *)
Definition check_subcontractors (gaps : list Gap) : method (list Gap) :=
  sub ← flat_get_or "df_08a" (AStr EmptyString);
  mret (if Py.truthy sub
            && (Str.contains "no known" (Str.lower (Py.str sub))
                || Str.contains "not sure" (Str.lower (Py.str sub)))
        then gap gaps "AC.2.006" "Subcontractors Handling CUI Lack CMMC Certification"
          ("Subcontractors who receive CUI may be required to obtain their own CMMC certification "
           +:+ "under the flow-down requirements of DFARS 252.204-7021.")
          "HIGH"
        else gaps).

Definition _identify_gaps : method (list Gap) :=
  gaps ← check_mfa [];
  gaps ← check_remote gaps;
  gaps ← check_enc_rest gaps;
  gaps ← check_enc_transit gaps;
  gaps ← check_network gaps;
  gaps ← check_shared gaps;
  gaps ← check_ssp gaps;
  gaps ← check_sprs gaps;
  gaps ← check_logging gaps;
  gaps ← check_privileged gaps;
  gaps ← check_usb gaps;
  gaps ← check_byod gaps;
  gaps ← check_training gaps;
  gaps ← check_subcontractors gaps;
  mret gaps.

Definition _enclave_recommended : method bool :=
  cui ← _cui_in_scope;
  bd_03 ← flat_get "bd_03";
  no_enclave ←
    (if Py.is_False bd_03 then mret true
     else bd_03 ← flat_get "bd_03"; mret (Py.is_None bd_03));
  bd_01 ← flat_get "bd_01";
  let not_all := Py.is_False bd_01 in
  bd_04 ← flat_get "bd_04";
  let willing := negb (Py.is_False bd_04) in
  mret (cui && no_enclave && (not_all || willing)).

Definition _estimate_systems_in_scope : method string :=
  si_01 ← flat_get_or "si_01" (AStr "1–10");
  total ← lift (ScopeScorer.total_map_get si_01);
  bd_01 ← flat_get "bd_01";
  if Py.is_True bd_01 then mret (Str.of_Z total)
  else
    boundary ← flat_get_or "bd_02" (AStr EmptyString);
    if Str.contains "physically separate" (Py.str boundary)
       || Str.contains "logically separated" (Py.str boundary)
    then mret ("~" +:+ Str.of_Z (Z.max 1 (total / 5)) +:+ " (estimated enclave systems only)")
    else if Str.contains "Partially" (Py.str boundary)
    then mret ("~" +:+ Str.of_Z (Z.max 1 (total / 2)) +:+ " (estimated)")
    else mret (Str.of_Z total).

Definition _scope_reduction_possible : method bool :=
  bd_01 ← flat_get "bd_01";
  if Py.is_False bd_01 then
    bd_01a ← flat_get "bd_01a";
    if Py.is_True bd_01a then mret true
    else bd_04 ← flat_get "bd_04"; mret (Py.is_True bd_04)
  else mret false.

(** [_nist_control_gaps] in a process whose sets of strings are iterated
    in the order [order]. *)
Definition _nist_control_gaps (order : gset string → list string) (gaps : list Gap)
  : list string :=
  ScopeScorer.sorted (order (ScopeScorer.control_set gaps)).

Definition calculate (order : gset string → list string) : method Derived :=
  cui_in_scope ← _cui_in_scope;
  fci_in_scope ← _fci_in_scope;
  let cmmc_level := ScopeScorer._cmmc_level cui_in_scope fci_in_scope in
  gaps ← _identify_gaps;
  enclave_rec ← _enclave_recommended;
  scope_sys ← _estimate_systems_in_scope;
  let high := filter (λ g, String.eqb (priority g) "HIGH" = true) gaps in
  let controls := _nist_control_gaps order gaps in
  reduction ← _scope_reduction_possible;
  mret {| cui_in_scope := cui_in_scope;
          fci_in_scope := fci_in_scope;
          cmmc_level_required := cmmc_level;
          enclave_recommended := enclave_rec;
          systems_in_scope := scope_sys;
          compliance_gaps := gaps;
          gap_count := length gaps;
          high_priority_gaps := high;
          nist_control_gaps := controls;
          scope_reduction_possible := reduction |}.

End ScoringPass.

(** ** The question engine ([question_engine.py]) *)

Inductive QuestionType : Type :=
| YES_NO
| CHOICE
| MULTI_CHOICE
| TEXT
| NUMBER.

(** A question of the catalog.  The prompt [text] and the [help_text] are
    only printed, and are left out. *)
Record Question : Type := mkQuestion {
  id : string;
  qtype : QuestionType;
  choices : list string;
  nist_controls : list string;
  depends_on : option (string * answer);   (* (question_id, expected_value) *)
  is_critical : bool;
  gap_flag : bool;
}.

Global Instance QuestionType_eq_dec : EqDecision QuestionType.
Proof. solve_decision. Defined.

Global Instance Question_eq_dec : EqDecision Question.
Proof. solve_decision. Defined.

Module QuestionEngine.

Definition is_digit (c : ascii) : bool :=
  let n := nat_of_ascii c in (48 <=? n)%nat && (n <=? 57)%nat.

(** Decimal digits, single underscores allowed between two digits. *)
Fixpoint parse_digits (s : string) (acc : Z) (after_digit : bool) : option Z :=
  match s with
  | EmptyString => if after_digit then Some acc else None
  | String c t =>
      if is_digit c
      then parse_digits t (10 * acc + Z.of_nat (nat_of_ascii c - 48)) true
      else if Ascii.eqb c "_"%char && after_digit then parse_digits t acc false
      else None
  end.

(** The blanks [int] skips around the number, in the ASCII range: tab,
    LF, VT, FF, CR and space (the separators FS to US, which [strip]
    removes, are not among them). *)
Definition is_int_space (c : ascii) : bool :=
  let n := nat_of_ascii c in
  ((9 <=? n)%nat && (n <=? 13)%nat) || (n =? 32)%nat.

Fixpoint int_ltrim (s : string) : string :=
  match s with
  | EmptyString => EmptyString
  | String c t => if is_int_space c then int_ltrim t else s
  end.

Fixpoint int_rtrim (s : string) : string :=
  match s with
  | EmptyString => EmptyString
  | String c t =>
      match int_rtrim t with
      | EmptyString => if is_int_space c then EmptyString else String c EmptyString
      | t' => String c t'
      end
  end.

(** [int(s)] on a string, for ASCII digits; [None] is [ValueError]. *)
Definition py_int (s : string) : option Z :=
  match int_rtrim (int_ltrim s) with
  | String "+"%char t => parse_digits t 0 false
  | String "-"%char t => Z.opp <$> parse_digits t 0 false
  | t => parse_digits t 0 false
  end.

(** The console is the list of lines still to be read; [input()] on an
    exhausted console raises [EOFError]. *)

Fixpoint _ask_yes_no (inputs : list string) : result (bool * list string) :=
  match inputs with
  | [] => Raise EOFError
  | line :: rest =>
      let ans := Str.lower (Str.strip line) in
      if bool_decide (ans ∈ ["y"; "yes"]) then Ok (true, rest)
      else if bool_decide (ans ∈ ["n"; "no"]) then Ok (false, rest)
      else _ask_yes_no rest
  end.

(** [choices[idx]] guarded by [0 <= idx < len(choices)] *)
Definition select (choices : list string) (idx : Z) : option string :=
  if (0 <=? idx) && (idx <? Z.of_nat (length choices))
  then choices !! Z.to_nat idx
  else None.

Fixpoint _ask_choice (choices : list string) (inputs : list string)
  : result (string * list string) :=
  match inputs with
  | [] => Raise EOFError
  | line :: rest =>
      let ans := Str.strip line in
      match py_int ans with
      | Some n =>
          match select choices (n - 1) with
          | Some selected => Ok (selected, rest)
          | None => _ask_choice choices rest
          end
      | None => _ask_choice choices rest
      end
  end.

Fixpoint _ask_multi_choice (choices : list string) (inputs : list string)
  : result (list string * list string) :=
  match inputs with
  | [] => Raise EOFError
  | line :: rest =>
      let ans := Str.strip line in
      if String.eqb (Str.lower ans) "all" then Ok (choices, rest)
      else
        match mapM (fun x => py_int (Str.strip x)) (Str.split "," ans) with
        | Some ns =>
            let indices := map (fun n => n - 1) ns in
            let selected := omap (select choices) indices in
            match selected with
            | [] => _ask_multi_choice choices rest
            | _ => Ok (selected, rest)
            end
        | None => _ask_multi_choice choices rest
        end
  end.

Fixpoint _ask_number (inputs : list string) : result (Z * list string) :=
  match inputs with
  | [] => Raise EOFError
  | line :: rest =>
      match py_int (Str.strip line) with
      | Some n => Ok (n, rest)
      | None => _ask_number rest
      end
  end.

Definition _collect_answer (q : Question) (inputs : list string)
  : result (answer * list string) :=
  match qtype q with
  | YES_NO => '(b, rest) ← _ask_yes_no inputs; Ok (ABool b, rest)
  | CHOICE => '(s, rest) ← _ask_choice (choices q) inputs; Ok (AStr s, rest)
  | MULTI_CHOICE => '(l, rest) ← _ask_multi_choice (choices q) inputs; Ok (AList l, rest)
  | TEXT =>
      match inputs with
      | [] => Raise EOFError
      | line :: rest =>
          let val := Str.strip line in
          Ok (if Py.truthy (AStr val) then AStr val else ANone, rest)
      end
  | NUMBER => '(n, rest) ← _ask_number inputs; Ok (AInt n, rest)
  end.

Definition _to_bool (value : answer) : option bool :=
  match value with
  | ABool b => Some b
  | AStr s => Some (bool_decide (Str.lower s ∈ ["y"; "yes"; "true"; "1"]))
  | ANone | AInt _ | AList _ => None
  end.

(** The test of [run] on [q.depends_on]: [true] when the question is not
    skipped. *)
Definition dependency_met (answers : gmap string answer) (dep : string * answer) : bool :=
  let '(dep_id, expected) := dep in
  let dep_answer := Py.get answers dep_id in
  match expected with
  | ABool e => bool_decide (_to_bool dep_answer = Some e)
  | _ => Py.eqb dep_answer expected
  end.

(** The state of a run: the answers, the counter [shown], the numbered
    questions printed so far, and the console. *)
Record state : Type := mkState {
  answers : gmap string answer;
  shown : nat;
  printed : list (nat * string);
  console : list string;
}.

(** One iteration of the loop of [run]. *)
Definition step (q : Question) (st : state) : result state :=
  if match depends_on q with
     | Some dep => negb (dependency_met (answers st) dep)
     | None => false
     end
  then Ok st
  else
    let shown' := S (shown st) in
    let printed' := printed st ++ [(shown', id q)] in
    '(answer, rest) ← _collect_answer q (console st);
    Ok {| answers := <[id q := answer]> (answers st);
          shown := shown';
          printed := printed';
          console := rest |}.

Fixpoint loop (questions : list Question) (st : state) : result state :=
  match questions with
  | [] => Ok st
  | q :: questions' => st' ← step q st; loop questions' st'
  end.

Definition init (inputs : list string) : state :=
  {| answers := ∅; shown := 0; printed := []; console := inputs |}.

Definition run (questions : list Question) (inputs : list string) : result state :=
  loop questions (init inputs).

End QuestionEngine.

(** ** The question catalogs ([questions/]) *)

Definition SYSTEM_INVENTORY_QUESTIONS : list Question := [
  mkQuestion "si_01" CHOICE
      ["1–10"; "11–50"; "51–200"; "201–500"; "500+"]
      ["CM.2.062"] None false false;
  mkQuestion "si_02" YES_NO
      []
      ["CM.2.061"; "SC.3.177"] None false false;
  mkQuestion "si_02a" MULTI_CHOICE
      ["Microsoft 365 / Azure";
       "Google Workspace / GCP";
       "Amazon Web Services (AWS)";
       "Other SaaS applications";
       "On-premises only"]
      ["CM.2.061"] (Some ("si_02", ABool true)) false false;
  mkQuestion "si_03" YES_NO
      []
      ["CM.2.062"] None false false;
  mkQuestion "si_04" YES_NO
      []
      ["AC.2.006"; "CM.2.061"] None false false;
  mkQuestion "si_05" YES_NO
      []
      ["CM.2.062"] None false false;
  mkQuestion "si_06" CHOICE
      ["1–5"; "6–25"; "26–100"; "101–500"; "500+"]
      ["AC.1.001"] None false false;
  mkQuestion "si_07" YES_NO
      []
      ["CM.2.062"; "SC.3.180"] None false false;
  mkQuestion "si_08" YES_NO
      []
      ["AC.2.006"; "CM.2.062"] None false false;
  mkQuestion "si_08a" CHOICE
      ["Yes — they are CMMC certified";
       "Yes — they have documented security controls (e.g., SOC 2, ISO 27001)";
       "No — unknown";
       "No — they have no formal certification"]
      ["AC.2.006"] (Some ("si_08", ABool true)) false false;
  mkQuestion "si_09" YES_NO
      []
      ["CM.2.061"] None false true
].

Definition CUI_CATEGORIES : list string :=
  ["Acquisition & Procurement (e.g., contract data, bid information)";
   "Defense & Military (e.g., technical specs, weapons system data)";
   "Export Controlled (ITAR / EAR controlled technical data)";
   "Financial (e.g., cost/pricing data, budget information)";
   "Intelligence (e.g., threat assessments, SIGINT products)";
   "Law Enforcement Sensitive";
   "Privacy / Personally Identifiable Information (PII)";
   "Proprietary Business Information";
   "Research & Development (pre-decisional R&D data)";
   "Other CUI (specify in report)";
   "I am not sure — need help identifying"].

Definition DATA_FLOW_QUESTIONS : list Question := [
  mkQuestion "df_01" YES_NO
      []
      ["AC.1.001"] None true false;
  mkQuestion "df_02" YES_NO
      []
      ["AC.1.001"] (Some ("df_01", ABool true)) true false;
  mkQuestion "df_03" MULTI_CHOICE
      CUI_CATEGORIES
      ["MP.2.119"] (Some ("df_01", ABool true)) false false;
  mkQuestion "df_04" MULTI_CHOICE
      ["Email (e.g., attachments from contracting officers)";
       "DoD portals / web applications (e.g., PIEE, EDA, SAFE)";
       "Removable media (USB drives, CDs)";
       "Shared network drives / file shares with the government";
       "Video conferencing (e.g., DoD-provided meeting links with shared docs)";
       "Physical documents / mail";
       "We generate CUI ourselves based on contract work";
       "Not sure"]
      ["AC.2.006"; "MP.2.119"] (Some ("df_01", ABool true)) false false;
  mkQuestion "df_05" MULTI_CHOICE
      ["Employee workstations / laptops (local storage)";
       "On-premises file server / NAS";
       "Microsoft SharePoint / OneDrive for Business";
       "Microsoft Teams (chats, files)";
       "Google Drive";
       "Other cloud storage (Box, Dropbox, etc.)";
       "Email server / cloud email (Exchange, Gmail)";
       "Database (SQL, Oracle, etc.)";
       "Removable media (USB, external drives)";
       "Mobile devices (phones, tablets)";
       "We do not store CUI — process only"]
      ["MP.2.119"; "SC.3.177"] (Some ("df_01", ABool true)) true false;
  mkQuestion "df_06" CHOICE
      ["Yes — all CUI storage locations use encryption";
       "Yes — some storage locations use encryption";
       "No — CUI is stored without encryption";
       "I am not sure"]
      ["SC.3.177"] (Some ("df_01", ABool true)) false true;
  mkQuestion "df_07" CHOICE
      ["Yes — TLS/HTTPS/S/MIME used consistently";
       "Yes — some transmissions are encrypted";
       "No — CUI is sent in plaintext";
       "I am not sure"]
      ["SC.3.177"] (Some ("df_01", ABool true)) false true;
  mkQuestion "df_08" YES_NO
      []
      ["AC.2.006"] (Some ("df_01", ABool true)) false false;
  mkQuestion "df_08a" CHOICE
      ["Yes — CMMC certified";
       "Yes — documented controls (SOC 2, ISO 27001, etc.)";
       "No — no known certification";
       "I am not sure"]
      ["AC.2.006"] (Some ("df_08", ABool true)) false true;
  mkQuestion "df_09" YES_NO
      []
      ["AC.1.001"] None false false
].

Definition BOUNDARY_QUESTIONS : list Question := [
  mkQuestion "bd_01" YES_NO
      []
      ["SC.3.180"] None true false;
  mkQuestion "bd_01a" YES_NO
      []
      ["CM.2.062"] (Some ("bd_01", ABool false)) false false;
  mkQuestion "bd_02" CHOICE
      ["Yes — physically separate (different hardware, no network connection)";
       "Yes — logically separated (separate VLAN / network segment)";
       "Partially — some separation exists";
       "No — all systems share the same network";
       "Not applicable — entire environment handles CUI"]
      ["SC.3.180"; "SC.3.183"] None true false;
  mkQuestion "bd_03" YES_NO
      []
      ["SC.3.180"] None true false;
  mkQuestion "bd_03a" CHOICE
      ["Dedicated physical machines (air-gapped)";
       "Virtual machines (VMware, Hyper-V, VirtualBox)";
       "Docker / containerized environment";
       "Cloud-hosted enclave (e.g., Microsoft GCC High, AWS GovCloud)";
       "Commercial managed enclave service";
       "Other"]
      ["SC.3.180"] (Some ("bd_03", ABool true)) false false;
  mkQuestion "bd_04" YES_NO
      []
      ["SC.3.180"] (Some ("bd_03", ABool false)) false false;
  mkQuestion "bd_05" YES_NO
      []
      ["SC.3.183"] None false true;
  mkQuestion "bd_06" YES_NO
      []
      ["SC.3.180"; "AC.1.001"] None true true;
  mkQuestion "bd_06a" MULTI_CHOICE
      ["Active Directory / LDAP (identity/authentication)";
       "DNS servers";
       "DHCP servers";
       "File servers / NAS (shared drives)";
       "Email server";
       "Backup / DR systems";
       "Monitoring / SIEM";
       "IT management tools (RMM, patch management)";
       "None — shared services are separated"]
      ["SC.3.180"; "AC.1.001"] (Some ("bd_06", ABool true)) false false;
  mkQuestion "bd_07" YES_NO
      []
      ["CM.2.061"] None false true;
  mkQuestion "bd_08" YES_NO
      []
      ["CM.2.061"] None false true;
  mkQuestion "bd_08a" TEXT
      []
      ["CM.2.061"] (Some ("bd_08", ABool true)) false false
].

Definition ACCESS_CONTROL_QUESTIONS : list Question := [
  mkQuestion "ac_01" YES_NO
      []
      ["AC.1.001"] None false true;
  mkQuestion "ac_02" CHOICE
      ["Yes — MFA enforced for all users (local and remote)";
       "Yes — MFA enforced for remote access only";
       "Yes — MFA enforced for privileged/admin accounts only";
       "No — password-only authentication is used";
       "Partially implemented"]
      ["IA.3.083"] None true true;
  mkQuestion "ac_03" YES_NO
      []
      ["AC.1.002"] None false true;
  mkQuestion "ac_04" CHOICE
      ["Yes — meets NIST 800-63B requirements (min 8 chars, complexity)";
       "Yes — but below NIST recommendations";
       "No formal policy — users choose their own passwords";
       "Not sure"]
      ["IA.3.083"] None false true;
  mkQuestion "ac_05" CHOICE
      ["Yes — VPN with MFA + full logging";
       "Yes — VPN but no MFA";
       "Yes — direct RDP/SSH (no VPN)";
       "No formal remote access controls";
       "No remote access allowed"]
      ["AC.1.001"; "IA.3.085"] None true true;
  mkQuestion "ac_06" CHOICE
      ["Yes — formal offboarding process with immediate account termination";
       "Yes — accounts removed within 1–7 days";
       "No formal process — accounts may remain active";
       "Not sure"]
      ["AC.1.001"] None false true;
  mkQuestion "ac_07" CHOICE
      ["Yes — comprehensive logging with alerting (SIEM)";
       "Yes — basic logging (event logs, auditd)";
       "Partial — some systems are logged";
       "No logging in place"]
      ["AU.2.041"; "AU.2.042"] None false true;
  mkQuestion "ac_08" CHOICE
      ["Yes — USB ports are disabled or blocked by policy + technical control";
       "Yes — policy exists but not technically enforced";
       "No — unrestricted USB usage";
       "Not sure"]
      ["AC.2.006"; "MP.2.119"] None false true;
  mkQuestion "ac_09" CHOICE
      ["Yes — annual formal training with documentation";
       "Yes — informal training (ad hoc)";
       "No formal training program"]
      ["AT.2.056"] None false true;
  mkQuestion "ac_10" YES_NO
      []
      ["AC.2.005"] None false true
].

(** The four modules of [ScopingAssessment.MODULES], in order. *)
Definition MODULES : list (string * list Question) :=
  [("system_inventory", SYSTEM_INVENTORY_QUESTIONS);
   ("data_flow", DATA_FLOW_QUESTIONS);
   ("boundary", BOUNDARY_QUESTIONS);
   ("access_control", ACCESS_CONTROL_QUESTIONS)].

Definition ALL_QUESTIONS : list Question := concat (map snd MODULES).

(** ** Notions used by the statements *)

(** An answer has the type of its question's kind. *)
Definition answer_has_kind (k : QuestionType) (a : answer) : bool :=
  match k, a with
  | YES_NO, ABool _ => true
  | CHOICE, AStr _ => true
  | MULTI_CHOICE, AList _ => true
  | TEXT, (AStr _ | ANone) => true
  | NUMBER, AInt _ => true
  | _, _ => false
  end.

(** A response store in which every recorded answer of a catalog question
    has the type of that question. *)
Definition well_typed (flat : gmap string answer) : Prop :=
  ∀ q a, q ∈ ALL_QUESTIONS → flat !! id q = Some a → answer_has_kind (qtype q) a = true.

(** On the answers of this embedding the scorer applies an operation
    that is not defined on every value at two places: the dict lookup keyed
    by the [si_01] answer (a list is unhashable) and the membership test on
    a truthy [df_03] answer (a bool or an int is not iterable).  The source
    has a third place, the [join] over the [bd_06a] answer, which raises on
    a list that holds something else than strings.  Such a list, a dict and
    a float are values a saved file can hold but no answers of the
    embedding, and [scorable] says nothing about them. *)
Definition hashable (a : answer) : bool :=
  match a with AList _ => false | _ => true end.

Definition iterable (a : answer) : bool :=
  match a with AList _ | AStr _ => true | _ => false end.

Definition scorable (flat : gmap string answer) : bool :=
  hashable (Py.get flat "si_01")
  && (negb (Py.truthy (Py.get flat "df_03")) || iterable (Py.get flat "df_03")).

Definition is_Ok {A} (r : result A) : Prop :=
  match r with Ok _ => True | Raise _ => False end.

(** The gap rules with the answers each of them reads. *)
Definition gap_rules : list (list string * (gmap string answer → list Gap)) :=
  [ (["ac_02"], ScopeScorer.gap_mfa);
    (["ac_05"], ScopeScorer.gap_remote);
    (["df_06"], ScopeScorer.gap_enc_rest);
    (["df_07"], ScopeScorer.gap_enc_transit);
    (["bd_02"], ScopeScorer.gap_network);
    (["bd_06"; "bd_06a"], ScopeScorer.gap_shared);
    (["bd_07"], ScopeScorer.gap_ssp);
    (["bd_08"], ScopeScorer.gap_sprs);
    (["ac_07"], ScopeScorer.gap_logging);
    (["ac_03"], ScopeScorer.gap_privileged);
    (["ac_08"], ScopeScorer.gap_usb);
    (["si_04"], ScopeScorer.gap_byod);
    (["ac_09"], ScopeScorer.gap_training);
    (["df_08a"], ScopeScorer.gap_subcontractors) ].

(** A rule depends on the store only through the answers it reads. *)
Definition reads_only (keys : list string) (rule : gmap string answer → list Gap) : Prop :=
  ∀ flat flat' : gmap string answer,
    (∀ k, k ∈ keys → flat !! k = flat' !! k) → rule flat = rule flat'.

(** A rule is not triggered when an answer it reads is missing. *)
Definition silent_when_missing (keys : list string) (rule : gmap string answer → list Gap) : Prop :=
  ∀ (flat : gmap string answer) k, k ∈ keys → flat !! k = None → rule flat = [].

(** The sentinel choice of [df_03]: the last entry of [CUI_CATEGORIES]. *)
Definition UNSURE_CHOICE : string := "I am not sure — need help identifying".

(** The bucket value of a device-count answer. *)
Definition bucket_ceiling (a : answer) : Z :=
  match a with
  | AStr s =>
      if String.eqb s "1–10" then 10
      else if String.eqb s "11–50" then 50
      else if String.eqb s "51–200" then 200
      else if String.eqb s "201–500" then 500
      else if String.eqb s "500+" then 999
      else 10
  | _ => 10
  end.

(** The estimate in the words of the specification: the bucket value,
    whole when the entire environment is in scope, else divided by 5 under
    a physical or logical separation, by 2 under a partial one. *)
Definition estimate_spec (flat : gmap string answer) : string :=
  let total := bucket_ceiling (Py.get_or flat "si_01" (AStr "1–10")) in
  let boundary := Py.str (Py.get_or flat "bd_02" (AStr EmptyString)) in
  if Py.is_True (Py.get flat "bd_01") then Str.of_Z total
  else if Str.contains "physically separate" boundary
          || Str.contains "logically separated" boundary
  then "~" +:+ Str.of_Z (total / 5) +:+ " (estimated enclave systems only)"
  else if Str.contains "Partially" boundary
  then "~" +:+ Str.of_Z (total / 2) +:+ " (estimated)"
  else Str.of_Z total.

(** The tokens of a gap's control identifier. *)
Definition control_tokens (g : Gap) : list string :=
  map Str.strip (Str.split "/" (nist_control g)).

(** The comparison of a stored answer with the expected value of a
    dependency: under boolean normalization when the expected value is a
    boolean, by equality otherwise. *)
Definition answer_matches (a expected : answer) : bool :=
  match expected with
  | ABool e => bool_decide (QuestionEngine._to_bool a = Some e)
  | _ => Py.eqb a expected
  end.

(** A question is presented in a state when it has no dependency or its
    dependency is met. *)
Definition presented_in (q : Question) (st : QuestionEngine.state) : bool :=
  match depends_on q with
  | Some dep => QuestionEngine.dependency_met (QuestionEngine.answers st) dep
  | None => true
  end.

(** The strings [_to_bool] takes for true, after lowering. *)
Definition TRUTHY_WORDS : list string := ["y"; "yes"; "true"; "1"].

(** A character occurs in a string. *)
Fixpoint occurs (c : ascii) (s : string) : bool :=
  match s with
  | EmptyString => false
  | String c' t => Ascii.eqb c' c || occurs c t
  end.

(** A string of blanks only; a string that starts, or ends, with a blank. *)
Fixpoint all_space (s : string) : bool :=
  match s with
  | EmptyString => true
  | String c t => Str.is_space c && all_space t
  end.

Definition starts_with_space (s : string) : bool :=
  match s with
  | EmptyString => false
  | String c _ => Str.is_space c
  end.

Fixpoint ends_with_space (s : string) : bool :=
  match s with
  | EmptyString => false
  | String c EmptyString => Str.is_space c
  | String _ t => ends_with_space t
  end.

(** ** Stores, catalogs and states used in the statements *)

(** Only the MFA question answered, with the choice that triggers its rule. *)
Definition mfa_partial_store : gmap string answer :=
  {[ "ac_02" := AStr "Partially implemented" ]}.

(** Two stores with an answer of the wrong type. *)
Definition si_01_list_store : gmap string answer :=
  {[ "si_01" := AList ["1–10"] ]}.

Definition df_03_true_store : gmap string answer :=
  {[ "df_03" := ABool true ]}.

(** The derived result of the empty store. *)
Definition empty_result : Derived :=
  {| cui_in_scope := false;
     fci_in_scope := false;
     cmmc_level_required := "Not Required (verify contract requirements)";
     enclave_recommended := false;
     systems_in_scope := "10";
     compliance_gaps := [];
     gap_count := 0;
     high_priority_gaps := [];
     nist_control_gaps := [];
     scope_reduction_possible := false |}.

(** A store whose answers have the type of their questions. *)
Definition typed_store : gmap string answer :=
  {[ "si_01" := AStr "11–50"; "df_01" := ABool true; "df_03" := AList [UNSURE_CHOICE] ]}.

(** Scenario C: government information, no contractual trigger, and the
    unsure choice as the only category. *)
Definition unsure_only_store : gmap string answer :=
  {[ "df_01" := ABool true; "df_02" := ABool false; "df_03" := AList [UNSURE_CHOICE] ]}.

(** Console input for the data-flow module: government information yes,
    no contractual trigger, category 11 (the unsure choice), then answers
    to the remaining questions. *)
Definition unsure_only_console : list string :=
  ["y"; "n"; "11"; "1"; "11"; "1"; "1"; "n"; "n"].

(** Scenario B: government information and the contractual trigger. *)
Definition dfars_store : gmap string answer :=
  {[ "df_01" := ABool true; "df_02" := ABool true ]}.

(** The choice list of a catalog question. *)
Definition choices_of (qid : string) : list string :=
  match list_find (λ q, id q = qid) ALL_QUESTIONS with
  | Some (_, q) => choices q
  | None => []
  end.

(** The three answers the estimate reads. *)
Definition estimate_store (bucket : string) (whole : bool) (separation : string)
  : gmap string answer :=
  {[ "si_01" := AStr bucket; "bd_01" := ABool whole; "bd_02" := AStr separation ]}.

(** Scenario E. *)
Definition scenario_E_store : gmap string answer :=
  estimate_store "51–200" false
    "Yes — physically separate (different hardware, no network connection)".

(** The gaps of a store that triggers the remote-access and the BYOD rule. *)
Definition two_gaps : list Gap :=
  ScopeScorer._identify_gaps
    {[ "ac_05" := AStr "Yes — VPN but no MFA"; "si_04" := ABool true ]}.

(** A listing of the elements of a set, each once: what the iteration
    order of a process can be. *)
Definition lists_elements (order : gset string → list string) : Prop :=
  ∀ s, order s ≡ₚ elements s.

(** The scorer of a store with two gaps, which name three controls. *)
Definition two_gaps_scorer : ScopeScorer.t :=
  ScopeScorer.init
    [("access_control", MDict {[ "ac_05" := AStr "Yes — VPN but no MFA" ]});
     ("system_inventory", MDict {[ "si_04" := ABool true ]})].

(** A free-text question and a question that depends on it being [True]. *)
Definition text_then_dependent : list Question :=
  [ mkQuestion "t" TEXT [] [] None false false;
    mkQuestion "q" YES_NO [] [] (Some ("t", ABool true)) false false ].

(** A question that depends on a question [d], absent from the catalog,
    having the answer [None]. *)
Definition none_expected_catalog : list Question :=
  [ mkQuestion "q" YES_NO [] [] (Some ("d", ANone)) false false ].

(** The second data-flow question, and the state after [df_01] was
    answered with no. *)
Definition df_02_question : Question :=
  mkQuestion "df_02" YES_NO [] ["AC.1.001"] (Some ("df_01", ABool true)) true false.

Definition df_01_denied : QuestionEngine.state :=
  {| QuestionEngine.answers := {[ "df_01" := ABool false ]};
     QuestionEngine.shown := 1;
     QuestionEngine.printed := [(1%nat, "df_01")];
     QuestionEngine.console := ["y"] |}.

(** A multi-choice question declared without choices. *)
Definition no_choices_catalog : list Question :=
  [ mkQuestion "m" MULTI_CHOICE [] [] None false false ].

(** ** The assessment orchestrator ([scope_assessment.py]) *)

(** What [_autosave] writes to the output file: the metadata and the
    responses. *)
Record checkpoint : Type := mkCheckpoint {
  ck_metadata : gmap string answer;
  ck_responses : list (string * module_data);
}.

(** The content of a file given to [--resume], as [_load_resume] reads it:
    each of the two keys may be missing. *)
Record resume_file : Type := mkResumeFile {
  file_metadata : option (gmap string answer);
  file_responses : option (list (string * module_data));
}.

Module ScopingAssessment.

(** The assessment object, with the output file as [disk] ([None] before
    the first write).  [responses] is the dict of the modules' answers in
    insertion order.  The printing is left out, and so is what [_finalize]
    does once it has the score: the report generator and the final write. *)
Record t : Type := mk {
  metadata : gmap string answer;
  responses : list (string * module_data);
  disk : option checkpoint;
}.

(** [__init__]; [now] is the time stamp of the clock. *)
Definition init (now : string) : t :=
  {| metadata := {[ "tool_version" := AStr "1.0.0";
                    "assessment_date" := AStr now;
                    "organization" := ANone;
                    "assessor" := ANone ]};
     responses := [];
     disk := None |}.

Definition _load_resume (data : resume_file) (self : t) : t :=
  {| metadata := default (metadata self) (file_metadata data);
     responses := default [] (file_responses data);
     disk := disk self |}.

(** [_ask]: the stripped line, asked again while it is empty and required. *)
Fixpoint _ask (required : bool) (console : list string) : result (string * list string) :=
  match console with
  | [] => Raise EOFError
  | line :: rest =>
      let val := Str.strip line in
      if Py.truthy (AStr val) || negb required then Ok (val, rest)
      else _ask required rest
  end.

Definition set_metadata (key : string) (val : string) (self : t) : t :=
  {| metadata := <[key := AStr val]> (metadata self);
     responses := responses self;
     disk := disk self |}.

(** [_collect_metadata]: the object and the console as the four questions
    leave them, and the exception that ended them, if any. *)
Definition _collect_metadata (self : t) (console : list string)
  : t * list string * option exn :=
  match _ask true console with
  | Raise e => (self, [], Some e)
  | Ok (organization, c1) =>
      let self1 := set_metadata "organization" organization self in
      match _ask false c1 with
      | Raise e => (self1, [], Some e)
      | Ok (cage_code, c2) =>
          let self2 := set_metadata "cage_code" cage_code self1 in
          match _ask true c2 with
          | Raise e => (self2, [], Some e)
          | Ok (assessor, c3) =>
              let self3 := set_metadata "assessor" assessor self2 in
              match _ask false c3 with
              | Raise e => (self3, [], Some e)
              | Ok (contract_ref, c4) =>
                  (set_metadata "contract_ref" contract_ref self3, c4, None)
              end
          end
      end
  end.

Definition _autosave (self : t) : t :=
  {| metadata := metadata self;
     responses := responses self;
     disk := Some {| ck_metadata := metadata self;
                     ck_responses := responses self |} |}.

(** The loop of [run] over the modules.  A module whose key is in
    [responses] is skipped; otherwise its engine runs on the console, its
    answers are stored under its key (the key is new, so the entry goes
    last) and the object is saved. *)
Fixpoint run_modules (modules : list (string * list Question)) (self : t)
    (console : list string) : t * list string * option exn :=
  match modules with
  | [] => (self, console, None)
  | (module_key, questions) :: modules' =>
      if bool_decide (module_key ∈ (responses self).*1)
      then run_modules modules' self console
      else
        match QuestionEngine.run questions console with
        | Raise e => (self, [], Some e)
        | Ok st =>
            let self' :=
              {| metadata := metadata self;
                 responses := responses self
                              ++ [(module_key, MDict (QuestionEngine.answers st))];
                 disk := disk self |} in
            run_modules modules' (_autosave self') (QuestionEngine.console st)
        end
  end.

(** The score [_finalize] computes from the responses. *)
Definition _finalize (self : t) : result Derived :=
  ScopeScorer.calculate (ScopeScorer.flat (ScopeScorer.init (responses self))).

(** [run], up to the point where [_finalize] has the score: the object and
    the console at that point, with the score, or the exception that ended
    the run before. *)
Definition run (resume : option resume_file) (self : t) (console : list string)
  : t * list string * result Derived :=
  let self := match resume with
              | Some data => _load_resume data self
              | None => self
              end in
  match console with
  | [] => (self, [], Raise EOFError)
  | _ :: console =>
      let '(self, console, o) := _collect_metadata self console in
      match o with
      | Some e => (self, console, Raise e)
      | None =>
          let '(self, console, o) := run_modules MODULES self console in
          match o with
          | Some e => (self, console, Raise e)
          | None => (self, console, _finalize self)
          end
      end
  end.

End ScopingAssessment.

(** ** Further notions *)

(** The control, title and priority of a gap record. *)
Definition gap_signature (g : Gap) : string * string * string :=
  (nist_control g, title g, priority g).

(** The signatures of the fourteen rules, in the order the rules run. *)
Definition GAP_TABLE : list (string * string * string) :=
  [ ("IA.3.083", "Multi-Factor Authentication Not Fully Implemented", "HIGH");
    ("AC.1.001 / IA.3.083", "Remote Access Lacks MFA or VPN Protection", "HIGH");
    ("SC.3.177", "CUI Not Encrypted at Rest", "HIGH");
    ("SC.3.177", "CUI Not Encrypted in Transit", "HIGH");
    ("SC.3.180", "No Network Segmentation for CUI Systems", "HIGH");
    ("SC.3.180 / AC.1.001", "Shared Services Span CUI and Non-CUI Environments", "HIGH");
    ("CM.2.061", "No System Security Plan (SSP)", "HIGH");
    ("CM.2.061", "SPRS Score Not Submitted", "MEDIUM");
    ("AU.2.041", "No Audit Logging on CUI Systems", "HIGH");
    ("AC.1.002", "No Separation of Privileged and Standard Accounts", "MEDIUM");
    ("AC.2.006 / MP.2.119", "Removable Media Not Controlled", "MEDIUM");
    ("AC.1.001 / MP.2.119", "Personal Devices (BYOD) Used for Work Activities", "MEDIUM");
    ("AT.2.056", "No Formal Cybersecurity Awareness Training Program", "MEDIUM");
    ("AC.2.006", "Subcontractors Handling CUI Lack CMMC Certification", "HIGH") ].

(** The control identifiers the rules can report, sorted. *)
Definition ALL_CONTROLS : list string :=
  [ "AC.1.001"; "AC.1.002"; "AC.2.006"; "AT.2.056"; "AU.2.041";
    "CM.2.061"; "IA.3.083"; "MP.2.119"; "SC.3.177"; "SC.3.180" ].

(** The answers the scorer reads. *)
Definition SCORER_KEYS : list string :=
  [ "df_01"; "df_02"; "df_03"; "df_09";
    "ac_02"; "ac_05"; "df_06"; "df_07"; "bd_02"; "bd_06"; "bd_06a"; "bd_07";
    "bd_08"; "ac_07"; "ac_03"; "ac_08"; "si_04"; "ac_09"; "df_08a";
    "bd_03"; "bd_01"; "bd_04"; "si_01"; "bd_01a" ].

(** The questions marked as gap-relevant whose answer the scorer never reads. *)
Definition unread_gap_questions : list string :=
  id <$> filter (λ q, gap_flag q = true ∧ id q ∉ SCORER_KEYS) ALL_QUESTIONS.

(** The derived result of scenario B. *)
Definition dfars_result : Derived :=
  Eval vm_compute in
    match ScopeScorer.calculate dfars_store with
    | Ok d => d
    | Raise _ => empty_result
    end.

(** A store in which scope reduction is possible and CUI is in scope. *)
Definition reducible_store : gmap string answer :=
  {[ "df_01" := ABool true; "df_02" := ABool true;
     "bd_01" := ABool false; "bd_01a" := ABool true; "bd_03" := ABool false;
     "bd_04" := ABool false ]}.

Definition reducible_result : Derived :=
  Eval vm_compute in
    match ScopeScorer.calculate reducible_store with
    | Ok d => d
    | Raise _ => empty_result
    end.

(** *** Notions for the answer collector *)

(** What one input line is worth to each prompt: the answer it gives, or
    [None] when the prompt is repeated. *)
Definition yes_no_line (line : string) : option bool :=
  let ans := Str.lower (Str.strip line) in
  if bool_decide (ans ∈ ["y"; "yes"]) then Some true
  else if bool_decide (ans ∈ ["n"; "no"]) then Some false
  else None.

Definition choice_line (choices : list string) (line : string) : option string :=
  n ← QuestionEngine.py_int (Str.strip line);
  QuestionEngine.select choices (n - 1).

Definition multi_choice_line (choices : list string) (line : string) : option (list string) :=
  let ans := Str.strip line in
  if String.eqb (Str.lower ans) "all" then Some choices
  else
    ns ← mapM (λ x, QuestionEngine.py_int (Str.strip x)) (Str.split "," ans);
    match omap (QuestionEngine.select choices) (map (λ n, n - 1) ns) with
    | [] => None
    | selected => Some selected
    end.

Definition number_line (line : string) : option Z :=
  QuestionEngine.py_int (Str.strip line).

Definition ask_line (required : bool) (line : string) : option string :=
  let val := Str.strip line in
  if Py.truthy (AStr val) || negb required then Some val else None.

(** A prompt that is repeated until a line is accepted: the answer of the
    first accepted line, with the lines after it left on the console. *)
Fixpoint first_accepted {A} (accept : string → option A) (inputs : list string)
  : result (A * list string) :=
  match inputs with
  | [] => Raise EOFError
  | line :: rest =>
      match accept line with
      | Some a => Ok (a, rest)
      | None => first_accepted accept rest
      end
  end.

(** The dependencies of a catalog point backwards: no question depends on
    its own id or on the id of a question that comes after it. *)
Fixpoint deps_backward (questions : list Question) : bool :=
  match questions with
  | [] => true
  | q :: rest =>
      match depends_on q with
      | Some (d, _) => bool_decide (d ∉ id <$> questions)
      | None => true
      end && deps_backward rest
  end.

(** An answer fits its question: it has the type of the question's kind,
    a choice is one of the labels, a selection is made of labels, and a
    free text is [None] or a non-empty string. *)
Definition answer_fits (q : Question) (a : answer) : Prop :=
  match qtype q, a with
  | YES_NO, ABool _ => True
  | CHOICE, AStr s => s ∈ choices q
  | MULTI_CHOICE, AList l => l ⊆ choices q
  | TEXT, ANone => True
  | TEXT, AStr s => s ≠ EmptyString
  | NUMBER, AInt _ => True
  | _, _ => False
  end.

(** The final state of the run of the data-flow module in which both
    questions without dependency are answered with no. *)
Definition data_flow_denied : QuestionEngine.state :=
  {| QuestionEngine.answers := {[ "df_01" := ABool false; "df_09" := ABool false ]};
     QuestionEngine.shown := 2;
     QuestionEngine.printed := [(1%nat, "df_01"); (2%nat, "df_09")];
     QuestionEngine.console := [] |}.

(** The first data-flow question. *)
Definition df_01_question : Question :=
  mkQuestion "df_01" YES_NO [] ["AC.1.001"] None true false.

(** A console that answers the intro, the metadata questions and every
    question of the four modules, and the outcome of the fresh assessment
    run on it. *)
Definition complete_console : list string :=
  [ EmptyString; " Acme Corp "; EmptyString; "J. Doe"; "FA-1" ]
  ++ [ "1"; "n"; "n"; "n"; "n"; "1"; "n"; "n"; "n" ]
  ++ [ "n"; "n" ]
  ++ [ "n"; "n"; "1"; "n"; "n"; "n"; "n"; "n"; "n" ]
  ++ [ "n"; "1"; "n"; "1"; "1"; "1"; "1"; "1"; "1"; "n" ].

Definition complete_outcome : ScopingAssessment.t * list string * result Derived :=
  Eval vm_compute in
    ScopingAssessment.run None (ScopingAssessment.init "2025-01-01T00:00:00") complete_console.

(** The outcome of the same run when the console ends in the middle of
    the third module. *)
Definition interrupted_outcome : ScopingAssessment.t * list string * result Derived :=
  Eval vm_compute in
    ScopingAssessment.run None (ScopingAssessment.init "2025-01-01T00:00:00")
      (take 18 complete_console).

(** The metadata questions answered. *)
Definition metadata_outcome : ScopingAssessment.t * list string * option exn :=
  Eval vm_compute in
    ScopingAssessment._collect_metadata (ScopingAssessment.init "2025-01-01T00:00:00")
      [" Acme Corp "; EmptyString; "J. Doe"; "FA-1"].

(** A module entry holds the answers of a completed run of the engine on
    the questions of its module. *)
Definition entry_of_run (modules : list (string * list Question))
    (entry : string * module_data) : Prop :=
  ∃ questions inputs st,
    (entry.1, questions) ∈ modules
    ∧ QuestionEngine.run questions inputs = Ok st
    ∧ entry.2 = MDict (QuestionEngine.answers st).

(** A state of the engine with more lines at the end of its console. *)
Definition with_more (more : list string) (st : QuestionEngine.state) : QuestionEngine.state :=
  {| QuestionEngine.answers := QuestionEngine.answers st;
     QuestionEngine.shown := QuestionEngine.shown st;
     QuestionEngine.printed := QuestionEngine.printed st;
     QuestionEngine.console := QuestionEngine.console st ++ more |}.

(** The loop over the modules on the console that answers everything. *)
Definition modules_outcome : ScopingAssessment.t * list string * option exn :=
  Eval vm_compute in
    ScopingAssessment.run_modules MODULES metadata_outcome.1.1 (drop 5 complete_console).

(** Every dependency of the catalog expects a boolean answer of a yes/no
    question of the same catalog. *)
Definition yes_no_deps (questions : list Question) : bool :=
  forallb (λ q,
             match depends_on q with
             | Some (d, ABool _) =>
                 existsb (λ qd, String.eqb (id qd) d
                                && bool_decide (qtype qd = YES_NO)) questions
             | Some _ => false
             | None => true
             end) questions.

(** The answers about shared services: [bd_06] yes, with a selection. *)
Definition shared_store (selection : list string) : gmap string answer :=
  {[ "bd_06" := ABool true; "bd_06a" := AList selection ]}.

(** The score of the completed assessment. *)
Definition complete_score : Derived :=
  match complete_outcome.2 with
  | Ok score => score
  | Raise _ => empty_result
  end.

(** ** The string primitives do what their Python counterparts do *)

Lemma append_cons (c : ascii) (p r : string) : String c p +:+ r = String c (p +:+ r).
Proof. reflexivity. Qed.

Lemma append_nil_l (r : string) : EmptyString +:+ r = r.
Proof. reflexivity. Qed.

Lemma prefix_append (p s : string) :
  String.prefix p s = true ↔ ∃ r, s = p +:+ r.
Proof.
  revert s. induction p as [ | c p IH ]; intros s.
  - destruct s; simpl; split; eauto.
  - destruct s as [ | c' s ]; simpl.
    + split; [ done | intros [r Hr]; discriminate ].
    + destruct (ascii_dec c c') as [<- | Hne].
      * rewrite IH. split; intros [r Hr]; exists r; rewrite append_cons in *; congruence.
      * split; [ done | intros [r Hr]; rewrite append_cons in Hr; congruence ].
Qed.

Lemma contains_nil (needle : string) :
  Str.contains needle EmptyString = String.prefix needle EmptyString.
Proof. unfold Str.contains. apply orb_false_r. Qed.

Lemma contains_cons (needle : string) (c : ascii) (hay : string) :
  Str.contains needle (String c hay)
  = String.prefix needle (String c hay) || Str.contains needle hay.
Proof. reflexivity. Qed.

Lemma contains_substring (needle hay : string) :
  Str.contains needle hay = true ↔ ∃ before after, hay = before +:+ needle +:+ after.
Proof.
  induction hay as [ | c hay IH ].
  - rewrite contains_nil, prefix_append. split.
    + intros [r Hr]. by exists EmptyString, r.
    + intros (b & a & H). destruct b; [ by exists a | discriminate ].
  - rewrite contains_cons, orb_true_iff, IH, prefix_append. split.
    + intros [ [r Hr] | (b & a & ->) ].
      * by exists EmptyString, r.
      * by exists (String c b), a.
    + intros (b & a & H). destruct b as [ | c' b ].
      * left. by exists a.
      * right. exists b, a. rewrite append_cons in H. congruence.
Qed.

Lemma split_nonempty (sep : ascii) (s : string) : Str.split sep s ≠ [].
Proof.
  destruct s as [ | c s ]; simpl; [ done | ].
  destruct (Ascii.eqb c sep); [ done | ].
  by destruct (Str.split sep s).
Qed.

Lemma join_cons_cons (sep x y : string) (l : list string) :
  Str.join sep (x :: y :: l) = x +:+ sep +:+ Str.join sep (y :: l).
Proof. reflexivity. Qed.

Lemma split_join (sep : ascii) (s : string) :
  Str.join (String sep EmptyString) (Str.split sep s) = s.
Proof.
  induction s as [ | c s IH ]; simpl; [ done | ].
  pose proof (split_nonempty sep s) as Hne.
  destruct (Str.split sep s) as [ | w ws ]; [ done | ].
  destruct (Ascii.eqb_spec c sep) as [-> | _].
  - by rewrite join_cons_cons, IH.
  - destruct ws as [ | y ws ]; [ simpl in *; congruence | ].
    rewrite join_cons_cons, append_cons, <- join_cons_cons. congruence.
Qed.

Lemma append_nil_r (r : string) : r +:+ EmptyString = r.
Proof. induction r as [ | c r IH ]; [ done | ]. by rewrite append_cons, IH. Qed.

Lemma split_pieces_free (sep : ascii) (s w : string) :
  w ∈ Str.split sep s → occurs sep w = false.
Proof.
  revert w. induction s as [ | c s IH ]; intros w; simpl.
  - intros H. apply list_elem_of_singleton in H. by subst.
  - destruct (Ascii.eqb_spec c sep) as [-> | Hne].
    + intros H. apply elem_of_cons in H as [-> | H]; [ done | by apply IH ].
    + destruct (Str.split sep s) as [ | w' ws ] eqn:Hsplit.
      * intros H. apply list_elem_of_singleton in H. subst. simpl.
        apply Ascii.eqb_neq in Hne. by rewrite Hne.
      * intros H. apply elem_of_cons in H as [-> | H].
        -- simpl. apply Ascii.eqb_neq in Hne. rewrite Hne. simpl.
           apply IH. by left.
        -- apply IH. by right.
Qed.

Lemma lstrip_decompose (s : string) :
  ∃ pre, s = pre +:+ Str.lstrip s ∧ all_space pre = true
         ∧ starts_with_space (Str.lstrip s) = false.
Proof.
  induction s as [ | c s (pre & Hs & Hpre & Hhead) ]; simpl.
  - by exists EmptyString.
  - destruct (Str.is_space c) eqn:Hc.
    + exists (String c pre). rewrite append_cons, <- Hs. simpl. by rewrite Hc.
    + exists EmptyString. simpl. by rewrite Hc.
Qed.

Lemma rstrip_decompose (s : string) :
  ∃ post, s = Str.rstrip s +:+ post ∧ all_space post = true
          ∧ ends_with_space (Str.rstrip s) = false
          ∧ (starts_with_space s = false → starts_with_space (Str.rstrip s) = false).
Proof.
  induction s as [ | c s (post & Hs & Hpost & Hlast & _) ]; simpl.
  - by exists EmptyString.
  - destruct (Str.rstrip s) as [ | c' r ] eqn:Hr.
    + destruct (Str.is_space c) eqn:Hc.
      * exists (String c post). rewrite append_nil_l in *. subst post.
        simpl. by rewrite Hc.
      * exists post. rewrite append_nil_l in Hs. subst post.
        rewrite append_cons, append_nil_l. simpl. by rewrite Hc.
    + exists post. rewrite append_cons, <- Hs. by simpl.
Qed.

Lemma strip_decompose (s : string) :
  ∃ pre post, s = pre +:+ Str.strip s +:+ post
              ∧ all_space pre = true ∧ all_space post = true
              ∧ starts_with_space (Str.strip s) = false
              ∧ ends_with_space (Str.strip s) = false.
Proof.
  unfold Str.strip.
  destruct (lstrip_decompose s) as (pre & Hs & Hpre & Hhead).
  destruct (rstrip_decompose (Str.lstrip s)) as (post & Hl & Hpost & Hlast & Hkeep).
  exists pre, post. rewrite <- Hl. repeat split; auto.
Qed.

Example string_primitive_examples :
  Str.lower "No — Password-ONLY" = "no — password-only"
  ∧ Str.strip "  AC.1.001 " = "AC.1.001"
  ∧ Str.split "/" "AC.1.001 / IA.3.083" = ["AC.1.001 "; " IA.3.083"]
  ∧ Str.split "/" EmptyString = [EmptyString]
  ∧ Str.contains "No — password" "No — password-only authentication is used" = true
  ∧ map Str.of_Z [0; 7; 40; 999; -12; 1000] = ["0"; "7"; "40"; "999"; "-12"; "1000"]
  ∧ Py.str (AList ["a'b"; "c/d"; "x—y"]) = String.concat EmptyString
      ["["; String (ascii_of_nat 34) "a'b"; String (ascii_of_nat 34) ", 'c/d', 'x—y']"]
  ∧ map QuestionEngine.py_int
      [" +1_0 "; "-3"; "007"; "1__0"; "_1"; "+"; "1 2"; "x"; "1_"; "+-1"; EmptyString]
    = [Some 10; Some (-3); Some 7; None; None; None; None; None; None; None; None].
Proof. repeat split. Qed.

(** ** Elementary facts *)

Lemma get_or_fresh (flat : gmap string answer) k d :
  flat !! k = None → Py.get_or flat k d = d.
Proof. intros H. unfold Py.get_or. by rewrite H. Qed.

Lemma get_or_agree (flat flat' : gmap string answer) k d :
  flat !! k = flat' !! k → Py.get_or flat k d = Py.get_or flat' k d.
Proof. intros H. unfold Py.get_or. by rewrite H. Qed.

Lemma get_agree (flat flat' : gmap string answer) k :
  flat !! k = flat' !! k → Py.get flat k = Py.get flat' k.
Proof. apply get_or_agree. Qed.

Lemma get_fresh (flat : gmap string answer) k :
  flat !! k = None → Py.get flat k = ANone.
Proof. apply get_or_fresh. Qed.

(** *** The gap rules are independent of one another *)

Lemma identify_gaps_rules flat :
  ScopeScorer._identify_gaps flat = mjoin ((λ r, r.2 flat) <$> gap_rules).
Proof.
  unfold ScopeScorer._identify_gaps, gap_rules. csimpl.
  by rewrite app_nil_r.
Qed.

Ltac rule_reads_only :=
  let H := fresh "H" in
  intros ? ? H;
  lazymatch goal with
  | |- ?f ?m = ?f ?m' =>
      unfold f;
      repeat match goal with
        | |- context [Py.get_or m ?k ?d] =>
            rewrite (get_or_agree m m' k d) by (apply H; set_solver)
        | |- context [Py.get m ?k] =>
            rewrite (get_agree m m' k) by (apply H; set_solver)
        end;
      reflexivity
  end.

Lemma gap_rules_read_only :
  Forall (λ r, reads_only r.1 r.2) gap_rules.
Proof.
  unfold gap_rules.
  repeat (apply Forall_cons; split); try solve [constructor]; simpl;
    unfold reads_only; rule_reads_only.
Qed.

Ltac rule_silent :=
  let Hk := fresh "Hk" in
  let Hnone := fresh "Hnone" in
  intros ? ? Hk Hnone;
  repeat (apply elem_of_cons in Hk as [-> | Hk]);
  try (by apply elem_of_nil in Hk);
  lazymatch goal with
  | |- ?f ?m = [] =>
      unfold f;
      first [ rewrite (get_or_fresh m _ _ Hnone); reflexivity
            | rewrite (get_fresh m _ Hnone); reflexivity
            | (* the inner read of a rule with two answers *)
              destruct (Py.is_True (Py.get m _)); [ | reflexivity ];
              by rewrite (get_or_fresh m _ _ Hnone) ]
  end.

Lemma gap_rules_silent :
  Forall (λ r, silent_when_missing r.1 r.2) gap_rules.
Proof.
  unfold gap_rules.
  repeat (apply Forall_cons; split); try solve [constructor]; simpl;
    unfold silent_when_missing; rule_silent.
Qed.

Lemma rules_monotone (rules : list (list string * (gmap string answer → list Gap))) :
  Forall (λ r, reads_only r.1 r.2) rules →
  Forall (λ r, silent_when_missing r.1 r.2) rules →
  ∀ (flat : gmap string answer) k v,
    flat !! k = None →
    mjoin ((λ r, r.2 flat) <$> rules)
      `sublist_of` mjoin ((λ r, r.2 (<[k:=v]> flat)) <$> rules).
Proof.
  intros Hreads Hsilent flat k v Hfresh.
  induction rules as [ | [keys rule] rules IH ]; csimpl.
  - constructor.
  - apply Forall_cons in Hreads as [Hr Hreads].
    apply Forall_cons in Hsilent as [Hs Hsilent].
    simpl in Hr, Hs.
    apply sublist_app; [ | by apply IH ].
    destruct (decide (k ∈ keys)) as [Hin | Hnotin].
    + rewrite (Hs flat k Hin Hfresh). apply sublist_nil_l.
    + rewrite (Hr flat (<[k:=v]> flat)); [ done | ].
      intros k' Hk'. rewrite lookup_insert_ne; [ done | ].
      intros ->. by apply Hnotin.
Qed.

Lemma gap_from_answered_rule (flat : gmap string answer) g :
  g ∈ ScopeScorer._identify_gaps flat →
  ∃ r, r ∈ gap_rules ∧ g ∈ r.2 flat ∧ ∀ k, k ∈ r.1 → is_Some (flat !! k).
Proof.
  rewrite identify_gaps_rules. intros Hg.
  apply list_elem_of_join in Hg as (l & Hgl & Hl).
  apply list_elem_of_fmap in Hl as (r & -> & Hr).
  exists r. split; [ done | ]. split; [ done | ].
  intros k Hk.
  destruct (flat !! k) eqn:Hlook; [ by eexists | ].
  pose proof gap_rules_silent as Hsilent.
  rewrite Forall_forall in Hsilent.
  rewrite (Hsilent r Hr flat k Hk Hlook) in Hgl.
  by apply elem_of_nil in Hgl.
Qed.

(** *** Where the scorer raises *)

Lemma cui_in_scope_ok_iff (flat : gmap string answer) :
  is_Ok (ScopeScorer._cui_in_scope flat)
  ↔ negb (Py.truthy (Py.get flat "df_03")) || iterable (Py.get flat "df_03") = true.
Proof.
  unfold ScopeScorer._cui_in_scope, Py.get, Py.get_or.
  destruct (flat !! "df_03") as [ [ | [] | n | s | l ] | ]; simpl; try tauto.
  - split; [ intros [] | discriminate ].
  - destruct (n =? 0); simpl; [ tauto | ].
    split; [ intros [] | discriminate ].
  - destruct (negb (String.eqb s EmptyString)); simpl; tauto.
  - destruct l; simpl; tauto.
Qed.

Lemma total_map_get_ok (a : answer) :
  hashable a = true → ScopeScorer.total_map_get a = Ok (bucket_ceiling a).
Proof. by destruct a. Qed.

Lemma total_map_get_raise (a : answer) :
  hashable a = false → ScopeScorer.total_map_get a = Raise TypeError.
Proof. by destruct a. Qed.

Lemma hashable_si_01 (flat : gmap string answer) :
  hashable (Py.get_or flat "si_01" (AStr "1–10")) = hashable (Py.get flat "si_01").
Proof. unfold Py.get, Py.get_or. by destruct (flat !! "si_01"). Qed.

Lemma estimate_ok_iff (flat : gmap string answer) :
  is_Ok (ScopeScorer._estimate_systems_in_scope flat)
  ↔ hashable (Py.get flat "si_01") = true.
Proof.
  rewrite <- hashable_si_01. unfold ScopeScorer._estimate_systems_in_scope.
  destruct (hashable (Py.get_or flat "si_01" (AStr "1–10"))) eqn:Hh.
  - rewrite (total_map_get_ok _ Hh). simpl.
    repeat match goal with
      | |- context [if ?c then _ else _] => destruct c
      end; simpl; tauto.
  - rewrite (total_map_get_raise _ Hh). simpl.
    split; [ intros [] | discriminate ].
Qed.

Lemma calculate_ok_iff (flat : gmap string answer) :
  is_Ok (ScopeScorer.calculate flat) ↔ scorable flat = true.
Proof.
  unfold scorable. rewrite andb_true_iff.
  rewrite <- cui_in_scope_ok_iff, <- estimate_ok_iff.
  unfold ScopeScorer.calculate, ScopeScorer._enclave_recommended.
  destruct (ScopeScorer._cui_in_scope flat) as [cui | e]; simpl; [ | tauto ].
  destruct (ScopeScorer._estimate_systems_in_scope flat) as [n | e]; simpl; tauto.
Qed.

Lemma in_catalog (q : Question) (l : list Question) :
  bool_decide (q ∈ l) = true → q ∈ l.
Proof. apply bool_decide_eq_true_1. Qed.

Lemma well_typed_scorable (flat : gmap string answer) :
  well_typed flat → scorable flat = true.
Proof.
  intros Hwt. unfold scorable, Py.get, Py.get_or.
  apply andb_true_iff. split.
  - destruct (flat !! "si_01") as [a | ] eqn:Hsi; [ | done ].
    assert (Hq : mkQuestion "si_01" CHOICE
                   ["1–10"; "11–50"; "51–200"; "201–500"; "500+"]
                   ["CM.2.062"] None false false ∈ ALL_QUESTIONS)
      by (apply in_catalog; vm_compute; reflexivity).
    specialize (Hwt _ a Hq Hsi). by destruct a.
  - destruct (flat !! "df_03") as [a | ] eqn:Hdf; [ | done ].
    assert (Hq : mkQuestion "df_03" MULTI_CHOICE CUI_CATEGORIES
                   ["MP.2.119"] (Some ("df_01", ABool true)) false false ∈ ALL_QUESTIONS)
      by (apply in_catalog; vm_compute; reflexivity).
    specialize (Hwt _ a Hq Hdf). destruct a; try done.
    simpl. apply orb_true_r.
Qed.

Lemma is_Ok_exists {A} (r : result A) : is_Ok r ↔ ∃ a, r = Ok a.
Proof.
  destruct r as [a | e]; simpl.
  - split; [ by exists a | done ].
  - split; [ done | by intros [a Ha] ].
Qed.

(** ** C7: gaps are monotone in the answers *)

(** C7.  Adding to a response store an answer for a question id that has
    no entry yet never removes a gap record: the gaps of the old store
    are a sub-list of the gaps of the extended store, in the same order,
    whatever the new answer is (whether or not it triggers a rule). *)
Theorem gaps_monotone (flat : gmap string answer) (k : string) (v : answer) :
  flat !! k = None →
  ScopeScorer._identify_gaps flat `sublist_of` ScopeScorer._identify_gaps (<[k:=v]> flat)
  ∧ ∀ g, g ∈ ScopeScorer._identify_gaps flat → g ∈ ScopeScorer._identify_gaps (<[k:=v]> flat).
Proof.
  intros Hfresh.
  assert (Hsub : ScopeScorer._identify_gaps flat
                   `sublist_of` ScopeScorer._identify_gaps (<[k:=v]> flat)).
  { rewrite !identify_gaps_rules.
    apply rules_monotone; auto using gap_rules_read_only, gap_rules_silent. }
  split; [ exact Hsub | ].
  intros g Hg. by eapply elem_of_sublist.
Qed.

Lemma gaps_monotone_witness :
  ScopeScorer._identify_gaps mfa_partial_store
    `sublist_of` ScopeScorer._identify_gaps (<["bd_07" := ABool false]> mfa_partial_store)
  ∧ ∀ g, g ∈ ScopeScorer._identify_gaps mfa_partial_store →
         g ∈ ScopeScorer._identify_gaps (<["bd_07" := ABool false]> mfa_partial_store).
Proof. apply (gaps_monotone mfa_partial_store "bd_07" (ABool false)). reflexivity. Defined.

Example gaps_monotone_example :
  map title (ScopeScorer._identify_gaps mfa_partial_store)
  = ["Multi-Factor Authentication Not Fully Implemented"]
  ∧ map title (ScopeScorer._identify_gaps (<["bd_07" := ABool false]> mfa_partial_store))
    = ["Multi-Factor Authentication Not Fully Implemented"; "No System Security Plan (SSP)"].
Proof. split; reflexivity. Qed.

(** ** C3: totality of the rule engine *)

(** C3, as stated, fails: an answer of the wrong type can make the scorer
    raise.  A list for [si_01] is unhashable in the bucket lookup, and a
    truthy boolean for [df_03] is not iterable in the membership test.  Nor
    is a malformed answer always the non-trigger case: [None] recorded for
    [df_06] prints as "None", which contains "No", and triggers the
    encryption-at-rest rule. *)
Lemma calculate_raises_on_malformed :
  ScopeScorer.calculate si_01_list_store = Raise TypeError
  ∧ ScopeScorer.calculate df_03_true_store = Raise TypeError
  ∧ map title (ScopeScorer._identify_gaps {[ "df_06" := ANone ]})
    = ["CUI Not Encrypted at Rest"]
  ∧ ¬ (∀ flat, is_Ok (ScopeScorer.calculate flat)).
Proof.
  split; [ reflexivity | ]. split; [ reflexivity | ]. split; [ reflexivity | ].
  intros H. exact (H si_01_list_store).
Qed.

Lemma scorable_delete (flat : gmap string answer) (k : string) :
  scorable flat = true → scorable (delete k flat) = true.
Proof.
  assert (Hget : ∀ key, Py.get (delete k flat) key = Py.get flat key
                        ∨ Py.get (delete k flat) key = ANone).
  { intros key. unfold Py.get, Py.get_or. destruct (decide (k = key)) as [<- | Hne].
    - right. by rewrite lookup_delete_eq.
    - left. by rewrite lookup_delete_ne. }
  unfold scorable.
  intros H. apply andb_true_iff in H as [Hsi Hdf].
  destruct (Hget "si_01") as [-> | ->], (Hget "df_03") as [-> | ->];
    rewrite ?Hsi, ?Hdf; done.
Qed.

(** C3, amended.  The rule engine returns a complete derived result on
    every store whose answers have the type of their question, as the
    stores collected by the question engine are.  A missing answer never
    raises: taking an answer out of a store that is scored leaves a store
    that is scored.  It is the non-trigger case: a gap is only ever
    produced by a rule all of whose answers are present.  On the empty
    store all flags are false, the classification is the "not required"
    sentinel and there is no gap. *)
Theorem calculate_total_on_typed_store :
  (∀ flat, well_typed flat → ∃ d, ScopeScorer.calculate flat = Ok d)
  ∧ (∀ flat k, (∃ d, ScopeScorer.calculate flat = Ok d) →
               ∃ d, ScopeScorer.calculate (delete k flat) = Ok d)
  ∧ (∀ flat g, g ∈ ScopeScorer._identify_gaps flat →
       ∃ r, r ∈ gap_rules ∧ g ∈ r.2 flat ∧ ∀ k, k ∈ r.1 → is_Some (flat !! k))
  ∧ ScopeScorer.calculate ∅ = Ok empty_result.
Proof.
  split; [ | split; [ | split ] ].
  - intros flat Hwt. apply is_Ok_exists, calculate_ok_iff.
    by apply well_typed_scorable.
  - intros flat k Hok. apply is_Ok_exists, calculate_ok_iff, scorable_delete.
    by apply calculate_ok_iff, is_Ok_exists.
  - apply gap_from_answered_rule.
  - reflexivity.
Qed.

Lemma typed_store_well_typed : well_typed typed_store.
Proof.
  intros q a Hq Hlook.
  apply list_elem_of_In in Hq.
  unfold typed_store in Hlook.
  vm_compute in Hq.
  repeat (destruct Hq as [<- | Hq]; [ vm_compute in Hlook; by simplify_eq | ]).
  destruct Hq.
Qed.

Lemma calculate_total_on_typed_store_witness :
  ∃ d, ScopeScorer.calculate typed_store = Ok d.
Proof.
  apply (proj1 calculate_total_on_typed_store typed_store).
  apply typed_store_well_typed.
Defined.

(** ** C1: the primary classification flag *)

(** What [_cui_in_scope] computes on a store whose category answer is a
    list (or is missing): the root answer, and the contractual trigger or a
    non-empty category list without the literal element "I am not sure". *)
Lemma cui_in_scope_on_list (flat : gmap string answer) (cats : list string) :
  Py.get_or flat "df_03" (AList []) = AList cats →
  ScopeScorer._cui_in_scope flat
  = Ok (Py.is_True (Py.get flat "df_01")
        && (Py.is_True (Py.get flat "df_02")
            || (bool_decide (cats ≠ []) && bool_decide ("I am not sure" ∉ cats)))).
Proof.
  intros Hcats. unfold ScopeScorer._cui_in_scope. rewrite Hcats.
  destruct cats as [ | c cats ]; simpl.
  - reflexivity.
  - by rewrite bool_decide_not.
Qed.

(** No choice of [df_03] is the literal the scorer looks for, so on
    answers drawn from the choice list the test never fires. *)
Lemma unsure_literal_not_a_choice (cats : list string) :
  cats ⊆ CUI_CATEGORIES → "I am not sure" ∉ cats.
Proof.
  intros Hsub Hin. specialize (Hsub _ Hin).
  apply (bool_decide_eq_false_1 ("I am not sure" ∈ CUI_CATEGORIES));
    [ vm_compute; reflexivity | exact Hsub ].
Qed.

(** C1.  The code at the input of scenario C: government information is
    handled, there is no contractual trigger, and the only category chosen
    is the unsure choice, the last entry of [CUI_CATEGORIES].  The scorer
    reports the primary flag true and the highest level, where the claim
    requires the flag false and the baseline level. *)
Theorem unsure_only_scored_as_cui :
  last CUI_CATEGORIES = Some UNSURE_CHOICE
  ∧ ScopeScorer._cui_in_scope unsure_only_store = Ok true
  ∧ cui_in_scope <$> ScopeScorer.calculate unsure_only_store = Ok true
  ∧ cmmc_level_required <$> ScopeScorer.calculate unsure_only_store = Ok "Level 2".
Proof. repeat split. Qed.

(** The store of scenario C is one the engine produces: the answers of a
    run of the data-flow module on [unsure_only_console] hold it, and the
    scorer, given the saved modules, reports "Level 2". *)
Example unsure_only_reachable :
  ∃ st, QuestionEngine.run DATA_FLOW_QUESTIONS unsure_only_console = Ok st
        ∧ unsure_only_store ⊆ QuestionEngine.answers st
        ∧ cmmc_level_required
            <$> ScopeScorer.calculate
                  (ScopeScorer.flat
                     (ScopeScorer.init [("data_flow", MDict (QuestionEngine.answers st))]))
          = Ok "Level 2".
Proof.
  eexists. split; [ vm_compute; reflexivity | ].
  split; [ | vm_compute; reflexivity ].
  apply map_subseteq_spec. intros k a Hk.
  unfold unsure_only_store in Hk.
  destruct (decide (k = "df_01")) as [-> | ?]; [ by vm_compute in Hk |- * | ].
  destruct (decide (k = "df_02")) as [-> | ?]; [ by vm_compute in Hk |- * | ].
  destruct (decide (k = "df_03")) as [-> | ?]; [ by vm_compute in Hk |- * | ].
  by rewrite !lookup_insert_ne, lookup_singleton_ne in Hk.
Qed.

(** ** C4: the classification level *)

(** C4.  In every derived result the level follows the two flags by strict
    priority: "Level 2" when the primary flag is true, whatever the
    baseline flag; else "Level 1" when the baseline flag is true; else the
    "not required" sentinel.  The flags of the result are the ones the
    scorer computes from the store.  With [df_01] and [df_02] true and
    nothing else answered the result has both flags true and "Level 2". *)
Theorem cmmc_level_priority (flat : gmap string answer) (d : Derived) :
  ScopeScorer.calculate flat = Ok d →
  (cmmc_level_required d =
     if cui_in_scope d then "Level 2"
     else if fci_in_scope d then "Level 1"
     else "Not Required (verify contract requirements)")
  ∧ ScopeScorer._cui_in_scope flat = Ok (cui_in_scope d)
  ∧ ScopeScorer._fci_in_scope flat = fci_in_scope d
  ∧ (∀ fci, ScopeScorer._cmmc_level true fci = "Level 2")
  ∧ (∃ d', ScopeScorer.calculate dfars_store = Ok d'
           ∧ cui_in_scope d' = true ∧ fci_in_scope d' = true
           ∧ cmmc_level_required d' = "Level 2").
Proof.
  unfold ScopeScorer.calculate, ScopeScorer._enclave_recommended.
  destruct (ScopeScorer._cui_in_scope flat) as [cui | e] eqn:Hcui; simpl; [ | done ].
  destruct (ScopeScorer._estimate_systems_in_scope flat) as [n | e]; simpl; [ | done ].
  intros [= <-]. simpl.
  split; [ done | ]. split; [ done | ]. split; [ done | ]. split; [ done | ].
  eexists. split; [ reflexivity | ]. repeat split.
Qed.

Lemma cmmc_level_priority_witness :
  cmmc_level_required empty_result = "Not Required (verify contract requirements)".
Proof.
  exact (proj1 (cmmc_level_priority ∅ empty_result eq_refl)).
Defined.

(** ** C6: the estimate of the systems in scope *)

Lemma bucket_ceiling_values (a : answer) :
  bucket_ceiling a ∈ [10; 50; 200; 500; 999].
Proof.
  destruct a; simpl; try set_solver.
  repeat match goal with
    | |- context [if ?c then _ else _] => destruct c
    end; set_solver.
Qed.

Lemma bucket_quotients_positive (total : Z) :
  total ∈ [10; 50; 200; 500; 999] →
  Z.max 1 (total / 5) = total / 5 ∧ Z.max 1 (total / 2) = total / 2.
Proof.
  intros H.
  repeat (apply elem_of_cons in H as [-> | H]); [ by vm_compute .. | ].
  by apply elem_of_nil in H.
Qed.

(** C6.  On a store whose [si_01] answer is not a list (a choice answer is
    a string), the estimate is the one of the specification: the bucket
    value of [si_01] (one of 10, 50, 200, 500, 999; 10 when unanswered),
    returned whole when [bd_01] is true whatever [bd_02] says, else divided
    by 5 (integer division) when the [bd_02] answer mentions a physical or
    logical separation, by 2 when it mentions a partial one, and whole
    otherwise; the reduced values are marked as estimates.  The division
    never needs the floor of 1 the code applies.  For the bucket "51–200",
    [bd_01] false and the physically-separate choice the estimate is 40. *)
Theorem estimate_follows_separation (flat : gmap string answer) :
  hashable (Py.get flat "si_01") = true →
  ScopeScorer._estimate_systems_in_scope flat = Ok (estimate_spec flat)
  ∧ bucket_ceiling (Py.get_or flat "si_01" (AStr "1–10")) ∈ [10; 50; 200; 500; 999]
  ∧ (Py.is_True (Py.get flat "bd_01") = true →
     ScopeScorer._estimate_systems_in_scope flat
     = Ok (Str.of_Z (bucket_ceiling (Py.get_or flat "si_01" (AStr "1–10")))))
  ∧ ScopeScorer._estimate_systems_in_scope scenario_E_store
    = Ok ("~" +:+ Str.of_Z (200 / 5) +:+ " (estimated enclave systems only)")
  ∧ "~" +:+ Str.of_Z (200 / 5) +:+ " (estimated enclave systems only)"
    = "~40 (estimated enclave systems only)".
Proof.
  intros Hhash.
  assert (Heq : ScopeScorer._estimate_systems_in_scope flat = Ok (estimate_spec flat)).
  { unfold ScopeScorer._estimate_systems_in_scope, estimate_spec.
    rewrite <- hashable_si_01 in Hhash.
    rewrite (total_map_get_ok _ Hhash). simpl.
    destruct (bucket_quotients_positive _
                (bucket_ceiling_values (Py.get_or flat "si_01" (AStr "1–10"))))
      as [-> ->].
    repeat match goal with
      | |- context [if ?c then _ else _] => destruct c
      end; reflexivity. }
  split; [ exact Heq | ].
  split; [ apply bucket_ceiling_values | ].
  split; [ | split; reflexivity ].
  intros Hwhole. rewrite Heq. unfold estimate_spec. by rewrite Hwhole.
Qed.

Lemma estimate_follows_separation_witness :
  ScopeScorer._estimate_systems_in_scope scenario_E_store = Ok (estimate_spec scenario_E_store).
Proof.
  exact (proj1 (estimate_follows_separation scenario_E_store eq_refl)).
Defined.

(** The estimates for every bucket of [si_01] (columns) and every choice
    of [bd_02] (rows) when [bd_01] is false, and when it is true. *)
Example estimate_table :
  map (λ sep, map (λ bucket,
         ScopeScorer._estimate_systems_in_scope (estimate_store bucket false sep))
         (choices_of "si_01"))
      (choices_of "bd_02")
  = [ map Ok ["~2 (estimated enclave systems only)"; "~10 (estimated enclave systems only)";
              "~40 (estimated enclave systems only)"; "~100 (estimated enclave systems only)";
              "~199 (estimated enclave systems only)"];
      map Ok ["~2 (estimated enclave systems only)"; "~10 (estimated enclave systems only)";
              "~40 (estimated enclave systems only)"; "~100 (estimated enclave systems only)";
              "~199 (estimated enclave systems only)"];
      map Ok ["~5 (estimated)"; "~25 (estimated)"; "~100 (estimated)"; "~250 (estimated)";
              "~499 (estimated)"];
      map Ok ["10"; "50"; "200"; "500"; "999"];
      map Ok ["10"; "50"; "200"; "500"; "999"] ]
  ∧ map (λ sep, map (λ bucket,
         ScopeScorer._estimate_systems_in_scope (estimate_store bucket true sep))
         (choices_of "si_01"))
      (choices_of "bd_02")
    = replicate 5 (map Ok ["10"; "50"; "200"; "500"; "999"]).
Proof. split; vm_compute; reflexivity. Qed.

(** ** C9: the aggregated control identifiers *)

Lemma add_tokens_elem_of (t : string) (cs : list string) (acc : gset string) :
  t ∈ foldl (λ controls c, controls ∪ {[ Str.strip c ]}) acc cs
  ↔ t ∈ acc ∨ t ∈ map Str.strip cs.
Proof.
  revert acc. induction cs as [ | c cs IH ]; intros acc; simpl.
  - rewrite elem_of_nil. tauto.
  - rewrite IH, elem_of_union, elem_of_singleton, elem_of_cons. tauto.
Qed.

Lemma control_set_fold_elem_of (t : string) (gaps : list Gap) (acc : gset string) :
  t ∈ foldl (λ controls g,
               foldl (λ controls c, controls ∪ {[ Str.strip c ]})
                     controls (Str.split "/" (nist_control g)))
            acc gaps
  ↔ t ∈ acc ∨ ∃ g, g ∈ gaps ∧ t ∈ control_tokens g.
Proof.
  revert acc. induction gaps as [ | g gaps IH ]; intros acc; simpl.
  - split; [ tauto | ]. intros [ H | (g & Hg & _) ]; [ done | ].
    by apply elem_of_nil in Hg.
  - rewrite IH, add_tokens_elem_of. fold (control_tokens g). split.
    + intros [ [ H | H ] | (g' & Hg' & H) ]; [ tauto | | ].
      * right. exists g. split; [ left | done ].
      * right. exists g'. split; [ by right | done ].
    + intros [ H | (g' & Hg' & H) ]; [ tauto | ].
      apply elem_of_cons in Hg' as [-> | Hg']; [ tauto | ].
      right. by exists g'.
Qed.

Lemma control_set_elem_of (t : string) (gaps : list Gap) :
  t ∈ ScopeScorer.control_set gaps ↔ ∃ g, g ∈ gaps ∧ t ∈ control_tokens g.
Proof.
  unfold ScopeScorer.control_set. rewrite control_set_fold_elem_of.
  rewrite elem_of_empty. tauto.
Qed.

Lemma sorted_Permutation (xs : list string) : ScopeScorer.sorted xs ≡ₚ xs.
Proof. apply merge_sort_Permutation. Qed.

Lemma sorted_StronglySorted (xs : list string) :
  StronglySorted String.le (ScopeScorer.sorted xs).
Proof. apply StronglySorted_merge_sort; apply _. Qed.

Lemma StronglySorted_strict (xs : list string) :
  StronglySorted String.le xs → NoDup xs → StronglySorted (strict String.le) xs.
Proof.
  induction 1 as [ | x xs Hsorted IH Hx ]; intros Hnodup; [ constructor | ].
  apply NoDup_cons in Hnodup as [Hnotin Hnodup].
  constructor; [ by apply IH | ].
  rewrite Forall_forall in Hx |- *. intros y Hy.
  split; [ by apply Hx | ].
  intros Hyx. apply Hnotin.
  by rewrite (anti_symm String.le x y (Hx y Hy) Hyx).
Qed.

(** C9.  The aggregated identifiers of a gap list are strictly increasing
    in the lexicographic order (so sorted, each once), and are exactly the
    trimmed pieces of the gaps' identifier strings split at "/". *)
Theorem nist_control_gaps_sorted_tokens (gaps : list Gap) :
  StronglySorted (strict String.le) (ScopeScorer._nist_control_gaps gaps)
  ∧ NoDup (ScopeScorer._nist_control_gaps gaps)
  ∧ ∀ t, t ∈ ScopeScorer._nist_control_gaps gaps
         ↔ ∃ g, g ∈ gaps ∧ t ∈ map Str.strip (Str.split "/" (nist_control g)).
Proof.
  unfold ScopeScorer._nist_control_gaps.
  assert (Hnodup : NoDup (ScopeScorer.sorted (elements (ScopeScorer.control_set gaps)))).
  { rewrite sorted_Permutation. apply NoDup_elements. }
  split; [ | split ].
  - apply StronglySorted_strict; [ apply sorted_StronglySorted | exact Hnodup ].
  - exact Hnodup.
  - intros t. rewrite sorted_Permutation, elem_of_elements.
    apply control_set_elem_of.
Qed.

Example nist_control_gaps_example :
  ScopeScorer._nist_control_gaps
    (ScopeScorer._identify_gaps
       {[ "ac_05" := AStr "Yes — VPN but no MFA";
          "ac_02" := AStr "Partially implemented";
          "si_04" := ABool true;
          "bd_06" := ABool true;
          "bd_06a" := AList ["DNS servers"; "Email server"] ]})
  = ["AC.1.001"; "IA.3.083"; "MP.2.119"; "SC.3.180"].
Proof. vm_compute. reflexivity. Qed.

(** ** C8: the scoring pass is deterministic and leaves the store alone *)

(** *** Every method reads the object and hands it on unchanged *)

Ltac run_method :=
  cbv [mbind mret fmap
       ScoringPass.method_bind ScoringPass.method_ret ScoringPass.lift
       ScoringPass.flat_get ScoringPass.flat_get_or
       result_bind result_ret result_fmap].

Lemma cui_in_scope_run (self : ScopeScorer.t) :
  ScoringPass._cui_in_scope self
  = (ScopeScorer._cui_in_scope (ScopeScorer.flat self), self).
Proof.
  unfold ScoringPass._cui_in_scope, ScopeScorer._cui_in_scope, Py.get. run_method.
  by destruct (if Py.truthy _ then _ else _).
Qed.

Lemma fci_in_scope_run (self : ScopeScorer.t) :
  ScoringPass._fci_in_scope self
  = (Ok (ScopeScorer._fci_in_scope (ScopeScorer.flat self)), self).
Proof.
  unfold ScoringPass._fci_in_scope, ScopeScorer._fci_in_scope, Py.get. run_method.
  by destruct (Py.is_True _).
Qed.

Lemma enclave_recommended_run (self : ScopeScorer.t) :
  ScoringPass._enclave_recommended self
  = (ScopeScorer._enclave_recommended (ScopeScorer.flat self), self).
Proof.
  unfold ScoringPass._enclave_recommended, ScopeScorer._enclave_recommended, Py.get.
  unfold mbind at 1, ScoringPass.method_bind at 1. rewrite cui_in_scope_run.
  run_method.
  destruct (ScopeScorer._cui_in_scope _) as [cui | e]; [ | done ].
  by destruct (Py.is_False (Py.get_or _ "bd_03" _)).
Qed.

Lemma estimate_systems_in_scope_run (self : ScopeScorer.t) :
  ScoringPass._estimate_systems_in_scope self
  = (ScopeScorer._estimate_systems_in_scope (ScopeScorer.flat self), self).
Proof.
  unfold ScoringPass._estimate_systems_in_scope, ScopeScorer._estimate_systems_in_scope, Py.get.
  run_method.
  destruct (ScopeScorer.total_map_get _) as [total | e]; [ | done ].
  repeat match goal with
    | |- context [if ?c then _ else _] => destruct c
    end; reflexivity.
Qed.

Lemma scope_reduction_possible_run (self : ScopeScorer.t) :
  ScoringPass._scope_reduction_possible self
  = (Ok (ScopeScorer._scope_reduction_possible (ScopeScorer.flat self)), self).
Proof.
  unfold ScoringPass._scope_reduction_possible, ScopeScorer._scope_reduction_possible, Py.get.
  run_method.
  destruct (Py.is_False _); [ | done ]. by destruct (Py.is_True _).
Qed.

(** A block of [_identify_gaps] appends to the list what its rule gives. *)
Ltac check_run rule block :=
  intros; unfold block, rule, ScoringPass.gap, ScopeScorer.gap, Py.get; run_method;
  repeat match goal with
    | |- context [if ?c then _ else _] => destruct c
    end;
  rewrite ?app_nil_r; reflexivity.

Lemma check_mfa_run gaps self :
  ScoringPass.check_mfa gaps self
  = (Ok (gaps ++ ScopeScorer.gap_mfa (ScopeScorer.flat self)), self).
Proof. check_run ScopeScorer.gap_mfa ScoringPass.check_mfa. Qed.

Lemma check_remote_run gaps self :
  ScoringPass.check_remote gaps self
  = (Ok (gaps ++ ScopeScorer.gap_remote (ScopeScorer.flat self)), self).
Proof. check_run ScopeScorer.gap_remote ScoringPass.check_remote. Qed.

Lemma check_enc_rest_run gaps self :
  ScoringPass.check_enc_rest gaps self
  = (Ok (gaps ++ ScopeScorer.gap_enc_rest (ScopeScorer.flat self)), self).
Proof. check_run ScopeScorer.gap_enc_rest ScoringPass.check_enc_rest. Qed.

Lemma check_enc_transit_run gaps self :
  ScoringPass.check_enc_transit gaps self
  = (Ok (gaps ++ ScopeScorer.gap_enc_transit (ScopeScorer.flat self)), self).
Proof. check_run ScopeScorer.gap_enc_transit ScoringPass.check_enc_transit. Qed.

Lemma check_network_run gaps self :
  ScoringPass.check_network gaps self
  = (Ok (gaps ++ ScopeScorer.gap_network (ScopeScorer.flat self)), self).
Proof. check_run ScopeScorer.gap_network ScoringPass.check_network. Qed.

Lemma check_shared_run gaps self :
  ScoringPass.check_shared gaps self
  = (Ok (gaps ++ ScopeScorer.gap_shared (ScopeScorer.flat self)), self).
Proof. check_run ScopeScorer.gap_shared ScoringPass.check_shared. Qed.

Lemma check_ssp_run gaps self :
  ScoringPass.check_ssp gaps self
  = (Ok (gaps ++ ScopeScorer.gap_ssp (ScopeScorer.flat self)), self).
Proof. check_run ScopeScorer.gap_ssp ScoringPass.check_ssp. Qed.

Lemma check_sprs_run gaps self :
  ScoringPass.check_sprs gaps self
  = (Ok (gaps ++ ScopeScorer.gap_sprs (ScopeScorer.flat self)), self).
Proof. check_run ScopeScorer.gap_sprs ScoringPass.check_sprs. Qed.

Lemma check_logging_run gaps self :
  ScoringPass.check_logging gaps self
  = (Ok (gaps ++ ScopeScorer.gap_logging (ScopeScorer.flat self)), self).
Proof. check_run ScopeScorer.gap_logging ScoringPass.check_logging. Qed.

Lemma check_privileged_run gaps self :
  ScoringPass.check_privileged gaps self
  = (Ok (gaps ++ ScopeScorer.gap_privileged (ScopeScorer.flat self)), self).
Proof. check_run ScopeScorer.gap_privileged ScoringPass.check_privileged. Qed.

Lemma check_usb_run gaps self :
  ScoringPass.check_usb gaps self
  = (Ok (gaps ++ ScopeScorer.gap_usb (ScopeScorer.flat self)), self).
Proof. check_run ScopeScorer.gap_usb ScoringPass.check_usb. Qed.

Lemma check_byod_run gaps self :
  ScoringPass.check_byod gaps self
  = (Ok (gaps ++ ScopeScorer.gap_byod (ScopeScorer.flat self)), self).
Proof. check_run ScopeScorer.gap_byod ScoringPass.check_byod. Qed.

Lemma check_training_run gaps self :
  ScoringPass.check_training gaps self
  = (Ok (gaps ++ ScopeScorer.gap_training (ScopeScorer.flat self)), self).
Proof. check_run ScopeScorer.gap_training ScoringPass.check_training. Qed.

Lemma check_subcontractors_run gaps self :
  ScoringPass.check_subcontractors gaps self
  = (Ok (gaps ++ ScopeScorer.gap_subcontractors (ScopeScorer.flat self)), self).
Proof. check_run ScopeScorer.gap_subcontractors ScoringPass.check_subcontractors. Qed.

Lemma identify_gaps_run (self : ScopeScorer.t) :
  ScoringPass._identify_gaps self
  = (Ok (ScopeScorer._identify_gaps (ScopeScorer.flat self)), self).
Proof.
  unfold ScoringPass._identify_gaps, ScopeScorer._identify_gaps.
  unfold mbind, ScoringPass.method_bind.
  rewrite check_mfa_run, check_remote_run, check_enc_rest_run, check_enc_transit_run,
    check_network_run, check_shared_run, check_ssp_run, check_sprs_run,
    check_logging_run, check_privileged_run, check_usb_run, check_byod_run,
    check_training_run, check_subcontractors_run.
  unfold mret, ScoringPass.method_ret. by rewrite <- !app_assoc.
Qed.

Lemma update_all_run (values : list module_data) (self : ScopeScorer.t) :
  ScoringPass.update_all values self
  = (Ok tt,
     {| ScopeScorer.r := ScopeScorer.r self;
        ScopeScorer.flat :=
          fold_left (λ flat module_data,
                       match module_data with
                       | MDict d => d ∪ flat
                       | MOther => flat
                       end) values (ScopeScorer.flat self) |}).
Proof.
  revert self. induction values as [ | module_data values IH ]; intros self; simpl.
  - by destruct self.
  - unfold mbind, ScoringPass.method_bind.
    destruct module_data as [d | ]; simpl; by rewrite IH.
Qed.

Lemma init_run (responses : list (string * module_data)) :
  ScoringPass.__init__ responses = ScopeScorer.init responses.
Proof.
  unfold ScoringPass.__init__, ScopeScorer.init, ScopeScorer.flatten.
  rewrite update_all_run. simpl. f_equal.
  generalize (∅ : gmap string answer).
  induction responses as [ | [name data] responses IH ]; intros flat; simpl; [ done | ].
  by rewrite IH.
Qed.

(** The sorted listing of a set does not depend on the order in which the
    set hands out its elements. *)
Lemma nist_control_gaps_any_order (order : gset string → list string) (gaps : list Gap) :
  lists_elements order →
  ScoringPass._nist_control_gaps order gaps = ScopeScorer._nist_control_gaps gaps.
Proof.
  intros Horder. unfold ScoringPass._nist_control_gaps, ScopeScorer._nist_control_gaps.
  apply (StronglySorted_unique String.le); try apply sorted_StronglySorted.
  by rewrite !sorted_Permutation.
Qed.

(** The pass computes the scorer's function of [self.flat] and hands the
    object on as it found it. *)
Lemma calculate_run (order : gset string → list string) (self : ScopeScorer.t) :
  lists_elements order →
  ScoringPass.calculate order self
  = (ScopeScorer.calculate (ScopeScorer.flat self), self).
Proof.
  intros Horder. unfold ScoringPass.calculate, ScopeScorer.calculate.
  unfold mbind at 1 2 3 4 5 6, ScoringPass.method_bind.
  rewrite cui_in_scope_run.
  destruct (ScopeScorer._cui_in_scope (ScopeScorer.flat self)) as [cui | e] eqn:Hcui;
    [ | done ].
  rewrite fci_in_scope_run, identify_gaps_run, enclave_recommended_run.
  unfold ScopeScorer._enclave_recommended at 2. rewrite Hcui. simpl.
  destruct (ScopeScorer._enclave_recommended _) as [rec | e] eqn:Hrec.
  2:{ unfold ScopeScorer._enclave_recommended in Hrec. by rewrite Hcui in Hrec. }
  unfold ScopeScorer._enclave_recommended in Hrec. rewrite Hcui in Hrec.
  simpl in Hrec. injection Hrec as <-.
  rewrite estimate_systems_in_scope_run.
  destruct (ScopeScorer._estimate_systems_in_scope _) as [sys | e]; [ | done ].
  rewrite scope_reduction_possible_run. simpl.
  by rewrite nist_control_gaps_any_order.
Qed.

(** C8.  Two runs of the scoring pass give the same outcome, the same
    derived result with every flag, the classification, the gap records in
    their order and the control identifiers, or the same exception, and
    each leaves the scorer object with its response store as it found it;
    this holds between two runs on one scorer and between two passes that
    each build their scorer from the responses, and also when the two runs
    iterate over the set of control identifiers in different orders, as
    two processes with different hash seeds do. *)
Theorem calculate_deterministic (order1 order2 : gset string → list string) :
  lists_elements order1 →
  lists_elements order2 →
  (∀ self : ScopeScorer.t,
     let '(first, self1) := ScoringPass.calculate order1 self in
     let '(second, self2) := ScoringPass.calculate order2 self1 in
     first = second ∧ self1 = self ∧ self2 = self)
  ∧ (∀ responses : list (string * module_data),
       let '(first, self1) := ScoringPass.calculate order1 (ScoringPass.__init__ responses) in
       let '(second, self2) :=
         ScoringPass.calculate order2 (ScoringPass.__init__ (ScopeScorer.r self1)) in
       first = second
       ∧ ScopeScorer.r self1 = responses ∧ ScopeScorer.r self2 = responses).
Proof.
  intros Horder1 Horder2. split.
  - intros self. rewrite (calculate_run order1 self Horder1).
    by rewrite (calculate_run order2 self Horder2).
  - intros responses. rewrite (calculate_run order1 _ Horder1), init_run. simpl.
    by rewrite init_run, (calculate_run order2 _ Horder2).
Qed.

Lemma calculate_deterministic_witness :
  let '(first, self1) := ScoringPass.calculate elements two_gaps_scorer in
  let '(second, self2) := ScoringPass.calculate (λ s, reverse (elements s)) self1 in
  first = second ∧ self1 = two_gaps_scorer ∧ self2 = two_gaps_scorer.
Proof.
  refine (proj1 (calculate_deterministic elements (λ s, reverse (elements s)) _ _)
            two_gaps_scorer).
  - intros s. reflexivity.
  - intros s. apply reverse_Permutation.
Defined.

(** What the statement rules out can be said of the object: [update]
    changes it, and the listing of the three controls of the two gaps
    depends on the order of the set as long as it is not sorted. *)
Example pass_could_differ :
  (ScoringPass.flat_update {[ "df_01" := ABool true ]} two_gaps_scorer).2 ≠ two_gaps_scorer
  ∧ reverse (elements (ScopeScorer.control_set two_gaps))
    ≠ elements (ScopeScorer.control_set two_gaps)
  ∧ (ScoringPass.calculate elements two_gaps_scorer).1
    = Ok (match ScopeScorer.calculate (ScopeScorer.flat two_gaps_scorer) with
          | Ok d => d
          | Raise _ => empty_result
          end)
  ∧ length (ScopeScorer._nist_control_gaps two_gaps) = 3%nat.
Proof.
  split; [ | split; [ | split ] ].
  - vm_compute. discriminate.
  - vm_compute. discriminate.
  - vm_compute. reflexivity.
  - vm_compute. reflexivity.
Qed.

(** ** The dependency resolver *)

Lemma step_skipped (q : Question) (st : QuestionEngine.state) :
  presented_in q st = false → QuestionEngine.step q st = Ok st.
Proof.
  unfold presented_in, QuestionEngine.step.
  destruct (depends_on q) as [dep | ]; [ | done ].
  by intros ->.
Qed.

Lemma step_presented (q : Question) (st st' : QuestionEngine.state) :
  presented_in q st = true →
  QuestionEngine.step q st = Ok st' →
  ∃ a rest,
    QuestionEngine._collect_answer q (QuestionEngine.console st) = Ok (a, rest)
    ∧ st' = {| QuestionEngine.answers := <[id q := a]> (QuestionEngine.answers st);
               QuestionEngine.shown := S (QuestionEngine.shown st);
               QuestionEngine.printed :=
                 QuestionEngine.printed st ++ [(S (QuestionEngine.shown st), id q)];
               QuestionEngine.console := rest |}.
Proof.
  unfold presented_in, QuestionEngine.step.
  intros Hpres.
  assert (Hguard : match depends_on q with
                   | Some dep =>
                       negb (QuestionEngine.dependency_met (QuestionEngine.answers st) dep)
                   | None => false
                   end = false).
  { destruct (depends_on q); [ by rewrite Hpres | done ]. }
  rewrite Hguard.
  destruct (QuestionEngine._collect_answer q (QuestionEngine.console st))
    as [ [a rest] | e ]; simpl; [ | done ].
  intros [= <-]. by exists a, rest.
Qed.

Lemma step_skipped_iff (q : Question) (st : QuestionEngine.state) :
  QuestionEngine.step q st = Ok st ↔ presented_in q st = false.
Proof.
  split; [ | apply step_skipped ].
  destruct (presented_in q st) eqn:Hpres; [ | done ].
  intros Hstep. destruct (step_presented q st st Hpres Hstep) as (a & rest & _ & Hst).
  apply (f_equal QuestionEngine.shown) in Hst. simpl in Hst. lia.
Qed.

Lemma dependency_met_bool (answers : gmap string answer) (d : string) (b : bool) :
  QuestionEngine.dependency_met answers (d, ABool b) = true
  ↔ answers !! d = Some (ABool b)
    ∨ ∃ s, answers !! d = Some (AStr s)
           ∧ bool_decide (Str.lower s ∈ TRUTHY_WORDS) = b.
Proof.
  unfold QuestionEngine.dependency_met, Py.get, Py.get_or.
  rewrite bool_decide_eq_true.
  destruct (answers !! d) as [ [ | b' | n | s | l ] | ]; simpl.
  all: split;
    [ intros H; try discriminate
    | intros [ H | (s' & H & Hs) ]; try discriminate ].
  - left. by simplify_eq.
  - by simplify_eq.
  - right. exists s. by simplify_eq.
  - by simplify_eq.
Qed.

Lemma dependency_met_present (answers : gmap string answer) (d : string) (e : answer) :
  e ≠ ANone →
  QuestionEngine.dependency_met answers (d, e) = true
  ↔ ∃ a, answers !! d = Some a ∧ answer_matches a e = true.
Proof.
  intros He. unfold QuestionEngine.dependency_met, answer_matches, Py.get, Py.get_or.
  destruct (answers !! d) as [a | ]; simpl.
  - split; [ intros H; by exists a | by intros (a' & [= <-] & H) ].
  - split; [ | by intros (a' & [=] & _) ].
    destruct e; try done; simpl; rewrite ?bool_decide_eq_true; done.
Qed.

Lemma dependency_met_none (answers : gmap string answer) (d : string) :
  QuestionEngine.dependency_met answers (d, ANone) = true
  ↔ answers !! d = None ∨ answers !! d = Some ANone.
Proof.
  unfold QuestionEngine.dependency_met, Py.get, Py.get_or.
  destruct (answers !! d) as [ [] | ]; simpl;
    rewrite ?bool_decide_eq_true; split; try tauto; try done;
    intros [ H | H ]; done.
Qed.

(** What a completed run of the loop adds to a state. *)
Lemma loop_progress (questions : list Question) (st st' : QuestionEngine.state) :
  QuestionEngine.loop questions st = Ok st' →
  ∃ ps : list (nat * string),
    QuestionEngine.printed st' = QuestionEngine.printed st ++ ps
    ∧ ps.*2 `sublist_of` (id <$> questions)
    ∧ ps.*1 = seq (S (QuestionEngine.shown st)) (length ps)
    ∧ QuestionEngine.shown st' = (QuestionEngine.shown st + length ps)%nat
    ∧ dom (QuestionEngine.answers st')
      = dom (QuestionEngine.answers st) ∪ list_to_set ps.*2.
Proof.
  revert st. induction questions as [ | q questions IH ]; intros st; simpl.
  - intros [= <-]. exists []. simpl.
    rewrite app_nil_r, Nat.add_0_r, union_empty_r_L. repeat split. constructor.
  - destruct (QuestionEngine.step q st) as [st1 | e] eqn:Hstep; simpl; [ | done ].
    intros Hloop. destruct (IH st1 Hloop) as (ps & Hp & Hsub & Hnum & Hshown & Hdom).
    destruct (presented_in q st) eqn:Hpres.
    + destruct (step_presented q st st1 Hpres Hstep) as (a & rest & _ & ->).
      simpl in *.
      exists ((S (QuestionEngine.shown st), id q) :: ps). csimpl.
      rewrite Hp, <- app_assoc. split; [ done | ].
      split; [ by apply sublist_skip | ].
      split; [ by rewrite Hnum | ].
      split; [ lia | ].
      apply set_eq. intros x.
      rewrite Hdom, dom_insert_L, !elem_of_union, !elem_of_list_to_set,
        elem_of_singleton.
      tauto.
    + rewrite (step_skipped q st Hpres) in Hstep. injection Hstep as <-.
      exists ps. repeat split; try done. by apply sublist_cons.
Qed.

Lemma run_progress (questions : list Question) (inputs : list string)
    (st : QuestionEngine.state) :
  QuestionEngine.run questions inputs = Ok st →
  (QuestionEngine.printed st).*2 `sublist_of` (id <$> questions)
  ∧ (QuestionEngine.printed st).*1 = seq 1 (QuestionEngine.shown st)
  ∧ dom (QuestionEngine.answers st) = list_to_set (QuestionEngine.printed st).*2.
Proof.
  intros Hrun. apply loop_progress in Hrun as (ps & Hp & Hsub & Hnum & Hshown & Hdom).
  simpl in *. rewrite Hp, Hshown, Hdom, Hnum.
  rewrite dom_empty_L, union_empty_l_L. done.
Qed.

(** The collector returns an answer of the kind of the question. *)
Lemma collect_answer_kind (q : Question) (inputs rest : list string) (a : answer) :
  QuestionEngine._collect_answer q inputs = Ok (a, rest) →
  answer_has_kind (qtype q) a = true.
Proof.
  unfold QuestionEngine._collect_answer.
  destruct (qtype q).
  - destruct (QuestionEngine._ask_yes_no inputs) as [ [b r] | ]; simpl; [ | done ].
    by intros [= <- <-].
  - destruct (QuestionEngine._ask_choice (choices q) inputs) as [ [c r] | ]; simpl; [ | done ].
    by intros [= <- <-].
  - destruct (QuestionEngine._ask_multi_choice (choices q) inputs) as [ [l r] | ];
      simpl; [ | done ].
    by intros [= <- <-].
  - destruct inputs as [ | line inputs ]; [ done | ].
    intros [= <- <-]. by case_match.
  - destruct (QuestionEngine._ask_number inputs) as [ [n r] | ]; simpl; [ | done ].
    by intros [= <- <-].
Qed.

(** ** C2: boolean dependencies and string answers *)

(** C2, as stated, fails: a string answer is boolean-normalizable.  The
    answer "yes" meets a dependency on [True], any other ordinary string,
    such as a choice label, meets a dependency on [False], and the
    dependent question is then presented. *)
Lemma string_answer_meets_boolean_dependency :
  QuestionEngine._to_bool (AStr "yes") = Some true
  ∧ QuestionEngine.dependency_met {[ "t" := AStr "yes" ]} ("t", ABool true) = true
  ∧ QuestionEngine.dependency_met
      {[ "ac_02" := AStr "Partially implemented" ]} ("ac_02", ABool false) = true
  ∧ QuestionEngine.printed <$> QuestionEngine.run text_then_dependent ["yes"; "n"]
    = Ok [(1%nat, "t"); (2%nat, "q")]
  ∧ ¬ (∀ (answers : gmap string answer) d s b,
         answers !! d = Some (AStr s) →
         QuestionEngine.dependency_met answers (d, ABool b) = false).
Proof.
  repeat split.
  intros H.
  specialize (H {[ "t" := AStr "yes" ]} "t" "yes" true eq_refl).
  vm_compute in H. discriminate.
Qed.

(** C2, amended.  When the expected value of a dependency is a boolean,
    the stored answer is compared under boolean normalization: a boolean
    answer stands for itself, and a string answer (free text or a choice)
    is normalized to true when its lowercase form is "y", "yes", "true" or
    "1" and to false otherwise.  The dependency is met exactly when the
    normalized answer is the expected boolean; a missing answer, [None], a
    number or a list is not normalizable and never meets it.  The dependent
    question is skipped exactly when the dependency is not met. *)
Theorem boolean_dependency_normalization
    (answers : gmap string answer) (d : string) (b : bool) :
  (QuestionEngine.dependency_met answers (d, ABool b) = true
   ↔ answers !! d = Some (ABool b)
     ∨ ∃ s, answers !! d = Some (AStr s)
            ∧ bool_decide (Str.lower s ∈ TRUTHY_WORDS) = b)
  ∧ (∀ s, QuestionEngine._to_bool (AStr s)
          = Some (bool_decide (Str.lower s ∈ TRUTHY_WORDS)))
  ∧ (∀ a, QuestionEngine._to_bool a = None
          ↔ a = ANone ∨ (∃ n, a = AInt n) ∨ (∃ l, a = AList l))
  ∧ (∀ q st, depends_on q = Some (d, ABool b) →
       QuestionEngine.answers st = answers →
       (QuestionEngine.step q st = Ok st
        ↔ QuestionEngine.dependency_met answers (d, ABool b) = false)).
Proof.
  split; [ apply dependency_met_bool | ].
  split; [ done | ].
  split.
  - intros a. destruct a; simpl; split; try done; eauto.
    all: intros [ H | [ [? H] | [? H] ] ]; discriminate.
  - intros q st Hdep <-. rewrite step_skipped_iff.
    unfold presented_in. by rewrite Hdep.
Qed.

Lemma boolean_dependency_normalization_witness :
  QuestionEngine.step
    (mkQuestion "q" YES_NO [] [] (Some ("t", ABool true)) false false)
    (QuestionEngine.init ["y"])
  = Ok (QuestionEngine.init ["y"])
  ↔ QuestionEngine.dependency_met ∅ ("t", ABool true) = false.
Proof.
  apply (proj2 (proj2 (proj2 (boolean_dependency_normalization ∅ "t" true)))
           (mkQuestion "q" YES_NO [] [] (Some ("t", ABool true)) false false)
           (QuestionEngine.init ["y"])); reflexivity.
Defined.

(** ** C5: skipped questions *)

(** C5, as stated, fails on a dependency whose expected value is [None]:
    the lookup of a question without an entry yields [None] as well, so the
    dependent question is presented although its dependency question has
    no entry. *)
Lemma presented_without_dependency_entry :
  QuestionEngine.answers (QuestionEngine.init ["y"]) !! "d" = None
  ∧ QuestionEngine.run none_expected_catalog ["y"]
    = Ok {| QuestionEngine.answers := {[ "q" := ABool true ]};
            QuestionEngine.shown := 1;
            QuestionEngine.printed := [(1%nat, "q")];
            QuestionEngine.console := [] |}
  ∧ ¬ (∀ q st d e,
         depends_on q = Some (d, e) →
         QuestionEngine.step q st ≠ Ok st →
         ∃ a, QuestionEngine.answers st !! d = Some a ∧ answer_matches a e = true).
Proof.
  split; [ reflexivity | ]. split; [ reflexivity | ].
  intros H.
  destruct (H (mkQuestion "q" YES_NO [] [] (Some ("d", ANone)) false false)
              (QuestionEngine.init ["y"]) "d" ANone eq_refl)
    as (a & Ha & _).
  - vm_compute. discriminate.
  - vm_compute in Ha. discriminate.
Qed.

(** C5, amended.  One turn of the resolver on a question [q]:
    - when the dependency of [q] is not met the turn changes nothing: no
      entry is written, the counter of displayed questions stays, nothing
      is printed and no input is read, so the next presented question gets
      the number [q] would have had;
    - when [q] is presented it is printed under the next number and its
      answer is written under its id;
    - a question without dependency is always presented; one with the
      dependency (d, expected) is presented exactly when the stored answer
      of [d], [None] when [d] has no entry, matches [expected], which for
      an expected value other than [None] means that [d] already has an
      entry and that entry matches [expected].
    After a completed run the entries of the store are exactly the ids of
    the presented questions, which appear in catalog order under the
    numbers 1, 2, 3, ... without a hole. *)
Theorem resolver_skips_unmet_dependencies (q : Question) (st : QuestionEngine.state) :
  (presented_in q st = false → QuestionEngine.step q st = Ok st)
  ∧ (∀ st', presented_in q st = true →
       QuestionEngine.step q st = Ok st' →
       QuestionEngine.shown st' = S (QuestionEngine.shown st)
       ∧ QuestionEngine.printed st'
         = QuestionEngine.printed st ++ [(S (QuestionEngine.shown st), id q)]
       ∧ ∃ a, QuestionEngine.answers st' = <[id q := a]> (QuestionEngine.answers st))
  ∧ (∀ q2 st2, presented_in q st = false → presented_in q2 st = true →
       QuestionEngine.step q st ≫= QuestionEngine.step q2 = Ok st2 →
       QuestionEngine.printed st2
       = QuestionEngine.printed st ++ [(S (QuestionEngine.shown st), id q2)])
  ∧ (QuestionEngine.step q st = Ok st ↔ presented_in q st = false)
  ∧ (depends_on q = None → presented_in q st = true)
  ∧ (∀ d e, depends_on q = Some (d, e) →
       (presented_in q st = true
        ↔ answer_matches (Py.get (QuestionEngine.answers st) d) e = true)
       ∧ (e ≠ ANone →
          (presented_in q st = true
           ↔ ∃ a, QuestionEngine.answers st !! d = Some a ∧ answer_matches a e = true)))
  ∧ (∀ questions inputs final,
       QuestionEngine.run questions inputs = Ok final →
       (QuestionEngine.printed final).*2 `sublist_of` (id <$> questions)
       ∧ (QuestionEngine.printed final).*1 = seq 1 (QuestionEngine.shown final)
       ∧ dom (QuestionEngine.answers final)
         = list_to_set (QuestionEngine.printed final).*2).
Proof.
  split; [ apply step_skipped | ].
  split.
  { intros st' Hpres Hstep.
    destruct (step_presented q st st' Hpres Hstep) as (a & rest & _ & ->). simpl.
    split; [ done | ]. split; [ done | ]. by exists a. }
  split.
  { intros q2 st2 Hskip Hpres. rewrite (step_skipped q st Hskip). simpl.
    intros Hstep.
    by destruct (step_presented q2 st st2 Hpres Hstep) as (a & rest & _ & ->). }
  split; [ apply step_skipped_iff | ].
  split.
  { intros Hnone. unfold presented_in. by rewrite Hnone. }
  split; [ | apply run_progress ].
  intros d e Hdep. unfold presented_in. rewrite Hdep.
  split.
  - unfold QuestionEngine.dependency_met, answer_matches. by destruct e.
  - intros He. by apply dependency_met_present.
Qed.

Lemma resolver_skips_unmet_dependencies_witness :
  QuestionEngine.step df_02_question df_01_denied = Ok df_01_denied.
Proof.
  apply (proj1 (resolver_skips_unmet_dependencies df_02_question df_01_denied)).
  reflexivity.
Defined.

(** A run of the data-flow module in which government information is
    denied: only the two questions without dependency are presented, under
    the numbers 1 and 2. *)
Example data_flow_run_denied :
  QuestionEngine.run DATA_FLOW_QUESTIONS ["no"; "N"]
  = Ok {| QuestionEngine.answers := {[ "df_01" := ABool false; "df_09" := ABool false ]};
          QuestionEngine.shown := 2;
          QuestionEngine.printed := [(1%nat, "df_01"); (2%nat, "df_09")];
          QuestionEngine.console := [] |}.
Proof. vm_compute. reflexivity. Qed.

(** ** C10: multi-choice answers *)

Lemma select_elem_of (choices : list string) (idx : Z) (x : string) :
  QuestionEngine.select choices idx = Some x → x ∈ choices.
Proof.
  unfold QuestionEngine.select.
  destruct ((0 <=? idx) && (idx <? Z.of_nat (length choices))); [ | done ].
  apply list_elem_of_lookup_2.
Qed.

Lemma ask_multi_choice_returns (choices inputs l rest : list string) :
  QuestionEngine._ask_multi_choice choices inputs = Ok (l, rest) →
  l ⊆ choices ∧ (l = [] → choices = []) ∧ rest `suffix_of` inputs.
Proof.
  induction inputs as [ | line inputs IH ]; simpl; [ done | ].
  assert (Hloop : QuestionEngine._ask_multi_choice choices inputs = Ok (l, rest) →
                  l ⊆ choices ∧ (l = [] → choices = []) ∧ rest `suffix_of` line :: inputs).
  { intros H. destruct (IH H) as (? & ? & ?).
    split; [ done | ]. split; [ done | ]. by apply suffix_cons_r. }
  destruct (String.eqb (Str.lower (Str.strip line)) "all").
  { intros [= <- <-]. split; [ done | ]. split; [ done | ].
    by apply suffix_cons_r. }
  destruct (mapM _ _) as [ns | ]; [ | exact Hloop ].
  destruct (omap _ _) as [ | x selected ] eqn:Hsel; [ exact Hloop | ].
  intros [= <- <-]. split; [ | split; [ done | by apply suffix_cons_r ] ].
  intros y Hy. rewrite <- Hsel in Hy.
  apply list_elem_of_omap in Hy as (idx & _ & Hidx).
  by eapply select_elem_of.
Qed.

Lemma collect_answer_not_empty_list (q : Question) (inputs rest : list string) (a : answer) :
  (qtype q = MULTI_CHOICE → choices q ≠ []) →
  QuestionEngine._collect_answer q inputs = Ok (a, rest) →
  a ≠ AList [].
Proof.
  intros Hchoices. unfold QuestionEngine._collect_answer.
  destruct (qtype q) eqn:Hkind.
  - destruct (QuestionEngine._ask_yes_no inputs) as [ [b r] | ]; simpl; [ | done ].
    by intros [= <- <-].
  - destruct (QuestionEngine._ask_choice (choices q) inputs) as [ [c r] | ]; simpl; [ | done ].
    by intros [= <- <-].
  - destruct (QuestionEngine._ask_multi_choice (choices q) inputs) as [ [l r] | ] eqn:Hask;
      simpl; [ | done ].
    intros [= <- <-] [= ->].
    apply ask_multi_choice_returns in Hask as (_ & Hempty & _).
    by apply Hchoices, Hempty.
  - destruct inputs as [ | line inputs ]; [ done | ].
    intros [= <- <-]. by case_match.
  - destruct (QuestionEngine._ask_number inputs) as [ [n r] | ]; simpl; [ | done ].
    by intros [= <- <-].
Qed.

Lemma loop_no_empty_list (questions : list Question) (st st' : QuestionEngine.state) :
  Forall (λ q, qtype q = MULTI_CHOICE → choices q ≠ []) questions →
  (∀ k, QuestionEngine.answers st !! k ≠ Some (AList [])) →
  QuestionEngine.loop questions st = Ok st' →
  ∀ k, QuestionEngine.answers st' !! k ≠ Some (AList []).
Proof.
  intros Hqs. revert st.
  induction Hqs as [ | q questions Hq Hqs IH ]; intros st Hst; simpl.
  - by intros [= <-].
  - destruct (QuestionEngine.step q st) as [st1 | e] eqn:Hstep; simpl; [ | done ].
    apply IH.
    destruct (presented_in q st) eqn:Hpres.
    + destruct (step_presented q st st1 Hpres Hstep) as (a & rest & Hcollect & ->).
      simpl. intros k.
      destruct (decide (id q = k)) as [<- | Hne].
      * rewrite lookup_insert_eq. intros [= ->].
        by eapply collect_answer_not_empty_list.
      * by rewrite lookup_insert_ne.
    + rewrite (step_skipped q st Hpres) in Hstep. by injection Hstep as <-.
Qed.

(** C10, as stated, fails for a multi-choice question without choices:
    the input "all" returns the copy of the empty choice list, and the
    engine records the empty list. *)
Lemma empty_choices_all_recorded :
  QuestionEngine._ask_multi_choice [] ["all"] = Ok ([], [])
  ∧ QuestionEngine.answers <$> QuestionEngine.run no_choices_catalog ["all"]
    = Ok {[ "m" := AList [] ]}
  ∧ ¬ (∀ choices inputs l rest,
         QuestionEngine._ask_multi_choice choices inputs = Ok (l, rest) → l ≠ []).
Proof.
  split; [ reflexivity | ]. split; [ reflexivity | ].
  intros H. by apply (H [] ["all"] [] []).
Qed.

(** C10, amended.  For a multi-choice question with at least one choice,
    the value the collector returns is a non-empty list of strings drawn
    from the question's choice list.  The input "all" (in any case, with
    surrounding blanks) yields the full choice list.  A line whose
    selection is empty is not accepted: the collector goes on to the next
    line.  In a run over a catalog whose multi-choice questions all have
    choices, no recorded answer is the empty list. *)
Theorem multi_choice_answer_nonempty (labels : list string) :
  labels ≠ [] →
  (∀ inputs l rest,
     QuestionEngine._ask_multi_choice labels inputs = Ok (l, rest) →
     l ≠ [] ∧ l ⊆ labels)
  ∧ (∀ line rest,
       Str.lower (Str.strip line) = "all" →
       QuestionEngine._ask_multi_choice labels (line :: rest) = Ok (labels, rest))
  ∧ (∀ line rest ns,
       Str.lower (Str.strip line) ≠ "all" →
       mapM (λ x, QuestionEngine.py_int (Str.strip x)) (Str.split "," (Str.strip line))
       = Some ns →
       omap (QuestionEngine.select labels) (map (λ n, n - 1) ns) = [] →
       QuestionEngine._ask_multi_choice labels (line :: rest)
       = QuestionEngine._ask_multi_choice labels rest)
  ∧ (∀ questions inputs st,
       Forall (λ q, qtype q = MULTI_CHOICE → choices q ≠ []) questions →
       QuestionEngine.run questions inputs = Ok st →
       ∀ k, QuestionEngine.answers st !! k ≠ Some (AList [])).
Proof.
  intros Hchoices.
  split.
  { intros inputs l rest Hask.
    apply ask_multi_choice_returns in Hask as (Hsub & Hempty & _).
    split; [ | done ]. intros ->. by apply Hchoices, Hempty. }
  split.
  { intros line rest Hall. simpl. by rewrite Hall. }
  split.
  { intros line rest ns Hnot Hparse Hsel. simpl.
    apply String.eqb_neq in Hnot. rewrite Hnot, Hparse, Hsel. done. }
  intros questions inputs st Hqs Hrun k.
  eapply loop_no_empty_list; [ exact Hqs | | exact Hrun ].
  intros k'. simpl. by rewrite lookup_empty.
Qed.

Lemma multi_choice_answer_nonempty_witness :
  QuestionEngine._ask_multi_choice CUI_CATEGORIES [" ALL "; "1"]
  = Ok (CUI_CATEGORIES, ["1"]).
Proof.
  apply (proj1 (proj2 (multi_choice_answer_nonempty CUI_CATEGORIES ltac:(discriminate)))).
  reflexivity.
Defined.

Example multi_choice_examples :
  QuestionEngine._ask_multi_choice ["a"; "b"; "c"] ["0,9"; "x,1"; EmptyString; "3, 1 ,7"; "2"]
  = Ok (["c"; "a"], ["2"])
  ∧ QuestionEngine._ask_multi_choice ["a"; "b"; "c"] ["0"; "4"] = Raise EOFError.
Proof. split; reflexivity. Qed.

(** ** The derived flags, one against the other *)

Lemma calculate_fields (flat : gmap string answer) (d : Derived) :
  ScopeScorer.calculate flat = Ok d →
  ∃ scope_sys,
    ScopeScorer._cui_in_scope flat = Ok (cui_in_scope d)
    ∧ ScopeScorer._estimate_systems_in_scope flat = Ok scope_sys
    ∧ d = {| cui_in_scope := cui_in_scope d;
             fci_in_scope := ScopeScorer._fci_in_scope flat;
             cmmc_level_required :=
               ScopeScorer._cmmc_level (cui_in_scope d) (ScopeScorer._fci_in_scope flat);
             enclave_recommended :=
               cui_in_scope d
               && (Py.is_False (Py.get flat "bd_03") || Py.is_None (Py.get flat "bd_03"))
               && (Py.is_False (Py.get flat "bd_01")
                   || negb (Py.is_False (Py.get flat "bd_04")));
             systems_in_scope := scope_sys;
             compliance_gaps := ScopeScorer._identify_gaps flat;
             gap_count := length (ScopeScorer._identify_gaps flat);
             high_priority_gaps :=
               filter (λ g, String.eqb (priority g) "HIGH" = true)
                      (ScopeScorer._identify_gaps flat);
             nist_control_gaps :=
               ScopeScorer._nist_control_gaps (ScopeScorer._identify_gaps flat);
             scope_reduction_possible := ScopeScorer._scope_reduction_possible flat |}.
Proof.
  unfold ScopeScorer.calculate, ScopeScorer._enclave_recommended.
  destruct (ScopeScorer._cui_in_scope flat) as [cui | e]; simpl; [ | done ].
  destruct (ScopeScorer._estimate_systems_in_scope flat) as [n | e]; simpl; [ | done ].
  intros [= <-]. by exists n.
Qed.

Lemma cui_implies_handles_gov (flat : gmap string answer) :
  ScopeScorer._cui_in_scope flat = Ok true → Py.is_True (Py.get flat "df_01") = true.
Proof.
  unfold ScopeScorer._cui_in_scope.
  destruct (if Py.truthy _ then _ else _) as [b | e]; simpl; [ | done ].
  intros [= H]. by apply andb_true_iff in H as [? _].
Qed.

Lemma is_True_lookup (flat : gmap string answer) k :
  Py.is_True (Py.get flat k) = true ↔ flat !! k = Some (ABool true).
Proof.
  unfold Py.get, Py.get_or.
  destruct (flat !! k) as [ [ | [] | | | ] | ]; simpl; split; congruence.
Qed.

Lemma is_False_lookup (flat : gmap string answer) k :
  Py.is_False (Py.get flat k) = true ↔ flat !! k = Some (ABool false).
Proof.
  unfold Py.get, Py.get_or.
  destruct (flat !! k) as [ [ | [] | | | ] | ]; simpl; split; congruence.
Qed.

(** The primary flag implies the baseline flag, so a result never says
    "Level 2" without FCI in scope; "Level 1" means FCI without CUI; and the
    "not required" outcome is reached exactly when neither [df_01] nor
    [df_09] was answered with yes. *)
Theorem level_and_flags_agree (flat : gmap string answer) (d : Derived) :
  ScopeScorer.calculate flat = Ok d →
  (cui_in_scope d = true → fci_in_scope d = true)
  ∧ (cmmc_level_required d = "Level 2" ↔ cui_in_scope d = true)
  ∧ (cmmc_level_required d = "Level 1"
     ↔ cui_in_scope d = false ∧ fci_in_scope d = true)
  ∧ (cmmc_level_required d = "Not Required (verify contract requirements)"
     ↔ flat !! "df_01" ≠ Some (ABool true) ∧ flat !! "df_09" ≠ Some (ABool true)).
Proof.
  intros Hcalc.
  destruct (calculate_fields flat d Hcalc) as (sys & Hcui & _ & Hd).
  assert (Himp : cui_in_scope d = true → ScopeScorer._fci_in_scope flat = true).
  { intros Htrue. rewrite Htrue in Hcui.
    unfold ScopeScorer._fci_in_scope. by rewrite (cui_implies_handles_gov flat Hcui). }
  assert (Hfci : ScopeScorer._fci_in_scope flat = false
                 ↔ flat !! "df_01" ≠ Some (ABool true) ∧ flat !! "df_09" ≠ Some (ABool true)).
  { unfold ScopeScorer._fci_in_scope.
    rewrite orb_false_iff, <- !is_True_lookup, !not_true_iff_false. done. }
  rewrite Hd. simpl. clear Hd.
  destruct (cui_in_scope d) eqn:Hc; simpl.
  - rewrite (Himp eq_refl) in *. rewrite <- Hfci. repeat split; try done.
    intros [? _]. done.
  - destruct (ScopeScorer._fci_in_scope flat) eqn:Hf; simpl; rewrite <- Hfci;
      repeat split; try done; intros [? ?]; done.
Qed.

Lemma level_and_flags_agree_witness :
  fci_in_scope dfars_result = true.
Proof.
  apply (proj1 (level_and_flags_agree dfars_store dfars_result eq_refl)).
  reflexivity.
Defined.

(** ** The enclave recommendation and the scope reduction *)

(** An enclave is only ever recommended when CUI is in scope (so at
    "Level 2") and [bd_03] is answered no or not at all; it is never
    recommended against an explicit refusal ([bd_04] no) unless [bd_01] is
    no.  Whenever scope reduction is possible, CUI is in scope and no
    enclave exists, the enclave is recommended, even against a refusal. *)
Theorem enclave_recommendation_bounds (flat : gmap string answer) (d : Derived) :
  ScopeScorer.calculate flat = Ok d →
  (enclave_recommended d = true →
     cui_in_scope d = true ∧ cmmc_level_required d = "Level 2"
     ∧ (flat !! "bd_03" = Some (ABool false) ∨ Py.get flat "bd_03" = ANone)
     ∧ (flat !! "bd_04" = Some (ABool false) → flat !! "bd_01" = Some (ABool false)))
  ∧ (scope_reduction_possible d = true →
       flat !! "bd_01" = Some (ABool false)
       ∧ (flat !! "bd_01a" = Some (ABool true) ∨ flat !! "bd_04" = Some (ABool true)))
  ∧ (scope_reduction_possible d = true → cui_in_scope d = true →
       flat !! "bd_03" = Some (ABool false) ∨ Py.get flat "bd_03" = ANone →
       enclave_recommended d = true)
  ∧ (cui_in_scope d = true → flat !! "bd_03" = None → flat !! "bd_04" = None →
       enclave_recommended d = true).
Proof.
  intros Hcalc.
  destruct (calculate_fields flat d Hcalc) as (sys & _ & _ & Hd).
  assert (Hnone : Py.is_None (Py.get flat "bd_03") = true ↔ Py.get flat "bd_03" = ANone).
  { by destruct (Py.get flat "bd_03"). }
  rewrite Hd. simpl. clear Hd.
  unfold ScopeScorer._scope_reduction_possible.
  rewrite !andb_true_iff, !orb_true_iff, negb_true_iff, !is_False_lookup,
    !is_True_lookup, Hnone.
  split; [ | split; [ | split ] ].
  - intros [ [Hc Hb3] Hw ]. rewrite Hc. simpl. repeat split; try done.
    intros Hb4. destruct Hw as [ Hw | Hw ]; [ done | ].
    apply is_False_lookup in Hb4. congruence.
  - tauto.
  - intros [Hb1 _] Hc Hb3. tauto.
  - intros Hc Hb3 Hb4. split; [ split; [ done | ] | ].
    + right. unfold Py.get, Py.get_or. by rewrite Hb3.
    + right. unfold Py.get, Py.get_or. by rewrite Hb4.
Qed.

Lemma enclave_recommendation_bounds_witness :
  enclave_recommended reducible_result = true.
Proof.
  apply (proj1 (proj2 (proj2
           (enclave_recommendation_bounds reducible_store reducible_result eq_refl))));
    [ reflexivity | reflexivity | by left ].
Defined.

(** ** The gap list against the rule table *)

Ltac rule_signature :=
  lazymatch goal with
  | |- gap_signature <$> ?f ?m `sublist_of` _ =>
      unfold f;
      repeat match goal with
        | |- context [if ?c then _ else _] => destruct c
        end;
      first [ apply sublist_nil_l | reflexivity ]
  end.

Lemma sublist_app_cons {A} (x : A) (l1 l2 k : list A) :
  l1 `sublist_of` [x] → l2 `sublist_of` k → l1 ++ l2 `sublist_of` x :: k.
Proof. intros H1 H2. by apply (sublist_app l1 [x] l2 k). Qed.

Lemma gaps_signature_sublist (flat : gmap string answer) :
  gap_signature <$> ScopeScorer._identify_gaps flat `sublist_of` GAP_TABLE.
Proof.
  unfold ScopeScorer._identify_gaps, GAP_TABLE.
  rewrite !fmap_app.
  repeat (apply sublist_app_cons; [ rule_signature | ]).
  rule_signature.
Qed.

Lemma sublist_filter_mono {A} (P : A → Prop) `{!∀ x, Decision (P x)} (l1 l2 : list A) :
  l1 `sublist_of` l2 → filter P l1 `sublist_of` filter P l2.
Proof.
  induction 1 as [ | x l1 l2 _ IH | x l1 l2 _ IH ]; [ done | | ].
  - rewrite !filter_cons. destruct (decide (P x)); [ by apply sublist_skip | done ].
  - rewrite filter_cons. destruct (decide (P x)); [ by apply sublist_cons | done ].
Qed.

Lemma filter_fmap_signature (gaps : list Gap) :
  gap_signature <$> filter (λ g, String.eqb (priority g) "HIGH" = true) gaps
  = filter (λ s, String.eqb s.2 "HIGH" = true) (gap_signature <$> gaps).
Proof.
  induction gaps as [ | g gaps IH ]; [ done | ].
  rewrite fmap_cons, !filter_cons. simpl.
  destruct (decide (String.eqb (priority g) "HIGH" = true)); by rewrite ?fmap_cons, IH.
Qed.

(** The gaps of any store follow the rule table: they appear in the order
    of the fourteen rules, each rule at most once, each with the control,
    title and priority of its rule.  So there are at most 14 gaps with
    pairwise different titles, every priority is "HIGH" or "MEDIUM", and
    in a derived result [gap_count] is the length of the gap list and the
    high-priority list holds, in order, exactly the gaps marked "HIGH", at
    most 9 of them. *)
Theorem gaps_follow_rule_table (flat : gmap string answer) :
  gap_signature <$> ScopeScorer._identify_gaps flat `sublist_of` GAP_TABLE
  ∧ NoDup (title <$> ScopeScorer._identify_gaps flat)
  ∧ (length (ScopeScorer._identify_gaps flat) ≤ 14)%nat
  ∧ Forall (λ g, priority g = "HIGH" ∨ priority g = "MEDIUM")
           (ScopeScorer._identify_gaps flat)
  ∧ ∀ d, ScopeScorer.calculate flat = Ok d →
         compliance_gaps d = ScopeScorer._identify_gaps flat
         ∧ gap_count d = length (compliance_gaps d)
         ∧ high_priority_gaps d `sublist_of` compliance_gaps d
         ∧ (∀ g, g ∈ high_priority_gaps d ↔ g ∈ compliance_gaps d ∧ priority g = "HIGH")
         ∧ (length (high_priority_gaps d) ≤ 9)%nat.
Proof.
  pose proof (gaps_signature_sublist flat) as Hsub.
  split; [ exact Hsub | ].
  split.
  { apply (sublist_NoDup _ ((λ s, s.1.2) <$> GAP_TABLE)).
    - apply (bool_decide_unpack (NoDup ((λ s, s.1.2) <$> GAP_TABLE))).
      vm_compute. exact I.
    - replace (title <$> ScopeScorer._identify_gaps flat)
        with ((λ s, s.1.2) <$> (gap_signature <$> ScopeScorer._identify_gaps flat)).
      + by apply fmap_sublist.
      + rewrite <- list_fmap_compose. done. }
  split.
  { apply sublist_length in Hsub. by rewrite length_fmap in Hsub. }
  split.
  { apply Forall_forall. intros g Hg.
    assert (Hin : gap_signature g ∈ GAP_TABLE).
    { eapply elem_of_sublist; [ | exact Hsub ].
      apply list_elem_of_fmap. by exists g. }
    assert (Htable : Forall (λ s, s.2 = "HIGH" ∨ s.2 = "MEDIUM") GAP_TABLE).
    { unfold GAP_TABLE. repeat (apply Forall_cons; split); try solve [constructor];
        simpl; auto. }
    rewrite Forall_forall in Htable. exact (Htable _ Hin). }
  intros d Hcalc.
  destruct (calculate_fields flat d Hcalc) as (sys & _ & _ & Hd).
  rewrite Hd. simpl. clear Hd.
  split; [ done | ]. split; [ done | ].
  split; [ apply sublist_filter | ].
  split.
  { intros g. rewrite list_elem_of_filter, String.eqb_eq. tauto. }
  assert (Hhigh : gap_signature <$> filter (λ g, String.eqb (priority g) "HIGH" = true)
                                           (ScopeScorer._identify_gaps flat)
                  `sublist_of` filter (λ s, String.eqb s.2 "HIGH" = true) GAP_TABLE).
  { rewrite filter_fmap_signature. by apply sublist_filter_mono. }
  apply sublist_length in Hhigh. rewrite length_fmap in Hhigh.
  exact Hhigh.
Qed.

Lemma gaps_follow_rule_table_witness :
  gap_count dfars_result = length (compliance_gaps dfars_result).
Proof.
  exact (proj1 (proj2 (proj2 (proj2 (proj2 (proj2 (gaps_follow_rule_table dfars_store))))
                         dfars_result eq_refl))).
Defined.

(** ** The control summary *)

Lemma nist_control_gaps_elem_of (gaps : list Gap) (t : string) :
  t ∈ ScopeScorer._nist_control_gaps gaps ↔ ∃ g, g ∈ gaps ∧ t ∈ control_tokens g.
Proof.
  unfold ScopeScorer._nist_control_gaps.
  rewrite sorted_Permutation, elem_of_elements. apply control_set_elem_of.
Qed.

Lemma nist_control_gaps_NoDup (gaps : list Gap) :
  NoDup (ScopeScorer._nist_control_gaps gaps).
Proof.
  unfold ScopeScorer._nist_control_gaps.
  rewrite sorted_Permutation. apply NoDup_elements.
Qed.

Lemma table_tokens_known :
  Forall (λ s, Forall (λ t, t ∈ ALL_CONTROLS) (map Str.strip (Str.split "/" s.1.1)))
         GAP_TABLE.
Proof.
  apply (bool_decide_unpack
           (Forall (λ s, Forall (λ t, t ∈ ALL_CONTROLS)
                                (map Str.strip (Str.split "/" s.1.1))) GAP_TABLE)).
  vm_compute. exact I.
Qed.

(** The control summary of a derived result only holds identifiers of the
    ten controls the rules name, so it has at most ten entries; it is empty
    exactly when there is no gap. *)
Theorem control_summary_vocabulary (flat : gmap string answer) (d : Derived) :
  ScopeScorer.calculate flat = Ok d →
  (∀ t, t ∈ nist_control_gaps d → t ∈ ALL_CONTROLS)
  ∧ (length (nist_control_gaps d) ≤ 10)%nat
  ∧ (nist_control_gaps d = [] ↔ compliance_gaps d = []).
Proof.
  intros Hcalc.
  destruct (calculate_fields flat d Hcalc) as (sys & _ & _ & Hd).
  rewrite Hd. simpl. clear Hd.
  assert (Hknown : ∀ t, t ∈ ScopeScorer._nist_control_gaps (ScopeScorer._identify_gaps flat) →
                        t ∈ ALL_CONTROLS).
  { intros t Ht. apply nist_control_gaps_elem_of in Ht as (g & Hg & Ht).
    assert (Hin : gap_signature g ∈ GAP_TABLE).
    { eapply elem_of_sublist; [ | apply gaps_signature_sublist ].
      apply list_elem_of_fmap. by exists g. }
    pose proof table_tokens_known as Htable.
    rewrite Forall_forall in Htable. specialize (Htable _ Hin).
    rewrite Forall_forall in Htable. by apply Htable. }
  split; [ exact Hknown | ].
  split.
  { change 10%nat with (length ALL_CONTROLS).
    apply submseteq_length, NoDup_submseteq; [ apply nist_control_gaps_NoDup | exact Hknown ]. }
  split.
  - intros Hempty.
    destruct (ScopeScorer._identify_gaps flat) as [ | g gaps ] eqn:Hgaps; [ done | ].
    exfalso.
    pose proof (split_nonempty "/" (nist_control g)) as Hne.
    destruct (Str.split "/" (nist_control g)) as [ | c cs ] eqn:Hsplit; [ done | ].
    assert (Hin : Str.strip c ∈ ScopeScorer._nist_control_gaps (g :: gaps)).
    { apply nist_control_gaps_elem_of. exists g. split; [ by left | ].
      unfold control_tokens. rewrite Hsplit. by left. }
    rewrite Hempty in Hin. by apply elem_of_nil in Hin.
  - intros ->. reflexivity.
Qed.

Lemma control_summary_vocabulary_witness :
  (length (nist_control_gaps dfars_result) ≤ 10)%nat.
Proof.
  exact (proj1 (proj2 (control_summary_vocabulary dfars_store dfars_result eq_refl))).
Defined.

(** ** The answers the scorer reads *)

Lemma gap_rules_keys_read :
  Forall (λ r : list string * (gmap string answer → list Gap), r.1 ⊆ SCORER_KEYS) gap_rules.
Proof.
  unfold gap_rules.
  repeat (apply Forall_cons; split); try solve [constructor]; simpl.
  all: intros k Hk; repeat (apply elem_of_cons in Hk as [-> | Hk]);
    try (by apply elem_of_nil in Hk).
  all: apply (bool_decide_unpack (_ ∈ SCORER_KEYS)); vm_compute; exact I.
Qed.

Lemma identify_gaps_agree (flat flat' : gmap string answer) :
  (∀ k, k ∈ SCORER_KEYS → flat !! k = flat' !! k) →
  ScopeScorer._identify_gaps flat = ScopeScorer._identify_gaps flat'.
Proof.
  intros Hagree. rewrite !identify_gaps_rules. f_equal.
  apply list_eq_Forall2, Forall2_fmap, Forall_Forall2_diag.
  pose proof gap_rules_read_only as Hreads.
  pose proof gap_rules_keys_read as Hkeys.
  rewrite Forall_forall in Hreads, Hkeys |- *.
  intros r Hr. apply (Hreads r Hr). intros k Hk. apply Hagree. by apply (Hkeys r Hr).
Qed.

Ltac key_read := apply (bool_decide_unpack (_ ∈ SCORER_KEYS)); vm_compute; exact I.

(** The score depends on the store only through the 24 answers the scorer
    reads: two stores that agree on them get the same outcome, so setting
    or changing any other answer never changes the score.  Six questions
    marked as gap-relevant in the catalogs are among the answers that are
    never read. *)
Theorem calculate_reads_only (flat flat' : gmap string answer) :
  (∀ k, k ∈ SCORER_KEYS → flat !! k = flat' !! k) →
  ScopeScorer.calculate flat = ScopeScorer.calculate flat'
  ∧ (∀ k v, k ∉ SCORER_KEYS →
       ScopeScorer.calculate (<[k := v]> flat) = ScopeScorer.calculate flat)
  ∧ unread_gap_questions = ["si_09"; "bd_05"; "ac_01"; "ac_04"; "ac_06"; "ac_10"].
Proof.
  assert (Hgen : ∀ m m' : gmap string answer,
            (∀ k, k ∈ SCORER_KEYS → m !! k = m' !! k) →
            ScopeScorer.calculate m = ScopeScorer.calculate m').
  { intros m m' H.
    unfold ScopeScorer.calculate, ScopeScorer._enclave_recommended,
      ScopeScorer._cui_in_scope, ScopeScorer._fci_in_scope,
      ScopeScorer._estimate_systems_in_scope, ScopeScorer._scope_reduction_possible.
    rewrite (identify_gaps_agree m m' H).
    repeat match goal with
      | |- context [Py.get_or m ?k ?d] =>
          rewrite (get_or_agree m m' k d) by (apply H; key_read)
      | |- context [Py.get m ?k] =>
          rewrite (get_agree m m' k) by (apply H; key_read)
      end.
    reflexivity. }
  intros Hagree. split; [ by apply Hgen | ].
  split; [ | vm_compute; reflexivity ].
  intros k v Hk. apply Hgen. intros k' Hk'.
  apply lookup_insert_ne. by intros ->.
Qed.

Lemma calculate_reads_only_witness :
  ScopeScorer.calculate (<["ac_10" := ABool false]> dfars_store)
  = ScopeScorer.calculate dfars_store.
Proof.
  refine (proj1 (calculate_reads_only
                   (<["ac_10" := ABool false]> dfars_store) dfars_store _)).
  intros k Hk. apply lookup_insert_ne. intros <-.
  revert Hk. apply (bool_decide_eq_false_1 ("ac_10" ∈ SCORER_KEYS)). vm_compute. reflexivity.
Defined.

(** ** The answer collector *)

Lemma first_accepted_ok {A} (accept : string → option A) (inputs rest : list string) (a : A) :
  first_accepted accept inputs = Ok (a, rest)
  ↔ ∃ rejected line,
      inputs = rejected ++ line :: rest
      ∧ Forall (λ l, accept l = None) rejected
      ∧ accept line = Some a.
Proof.
  split.
  - induction inputs as [ | l inputs IH ]; simpl; [ done | ].
    destruct (accept l) as [a' | ] eqn:Hl.
    + intros [= -> ->]. by exists [], l.
    + intros H. destruct (IH H) as (rejected & line & -> & Hrej & Hline).
      exists (l :: rejected), line. split; [ done | ]. split; [ | done ].
      by constructor.
  - intros (rejected & line & -> & Hrej & Hline).
    induction Hrej as [ | l rejected Hl _ IH ]; simpl.
    + by rewrite Hline.
    + by rewrite Hl.
Qed.

Lemma first_accepted_raise {A} (accept : string → option A) (inputs : list string) (e : exn) :
  first_accepted accept inputs = Raise e
  ↔ e = EOFError ∧ Forall (λ l, accept l = None) inputs.
Proof.
  induction inputs as [ | l inputs IH ]; simpl.
  - split; [ by intros [= <-] | by intros [-> _] ].
  - destruct (accept l) as [a | ] eqn:Hl.
    + split; [ done | ]. intros [_ H]. apply Forall_cons in H as [H _]. congruence.
    + rewrite IH. split; intros [-> H]; split; try done.
      * by constructor.
      * by apply Forall_cons in H as [_ H].
Qed.

Lemma ask_yes_no_first (inputs : list string) :
  QuestionEngine._ask_yes_no inputs = first_accepted yes_no_line inputs.
Proof.
  induction inputs as [ | line inputs IH ]; simpl; [ done | ].
  unfold yes_no_line. rewrite IH. by repeat case_match.
Qed.

Lemma ask_choice_first (choices inputs : list string) :
  QuestionEngine._ask_choice choices inputs = first_accepted (choice_line choices) inputs.
Proof.
  induction inputs as [ | line inputs IH ]; simpl; [ done | ].
  unfold choice_line. rewrite IH.
  destruct (QuestionEngine.py_int (Str.strip line)) as [n | ]; simpl; [ | done ].
  by destruct (QuestionEngine.select choices (n - 1)).
Qed.

Lemma ask_multi_choice_first (choices inputs : list string) :
  QuestionEngine._ask_multi_choice choices inputs
  = first_accepted (multi_choice_line choices) inputs.
Proof.
  induction inputs as [ | line inputs IH ]; simpl; [ done | ].
  unfold multi_choice_line. rewrite IH.
  destruct (String.eqb (Str.lower (Str.strip line)) "all"); [ done | ].
  destruct (mapM _ _) as [ns | ]; simpl; [ | done ].
  by destruct (omap _ _).
Qed.

Lemma ask_number_first (inputs : list string) :
  QuestionEngine._ask_number inputs = first_accepted number_line inputs.
Proof.
  induction inputs as [ | line inputs IH ]; simpl; [ done | ].
  unfold number_line. rewrite IH.
  by destruct (QuestionEngine.py_int (Str.strip line)).
Qed.

Lemma ask_first (required : bool) (console : list string) :
  ScopingAssessment._ask required console = first_accepted (ask_line required) console.
Proof.
  induction console as [ | line console IH ]; simpl; [ done | ].
  unfold ask_line. simpl. rewrite IH.
  by destruct (negb (String.eqb (Str.strip line) EmptyString) || negb required).
Qed.

(** Every prompt of the collector is decided by the first line it accepts:
    the lines before it are read and dropped, the lines after it stay on
    the console for the next question, and the prompt ends with [EOFError],
    and with no other exception, exactly when no line of the console is
    acceptable. *)
Theorem prompts_take_first_accepted_line (choices inputs : list string) :
  QuestionEngine._ask_yes_no inputs = first_accepted yes_no_line inputs
  ∧ QuestionEngine._ask_choice choices inputs = first_accepted (choice_line choices) inputs
  ∧ QuestionEngine._ask_multi_choice choices inputs
    = first_accepted (multi_choice_line choices) inputs
  ∧ QuestionEngine._ask_number inputs = first_accepted number_line inputs
  ∧ (∀ A (accept : string → option A) a rest,
       first_accepted accept inputs = Ok (a, rest)
       ↔ ∃ rejected line,
           inputs = rejected ++ line :: rest
           ∧ Forall (λ l, accept l = None) rejected
           ∧ accept line = Some a)
  ∧ (∀ A (accept : string → option A) e,
       first_accepted accept inputs = Raise e
       ↔ e = EOFError ∧ Forall (λ l, accept l = None) inputs).
Proof.
  split; [ apply ask_yes_no_first | ].
  split; [ apply ask_choice_first | ].
  split; [ apply ask_multi_choice_first | ].
  split; [ apply ask_number_first | ].
  split.
  - intros A accept a rest. apply first_accepted_ok.
  - intros A accept e. apply first_accepted_raise.
Qed.

Example prompts_examples :
  QuestionEngine._ask_yes_no ["maybe"; EmptyString; " YES "; "n"] = Ok (true, ["n"])
  ∧ QuestionEngine._ask_yes_no ["ja"; "nein"] = Raise EOFError
  ∧ QuestionEngine._ask_choice ["a"; "b"] ["0"; "3"; "-1"; "x"; " 2 "; "1"] = Ok ("b", ["1"])
  ∧ QuestionEngine._ask_number ["1.5"; "1e3"; "-7"] = Ok (-7, []).
Proof. repeat split. Qed.

Lemma select_bounds (choices : list string) (idx : Z) (x : string) :
  QuestionEngine.select choices idx = Some x
  ↔ 0 ≤ idx < Z.of_nat (length choices) ∧ choices !! Z.to_nat idx = Some x.
Proof.
  unfold QuestionEngine.select.
  destruct ((0 <=? idx) && (idx <? Z.of_nat (length choices))) eqn:Hb.
  - apply andb_true_iff in Hb as [H1 H2]. apply Z.leb_le in H1. apply Z.ltb_lt in H2.
    split; [ intros H; split; [ lia | done ] | by intros [_ H] ].
  - split; [ done | ]. intros [ [H1 H2] _ ].
    apply Z.leb_le in H1. apply Z.ltb_lt in H2. by rewrite H1, H2 in Hb.
Qed.

(** A choice prompt only ever returns a label of the choice list.  The
    number typed counts the labels from 1: a number between 1 and the
    length of the list selects the label at that position, and 0, a
    negative number or a number above the length is rejected like a line
    that is no number.  With an empty choice list no line is acceptable,
    and the prompt ends in [EOFError] on every console. *)
Theorem choice_prompt_is_one_based (choices inputs : list string) :
  (∀ x rest, QuestionEngine._ask_choice choices inputs = Ok (x, rest) → x ∈ choices)
  ∧ (∀ line n x,
       QuestionEngine.py_int (Str.strip line) = Some n →
       (choice_line choices line = Some x
        ↔ 1 ≤ n ≤ Z.of_nat (length choices) ∧ choices !! Z.to_nat (n - 1) = Some x))
  ∧ (∀ line, QuestionEngine.py_int (Str.strip line) = None → choice_line choices line = None)
  ∧ (∀ line n rest x,
       QuestionEngine.py_int (Str.strip line) = Some n →
       1 ≤ n ≤ Z.of_nat (length choices) →
       choices !! Z.to_nat (n - 1) = Some x →
       QuestionEngine._ask_choice choices (line :: rest) = Ok (x, rest))
  ∧ (choices = [] → QuestionEngine._ask_choice choices inputs = Raise EOFError).
Proof.
  split.
  { intros x rest H. rewrite ask_choice_first in H.
    apply first_accepted_ok in H as (rejected & line & _ & _ & Hline).
    unfold choice_line in Hline.
    destruct (QuestionEngine.py_int (Str.strip line)) as [n | ]; simpl in Hline; [ | done ].
    by eapply select_elem_of. }
  split.
  { intros line n x Hn. unfold choice_line. rewrite Hn. simpl.
    rewrite select_bounds. split; intros [H1 H2]; (split; [ lia | done ]). }
  split.
  { intros line Hn. unfold choice_line. by rewrite Hn. }
  split.
  { intros line n rest x Hn Hrange Hx. simpl. rewrite Hn.
    assert (Hsel : QuestionEngine.select choices (n - 1) = Some x).
    { apply select_bounds. split; [ lia | done ]. }
    by rewrite Hsel. }
  intros ->. rewrite ask_choice_first. apply first_accepted_raise.
  split; [ done | ]. apply Forall_forall. intros line _.
  unfold choice_line. destruct (QuestionEngine.py_int (Str.strip line)) as [n | ]; [ | done ].
  simpl. unfold QuestionEngine.select. simpl.
  by destruct ((0 <=? n - 1) && (n - 1 <? Z.of_nat 0)).
Qed.

Lemma choice_prompt_is_one_based_witness :
  QuestionEngine._ask_choice (choices_of "si_01") ["3"; "1"] = Ok ("51–200", ["1"]).
Proof.
  apply (proj1 (proj2 (proj2 (proj2
           (choice_prompt_is_one_based (choices_of "si_01") [])))) "3" 3 ["1"] "51–200");
    [ reflexivity | by vm_compute | reflexivity ].
Defined.

(** ** Completed runs of the engine *)

Lemma collect_answer_suffix (q : Question) (inputs rest : list string) (a : answer) :
  QuestionEngine._collect_answer q inputs = Ok (a, rest) → rest `suffix_of` inputs.
Proof.
  assert (Hfirst : ∀ A (accept : string → option A) x,
            first_accepted accept inputs = Ok (x, rest) → rest `suffix_of` inputs).
  { intros A accept x H. apply first_accepted_ok in H as (rejected & line & -> & _).
    exists (rejected ++ [line]). by rewrite <- app_assoc. }
  unfold QuestionEngine._collect_answer. destruct (qtype q).
  - rewrite ask_yes_no_first.
    destruct (first_accepted yes_no_line inputs) as [ [b r] | ] eqn:H; simpl; [ | done ].
    intros [= <- <-]. by eapply Hfirst.
  - rewrite ask_choice_first.
    destruct (first_accepted _ inputs) as [ [b r] | ] eqn:H; simpl; [ | done ].
    intros [= <- <-]. by eapply Hfirst.
  - rewrite ask_multi_choice_first.
    destruct (first_accepted _ inputs) as [ [b r] | ] eqn:H; simpl; [ | done ].
    intros [= <- <-]. by eapply Hfirst.
  - destruct inputs as [ | line inputs ]; [ done | ].
    intros [= <- <-]. by apply suffix_cons_r.
  - rewrite ask_number_first.
    destruct (first_accepted _ inputs) as [ [b r] | ] eqn:H; simpl; [ | done ].
    intros [= <- <-]. by eapply Hfirst.
Qed.

Lemma step_cases (q : Question) (st st' : QuestionEngine.state) :
  QuestionEngine.step q st = Ok st' →
  (presented_in q st = false ∧ st' = st)
  ∨ (presented_in q st = true
     ∧ ∃ a rest,
         QuestionEngine._collect_answer q (QuestionEngine.console st) = Ok (a, rest)
         ∧ st' = {| QuestionEngine.answers := <[id q := a]> (QuestionEngine.answers st);
                    QuestionEngine.shown := S (QuestionEngine.shown st);
                    QuestionEngine.printed :=
                      QuestionEngine.printed st ++ [(S (QuestionEngine.shown st), id q)];
                    QuestionEngine.console := rest |}).
Proof.
  intros Hstep. destruct (presented_in q st) eqn:Hpres.
  - right. split; [ done | ]. by apply step_presented.
  - left. split; [ done | ]. rewrite (step_skipped q st Hpres) in Hstep. congruence.
Qed.

Lemma collect_answer_fits (q : Question) (inputs rest : list string) (a : answer) :
  QuestionEngine._collect_answer q inputs = Ok (a, rest) → answer_fits q a.
Proof.
  unfold QuestionEngine._collect_answer, answer_fits.
  destruct (qtype q).
  - destruct (QuestionEngine._ask_yes_no inputs) as [ [b r] | ]; simpl; [ | done ].
    by intros [= <- <-].
  - destruct (QuestionEngine._ask_choice (choices q) inputs) as [ [c r] | ] eqn:Hask;
      simpl; [ | done ].
    intros [= <- <-]. rewrite ask_choice_first in Hask.
    apply first_accepted_ok in Hask as (rejected & line & _ & _ & Hline).
    unfold choice_line in Hline.
    destruct (QuestionEngine.py_int (Str.strip line)) as [n | ]; simpl in Hline; [ | done ].
    by eapply select_elem_of.
  - destruct (QuestionEngine._ask_multi_choice (choices q) inputs) as [ [l r] | ] eqn:Hask;
      simpl; [ | done ].
    intros [= <- <-]. by apply ask_multi_choice_returns in Hask as (? & _).
  - destruct inputs as [ | line inputs ]; [ done | ].
    intros [= <- <-]. simpl.
    destruct (String.eqb_spec (Str.strip line) EmptyString) as [Heq | Hne]; simpl; done.
  - destruct (QuestionEngine._ask_number inputs) as [ [n r] | ]; simpl; [ | done ].
    by intros [= <- <-].
Qed.

Lemma answer_fits_kind (q : Question) (a : answer) :
  answer_fits q a → answer_has_kind (qtype q) a = true.
Proof. unfold answer_fits. by destruct (qtype q), a. Qed.

(** What a completed loop does to the store: an entry is either an old
    one, or the answer of a presented question of the right kind. *)
Lemma loop_entries (questions : list Question) (st st' : QuestionEngine.state) :
  QuestionEngine.loop questions st = Ok st' →
  QuestionEngine.console st' `suffix_of` QuestionEngine.console st
  ∧ (∀ k, k ∉ id <$> questions →
          QuestionEngine.answers st' !! k = QuestionEngine.answers st !! k)
  ∧ (∀ k, is_Some (QuestionEngine.answers st !! k) →
          is_Some (QuestionEngine.answers st' !! k))
  ∧ (∀ k a, QuestionEngine.answers st' !! k = Some a →
            QuestionEngine.answers st !! k = Some a
            ∨ ∃ q, q ∈ questions ∧ id q = k ∧ answer_fits q a)
  ∧ (∀ q, q ∈ questions → depends_on q = None →
          is_Some (QuestionEngine.answers st' !! id q)).
Proof.
  revert st. induction questions as [ | q questions IH ]; intros st; simpl.
  - intros [= <-]. repeat split; try done.
    + by left.
    + intros q Hq. by apply elem_of_nil in Hq.
  - destruct (QuestionEngine.step q st) as [st1 | e] eqn:Hstep; simpl; [ | done ].
    intros Hloop. destruct (IH st1 Hloop) as (Hsuf & Hstable & Hkeep & Hkind & Hnodep).
    assert (Hsuf1 : QuestionEngine.console st1 `suffix_of` QuestionEngine.console st).
    { destruct (step_cases q st st1 Hstep) as [ [_ ->] | (_ & a & rest & Hc & ->) ];
        [ done | ].
      simpl. by eapply collect_answer_suffix. }
    assert (Hkeep1 : ∀ k, is_Some (QuestionEngine.answers st !! k) →
                          is_Some (QuestionEngine.answers st1 !! k)).
    { intros k Hk.
      destruct (step_cases q st st1 Hstep) as [ [_ ->] | (_ & a & rest & Hc & ->) ];
        [ done | ].
      simpl. destruct (decide (id q = k)) as [<- | Hne].
      - rewrite lookup_insert_eq. by eexists.
      - by rewrite lookup_insert_ne. }
    split; [ by etrans | ].
    split.
    { intros k Hk. apply not_elem_of_cons in Hk as [Hne Hk].
      rewrite (Hstable k Hk).
      destruct (step_cases q st st1 Hstep) as [ [_ ->] | (_ & a & rest & Hc & ->) ];
        [ done | ].
      simpl. by rewrite lookup_insert_ne. }
    split; [ by auto | ].
    split.
    { intros k a Hk. destruct (Hkind k a Hk) as [ Hold | (q' & Hq' & Hid & Hk') ].
      - destruct (step_cases q st st1 Hstep) as [ [_ ->] | (_ & a' & rest & Hc & ->) ];
          [ by left | ].
        simpl in Hold. destruct (decide (id q = k)) as [<- | Hne].
        + rewrite lookup_insert_eq in Hold. injection Hold as ->.
          right. exists q. split; [ by left | ]. split; [ done | ].
          by eapply collect_answer_fits.
        + rewrite lookup_insert_ne in Hold by done. by left.
      - right. exists q'. split; [ by right | done ]. }
    intros q' Hq' Hnone. apply elem_of_cons in Hq' as [-> | Hq']; [ | by apply Hnodep ].
    apply Hkeep.
    destruct (step_cases q st st1 Hstep) as [ [Hskip _] | (_ & a & rest & Hc & ->) ].
    + unfold presented_in in Hskip. by rewrite Hnone in Hskip.
    + simpl. rewrite lookup_insert_eq. by eexists.
Qed.

Lemma NoDup_fmap_id_inj (questions : list Question) (q q' : Question) :
  NoDup (id <$> questions) → q ∈ questions → q' ∈ questions → id q = id q' → q = q'.
Proof.
  induction questions as [ | x questions IH ]; intros Hnodup Hq Hq' Hid.
  - by apply elem_of_nil in Hq.
  - rewrite fmap_cons in Hnodup. apply NoDup_cons in Hnodup as [Hx Hnodup].
    apply elem_of_cons in Hq as [-> | Hq]; apply elem_of_cons in Hq' as [-> | Hq'].
    + done.
    + exfalso. apply Hx. rewrite Hid. apply list_elem_of_fmap. by exists q'.
    + exfalso. apply Hx. rewrite <- Hid. apply list_elem_of_fmap. by exists q.
    + by apply IH.
Qed.

(** After a completed run every question without dependency has an entry,
    every entry belongs to a question of the catalog, the console left is
    a tail of the console given, and the counter of displayed questions is
    at most the number of questions.  In a catalog with unique ids the
    counter is the number of entries of the store. *)
Theorem run_bookkeeping (questions : list Question) (inputs : list string)
    (st : QuestionEngine.state) :
  QuestionEngine.run questions inputs = Ok st →
  QuestionEngine.console st `suffix_of` inputs
  ∧ (∀ q, q ∈ questions → depends_on q = None →
          is_Some (QuestionEngine.answers st !! id q))
  ∧ (∀ k, is_Some (QuestionEngine.answers st !! k) → k ∈ id <$> questions)
  ∧ (QuestionEngine.shown st ≤ length questions)%nat
  ∧ length (QuestionEngine.printed st) = QuestionEngine.shown st
  ∧ (NoDup (id <$> questions) → size (QuestionEngine.answers st) = QuestionEngine.shown st).
Proof.
  intros Hrun.
  destruct (loop_entries questions _ st Hrun) as (Hsuf & Hstable & _ & Hkind & Hnodep).
  destruct (run_progress questions inputs st Hrun) as (Hsub & Hnum & Hdom).
  assert (Hlen : length (QuestionEngine.printed st) = QuestionEngine.shown st).
  { rewrite <- (length_fmap fst), Hnum. apply length_seq. }
  split; [ exact Hsuf | ]. split; [ exact Hnodep | ].
  split.
  { intros k [a Ha]. destruct (Hkind k a Ha) as [ Hold | (q & Hq & <- & _) ].
    - simpl in Hold. by rewrite lookup_empty in Hold.
    - apply list_elem_of_fmap. by exists q. }
  split.
  { rewrite <- Hlen, <- (length_fmap snd), <- (length_fmap id questions).
    by apply sublist_length. }
  split; [ exact Hlen | ].
  intros Hnodup.
  assert (Hnd : NoDup (QuestionEngine.printed st).*2) by (by eapply sublist_NoDup).
  rewrite <- size_dom, Hdom, size_list_to_set by done.
  by rewrite length_fmap.
Qed.

Lemma run_bookkeeping_witness :
  QuestionEngine.console data_flow_denied `suffix_of` ["no"; "N"].
Proof.
  refine (proj1 (run_bookkeeping DATA_FLOW_QUESTIONS ["no"; "N"] data_flow_denied _)).
  vm_compute. reflexivity.
Defined.

(** In a completed run over a catalog with unique ids, every recorded
    answer fits its question: a boolean for a yes/no question, one of the
    labels for a choice, a list of labels for a multi-choice, [None] or a
    non-empty string for a free text, an integer for a number. *)
Theorem run_answers_fit (questions : list Question) (inputs : list string)
    (st : QuestionEngine.state) :
  NoDup (id <$> questions) →
  QuestionEngine.run questions inputs = Ok st →
  ∀ q a, q ∈ questions → QuestionEngine.answers st !! id q = Some a →
         answer_fits q a ∧ answer_has_kind (qtype q) a = true.
Proof.
  intros Hnodup Hrun q a Hq Ha.
  destruct (loop_entries questions _ st Hrun) as (_ & _ & _ & Hkind & _).
  destruct (Hkind _ a Ha) as [ Hold | (q' & Hq' & Hid & Hfits) ].
  - simpl in Hold. by rewrite lookup_empty in Hold.
  - rewrite (NoDup_fmap_id_inj questions q q' Hnodup Hq Hq' (eq_sym Hid)).
    split; [ done | by apply answer_fits_kind ].
Qed.

Lemma run_answers_fit_witness :
  answer_fits df_01_question (ABool false)
  ∧ answer_has_kind (qtype df_01_question) (ABool false) = true.
Proof.
  refine (run_answers_fit DATA_FLOW_QUESTIONS ["no"; "N"] data_flow_denied _ _
            df_01_question (ABool false) _ _).
  - apply (bool_decide_unpack (NoDup (id <$> DATA_FLOW_QUESTIONS))). vm_compute. exact I.
  - vm_compute. reflexivity.
  - apply (bool_decide_unpack (df_01_question ∈ DATA_FLOW_QUESTIONS)). vm_compute. exact I.
  - reflexivity.
Defined.

Lemma dependency_met_agree (answers answers' : gmap string answer) (d : string) (e : answer) :
  answers !! d = answers' !! d →
  QuestionEngine.dependency_met answers (d, e) = QuestionEngine.dependency_met answers' (d, e).
Proof.
  intros H. unfold QuestionEngine.dependency_met, Py.get, Py.get_or. by rewrite H.
Qed.

Lemma loop_certifies (questions : list Question) (st st' : QuestionEngine.state) :
  QuestionEngine.loop questions st = Ok st' →
  NoDup (id <$> questions) →
  deps_backward questions = true →
  (∀ k, is_Some (QuestionEngine.answers st !! k) → k ∉ id <$> questions) →
  ∀ q, q ∈ questions →
       is_Some (QuestionEngine.answers st' !! id q) ↔ presented_in q st' = true.
Proof.
  revert st. induction questions as [ | q questions IH ]; intros st Hloop Hnodup Hback Hold p Hp.
  { by apply elem_of_nil in Hp. }
  destruct (loop_entries (q :: questions) st st' Hloop) as (_ & Hstable & _).
  simpl in Hloop.
  destruct (QuestionEngine.step q st) as [st1 | e] eqn:Hstep; simpl in Hloop; [ | done ].
  destruct (loop_entries questions st1 st' Hloop) as (_ & Hstable1 & _).
  rewrite fmap_cons in Hnodup. apply NoDup_cons in Hnodup as [Hq Hnodup].
  simpl in Hback. apply andb_true_iff in Hback as [Hdep Hback].
  apply elem_of_cons in Hp as [-> | Hp].
  - (* the question of this turn *)
    assert (Hsame : presented_in q st' = presented_in q st).
    { unfold presented_in. destruct (depends_on q) as [ [d e] | ]; [ | done ].
      apply bool_decide_eq_true in Hdep.
      apply dependency_met_agree. by apply Hstable. }
    rewrite Hsame, (Hstable1 _ Hq).
    destruct (step_cases q st st1 Hstep) as [ [Hskip ->] | (Hpres & a & rest & _ & ->) ].
    + rewrite Hskip. split; [ | done ].
      intros Hsome. exfalso. apply (Hold _ Hsome). rewrite fmap_cons. by left.
    + rewrite Hpres. simpl. rewrite lookup_insert_eq. split; [ done | by eexists ].
  - (* a later question *)
    apply (IH st1); try done.
    intros k Hk Hin.
    destruct (step_cases q st st1 Hstep) as [ [_ ->] | (_ & a & rest & _ & ->) ].
    + apply (Hold k Hk). rewrite fmap_cons. by right.
    + simpl in Hk. destruct (decide (id q = k)) as [<- | Hne]; [ done | ].
      rewrite lookup_insert_ne in Hk by done.
      apply (Hold k Hk). rewrite fmap_cons. by right.
Qed.

(** In a catalog with unique ids whose dependencies point backwards, the
    store of a completed run certifies itself: a question has an entry
    exactly when it has no dependency or its dependency is met by the
    final store.  The four catalogs of the tool are of this kind. *)
Theorem run_store_certifies_itself (questions : list Question) (inputs : list string)
    (st : QuestionEngine.state) :
  NoDup (id <$> questions) →
  deps_backward questions = true →
  QuestionEngine.run questions inputs = Ok st →
  (∀ q, q ∈ questions →
        is_Some (QuestionEngine.answers st !! id q) ↔ presented_in q st = true)
  ∧ Forall (λ m : string * list Question, NoDup (id <$> m.2) ∧ deps_backward m.2 = true)
           MODULES.
Proof.
  intros Hnodup Hback Hrun. split.
  - intros q Hq. eapply loop_certifies; try done.
    intros k [a Ha]. simpl in Ha. by rewrite lookup_empty in Ha.
  - apply (bool_decide_unpack
             (Forall (λ m : string * list Question,
                        NoDup (id <$> m.2) ∧ deps_backward m.2 = true) MODULES)).
    vm_compute. exact I.
Qed.

Lemma run_store_certifies_itself_witness :
  is_Some (QuestionEngine.answers data_flow_denied !! "df_02")
  ↔ presented_in df_02_question data_flow_denied = true.
Proof.
  refine (proj1 (run_store_certifies_itself DATA_FLOW_QUESTIONS ["no"; "N"]
                   data_flow_denied _ _ _) df_02_question _).
  - apply (bool_decide_unpack (NoDup (id <$> DATA_FLOW_QUESTIONS))). vm_compute. exact I.
  - vm_compute. reflexivity.
  - vm_compute. reflexivity.
  - apply (bool_decide_unpack (df_02_question ∈ DATA_FLOW_QUESTIONS)). vm_compute. exact I.
Defined.

(** ** The flattened response store *)

Lemma flatten_snoc (responses : list (string * module_data)) (name : string)
    (data : module_data) :
  ScopeScorer.flatten (responses ++ [(name, data)])
  = match data with
    | MDict d => d ∪ ScopeScorer.flatten responses
    | MOther => ScopeScorer.flatten responses
    end.
Proof. unfold ScopeScorer.flatten. rewrite fold_left_app. by destruct data. Qed.

Lemma flatten_lookup_origin (responses : list (string * module_data)) k a :
  ScopeScorer.flatten responses !! k = Some a →
  ∃ name d, (name, MDict d) ∈ responses ∧ d !! k = Some a.
Proof.
  induction responses as [ | [name data] responses IH ] using rev_ind.
  - unfold ScopeScorer.flatten. simpl. intros H. by rewrite lookup_empty in H.
  - rewrite flatten_snoc. destruct data as [d | ].
    + intros H. apply lookup_union_Some_raw in H as [ H | [_ H] ].
      * exists name, d. split; [ | done ]. apply elem_of_app. right. by left.
      * destruct (IH H) as (n & d' & Hin & Hd). exists n, d'.
        split; [ | done ]. apply elem_of_app. by left.
    + intros H. destruct (IH H) as (n & d' & Hin & Hd). exists n, d'.
      split; [ | done ]. apply elem_of_app. by left.
Qed.

(** The scorer's flat store is built module by module: a module saved as
    a dict puts its answers over those of the modules before it (an id
    answered in two modules keeps the answer of the later one), a module
    saved as anything else is ignored, and every answer of the flat store
    is an answer of one of the saved dicts. *)
Theorem flatten_later_module_wins (responses : list (string * module_data))
    (name : string) (d : gmap string answer) :
  ScopeScorer.flatten [] = ∅
  ∧ ScopeScorer.flatten (responses ++ [(name, MDict d)]) = d ∪ ScopeScorer.flatten responses
  ∧ ScopeScorer.flatten (responses ++ [(name, MOther)]) = ScopeScorer.flatten responses
  ∧ (∀ k, ScopeScorer.flatten (responses ++ [(name, MDict d)]) !! k
          = match d !! k with
            | Some a => Some a
            | None => ScopeScorer.flatten responses !! k
            end)
  ∧ (∀ k a, ScopeScorer.flatten responses !! k = Some a →
            ∃ name' d', (name', MDict d') ∈ responses ∧ d' !! k = Some a)
  ∧ ScopeScorer.flat (ScopeScorer.init responses) = ScopeScorer.flatten responses.
Proof.
  split; [ done | ].
  split; [ apply (flatten_snoc responses name (MDict d)) | ].
  split; [ apply (flatten_snoc responses name MOther) | ].
  split.
  { intros k. rewrite (flatten_snoc responses name (MDict d)), lookup_union.
    destruct (d !! k), (ScopeScorer.flatten responses !! k); done. }
  split; [ apply flatten_lookup_origin | done ].
Qed.

(** ** The assessment orchestrator *)

Lemma ask_raise (required : bool) (console : list string) (e : exn) :
  ScopingAssessment._ask required console = Raise e → e = EOFError.
Proof. rewrite ask_first. intros H. by apply first_accepted_raise in H as [-> _]. Qed.

(** [_ask] on a required field: the stripped text of the first line that
    is not blank. *)
Lemma ask_required (console rest : list string) (val : string) :
  ScopingAssessment._ask true console = Ok (val, rest)
  ↔ ∃ blank line,
      console = blank ++ line :: rest
      ∧ Forall (λ l, Str.strip l = EmptyString) blank
      ∧ val = Str.strip line ∧ val ≠ EmptyString.
Proof.
  assert (Hline : ∀ l, ask_line true l = None ↔ Str.strip l = EmptyString).
  { intros l. unfold ask_line. simpl. rewrite orb_false_r.
    destruct (String.eqb_spec (Str.strip l) EmptyString); simpl; split; congruence. }
  assert (Hsome : ∀ l v, ask_line true l = Some v ↔ v = Str.strip l ∧ v ≠ EmptyString).
  { intros l v. unfold ask_line. simpl. rewrite orb_false_r.
    destruct (String.eqb_spec (Str.strip l) EmptyString) as [Heq | Hne]; simpl.
    - split; [ done | ]. intros [-> H]. done.
    - split; [ by intros [= <-] | by intros [-> _] ]. }
  rewrite ask_first, first_accepted_ok. split.
  - intros (blank & line & -> & Hblank & Hacc). exists blank, line.
    apply Hsome in Hacc as [-> Hne]. repeat split; try done.
    eapply Forall_impl; [ exact Hblank | ]. intros l. apply Hline.
  - intros (blank & line & -> & Hblank & -> & Hne). exists blank, line.
    split; [ done | ]. split.
    + eapply Forall_impl; [ exact Hblank | ]. intros l. apply Hline.
    + by apply Hsome.
Qed.

(** [_ask] on an optional field: the stripped text of the next line. *)
Lemma ask_optional (console : list string) :
  ScopingAssessment._ask false console
  = match console with
    | [] => Raise EOFError
    | line :: rest => Ok (Str.strip line, rest)
    end.
Proof. destruct console as [ | line rest ]; simpl; [ done | ]. by rewrite orb_true_r. Qed.

Lemma collect_metadata_frame (self self' : ScopingAssessment.t)
    (console console' : list string) (o : option exn) :
  ScopingAssessment._collect_metadata self console = (self', console', o) →
  (o = None ∨ o = Some EOFError)
  ∧ ScopingAssessment.responses self' = ScopingAssessment.responses self
  ∧ ScopingAssessment.disk self' = ScopingAssessment.disk self
  ∧ (o = Some EOFError → console' = []).
Proof.
  unfold ScopingAssessment._collect_metadata.
  destruct (ScopingAssessment._ask true console) as [ [org c1] | e1 ] eqn:H1.
  2:{ intros [= <- <- <-]. by rewrite (ask_raise _ _ _ H1); auto. }
  destruct (ScopingAssessment._ask false c1) as [ [cage c2] | e2 ] eqn:H2.
  2:{ intros [= <- <- <-]. by rewrite (ask_raise _ _ _ H2); auto. }
  destruct (ScopingAssessment._ask true c2) as [ [assessor c3] | e3 ] eqn:H3.
  2:{ intros [= <- <- <-]. by rewrite (ask_raise _ _ _ H3); auto. }
  destruct (ScopingAssessment._ask false c3) as [ [contract c4] | e4 ] eqn:H4.
  2:{ intros [= <- <- <-]. by rewrite (ask_raise _ _ _ H4); auto. }
  intros [= <- <- <-]. simpl. split; [ by left | ]. repeat split; done.
Qed.

(** The metadata questions.  On a console that offers, after any number
    of blank lines, a line that is not blank, then a line, then again
    after blank lines a line that is not blank, and a further line, the
    four fields are set to the stripped text of these four lines and the
    rest of the console is left unread; the questions complete on no other
    console.  So the organization and the assessor are never empty and
    carry no blank at either end, while the CAGE code and the contract
    reference may be empty.  No other key of the metadata is touched, the
    responses and the output file are as before, and the questions can
    only fail with [EOFError], on an exhausted console. *)
Theorem metadata_required_fields (self : ScopingAssessment.t) (console : list string) :
  (∀ blank1 line1 line2 blank3 line3 line4 rest,
     console = blank1 ++ line1 :: line2 :: blank3 ++ line3 :: line4 :: rest →
     Forall (λ l, Str.strip l = EmptyString) blank1 →
     Forall (λ l, Str.strip l = EmptyString) blank3 →
     Str.strip line1 ≠ EmptyString →
     Str.strip line3 ≠ EmptyString →
     ScopingAssessment._collect_metadata self console
     = (ScopingAssessment.set_metadata "contract_ref" (Str.strip line4)
          (ScopingAssessment.set_metadata "assessor" (Str.strip line3)
             (ScopingAssessment.set_metadata "cage_code" (Str.strip line2)
                (ScopingAssessment.set_metadata "organization" (Str.strip line1) self))),
        rest, None))
  ∧ (∀ self' console' o,
       ScopingAssessment._collect_metadata self console = (self', console', o) →
       (o = None ∨ o = Some EOFError)
       ∧ (o = Some EOFError → console' = [])
       ∧ ScopingAssessment.responses self' = ScopingAssessment.responses self
       ∧ ScopingAssessment.disk self' = ScopingAssessment.disk self
       ∧ (∀ k, k ∉ ["organization"; "cage_code"; "assessor"; "contract_ref"] →
               ScopingAssessment.metadata self' !! k = ScopingAssessment.metadata self !! k)
       ∧ (o = None →
          ∃ blank1 line1 line2 blank3 line3 line4,
            console = blank1 ++ line1 :: line2 :: blank3 ++ line3 :: line4 :: console'
            ∧ Forall (λ l, Str.strip l = EmptyString) blank1
            ∧ Forall (λ l, Str.strip l = EmptyString) blank3
            ∧ Str.strip line1 ≠ EmptyString
            ∧ Str.strip line3 ≠ EmptyString
            ∧ ScopingAssessment.metadata self'
              = <["contract_ref" := AStr (Str.strip line4)]>
                  (<["assessor" := AStr (Str.strip line3)]>
                     (<["cage_code" := AStr (Str.strip line2)]>
                        (<["organization" := AStr (Str.strip line1)]>
                           (ScopingAssessment.metadata self))))
            ∧ Forall (λ line, starts_with_space (Str.strip line) = false
                              ∧ ends_with_space (Str.strip line) = false)
                     [line1; line2; line3; line4])).
Proof.
  split.
  - intros blank1 line1 line2 blank3 line3 line4 rest -> Hb1 Hb3 Hn1 Hn3.
    unfold ScopingAssessment._collect_metadata.
    rewrite (proj2 (ask_required _ (line2 :: blank3 ++ line3 :: line4 :: rest) (Str.strip line1)))
      by (by exists blank1, line1).
    rewrite ask_optional.
    rewrite (proj2 (ask_required _ (line4 :: rest) (Str.strip line3)))
      by (by exists blank3, line3).
    by rewrite ask_optional.
  - intros self' console' o Hrun.
    destruct (collect_metadata_frame _ _ _ _ _ Hrun) as (Ho & Hresp & Hdisk & Heof).
    split; [ done | ]. split; [ done | ]. split; [ done | ]. split; [ done | ].
    revert Hrun. unfold ScopingAssessment._collect_metadata.
    destruct (ScopingAssessment._ask true console) as [ [org c1] | e1 ] eqn:H1.
    2:{ intros [= <- <- <-]. split; [ done | ]. by intros [=]. }
    destruct (ScopingAssessment._ask false c1) as [ [cage c2] | e2 ] eqn:H2.
    2:{ intros [= <- <- <-]. split; [ | by intros [=] ].
        intros k Hk. simpl. apply lookup_insert_ne. intros <-. apply Hk.
        apply list_elem_of_In. simpl. tauto. }
    destruct (ScopingAssessment._ask true c2) as [ [assessor c3] | e3 ] eqn:H3.
    2:{ intros [= <- <- <-]. split; [ | by intros [=] ].
        intros k Hk. simpl.
        rewrite !lookup_insert_ne; [ done | | ]; intros <-; apply Hk;
          apply list_elem_of_In; simpl; tauto. }
    destruct (ScopingAssessment._ask false c3) as [ [contract c4] | e4 ] eqn:H4.
    2:{ intros [= <- <- <-]. split; [ | by intros [=] ].
        intros k Hk. simpl.
        rewrite !lookup_insert_ne; [ done | | | ]; intros <-; apply Hk;
          apply list_elem_of_In; simpl; tauto. }
    intros [= <- <- <-]. split.
    { intros k Hk. simpl.
      rewrite !lookup_insert_ne; [ done | | | | ]; intros <-; apply Hk;
        apply list_elem_of_In; simpl; tauto. }
    intros _.
    apply ask_required in H1 as (blank1 & line1 & -> & Hb1 & -> & Hn1).
    rewrite ask_optional in H2. destruct c1 as [ | line2 c1 ]; [ done | ].
    injection H2 as <- <-.
    apply ask_required in H3 as (blank3 & line3 & -> & Hb3 & -> & Hn3).
    rewrite ask_optional in H4. destruct c3 as [ | line4 c3 ]; [ done | ].
    injection H4 as <- <-.
    exists blank1, line1, line2, blank3, line3, line4.
    repeat (split; [ done | ]).
    repeat (apply Forall_cons; split); try solve [constructor];
      match goal with
      | |- context [Str.strip ?l] =>
          destruct (strip_decompose l) as (pre & post & _ & _ & _ & Hs & He); by rewrite Hs, He
      end.
Qed.

Lemma metadata_required_fields_witness :
  ScopingAssessment._collect_metadata (ScopingAssessment.init "2025-01-01T00:00:00")
    [EmptyString; "   "; " Acme Corp "; EmptyString; "J. Doe"; "FA-1 "; "1"]
  = ({| ScopingAssessment.metadata :=
          {[ "tool_version" := AStr "1.0.0";
             "assessment_date" := AStr "2025-01-01T00:00:00";
             "organization" := AStr "Acme Corp";
             "assessor" := AStr "J. Doe";
             "cage_code" := AStr EmptyString;
             "contract_ref" := AStr "FA-1" ]};
        ScopingAssessment.responses := [];
        ScopingAssessment.disk := None |},
     ["1"], None).
Proof.
  refine (eq_trans
            (proj1 (metadata_required_fields (ScopingAssessment.init "2025-01-01T00:00:00")
                      [EmptyString; "   "; " Acme Corp "; EmptyString; "J. Doe"; "FA-1 "; "1"])
               [EmptyString; "   "] " Acme Corp " EmptyString [] "J. Doe" "FA-1 " ["1"]
               eq_refl _ _ _ _) _).
  - repeat constructor.
  - constructor.
  - vm_compute. discriminate.
  - vm_compute. discriminate.
  - vm_compute. reflexivity.
Defined.

Lemma collect_answer_raises_EOFError (q : Question) (inputs : list string) (e : exn) :
  QuestionEngine._collect_answer q inputs = Raise e → e = EOFError.
Proof.
  unfold QuestionEngine._collect_answer. destruct (qtype q).
  - rewrite ask_yes_no_first.
    destruct (first_accepted _ _) as [ [] | e2 ] eqn:Hf; simpl; [ done | ].
    intros [= <-]. by apply first_accepted_raise in Hf as [-> _].
  - rewrite ask_choice_first.
    destruct (first_accepted _ _) as [ [] | e2 ] eqn:Hf; simpl; [ done | ].
    intros [= <-]. by apply first_accepted_raise in Hf as [-> _].
  - rewrite ask_multi_choice_first.
    destruct (first_accepted _ _) as [ [] | e2 ] eqn:Hf; simpl; [ done | ].
    intros [= <-]. by apply first_accepted_raise in Hf as [-> _].
  - destruct inputs; [ | done ]. by intros [= <-].
  - rewrite ask_number_first.
    destruct (first_accepted _ _) as [ [] | e2 ] eqn:Hf; simpl; [ done | ].
    intros [= <-]. by apply first_accepted_raise in Hf as [-> _].
Qed.

Lemma loop_raises_EOFError (questions : list Question) (st : QuestionEngine.state) (e : exn) :
  QuestionEngine.loop questions st = Raise e → e = EOFError.
Proof.
  revert st. induction questions as [ | q questions IH ]; intros st; simpl; [ done | ].
  destruct (QuestionEngine.step q st) as [st1 | e1] eqn:Hstep; simpl; [ apply IH | ].
  intros [= <-]. unfold QuestionEngine.step in Hstep.
  destruct (match depends_on q with Some _ => _ | None => _ end); [ done | ].
  destruct (QuestionEngine._collect_answer q (QuestionEngine.console st))
    as [ [a rest] | e2 ] eqn:Hc; simpl in Hstep; [ done | ].
  injection Hstep as <-. by eapply collect_answer_raises_EOFError.
Qed.

Lemma run_raises_EOFError (questions : list Question) (inputs : list string) (e : exn) :
  QuestionEngine.run questions inputs = Raise e → e = EOFError.
Proof. apply loop_raises_EOFError. Qed.

Lemma first_accepted_more {A} (accept : string → option A) (inputs rest more : list string) a :
  first_accepted accept inputs = Ok (a, rest) →
  first_accepted accept (inputs ++ more) = Ok (a, rest ++ more).
Proof.
  induction inputs as [ | line inputs IH ]; simpl; [ done | ].
  destruct (accept line); [ by intros [= -> ->] | apply IH ].
Qed.

Lemma collect_answer_more (q : Question) (inputs rest more : list string) (a : answer) :
  QuestionEngine._collect_answer q inputs = Ok (a, rest) →
  QuestionEngine._collect_answer q (inputs ++ more) = Ok (a, rest ++ more).
Proof.
  unfold QuestionEngine._collect_answer. destruct (qtype q).
  - rewrite !ask_yes_no_first.
    destruct (first_accepted _ inputs) as [ [b r] | ] eqn:Hf; simpl; [ | done ].
    intros [= <- <-]. by rewrite (first_accepted_more _ _ _ more _ Hf).
  - rewrite !ask_choice_first.
    destruct (first_accepted _ inputs) as [ [b r] | ] eqn:Hf; simpl; [ | done ].
    intros [= <- <-]. by rewrite (first_accepted_more _ _ _ more _ Hf).
  - rewrite !ask_multi_choice_first.
    destruct (first_accepted _ inputs) as [ [b r] | ] eqn:Hf; simpl; [ | done ].
    intros [= <- <-]. by rewrite (first_accepted_more _ _ _ more _ Hf).
  - destruct inputs as [ | line inputs ]; [ done | ]. by intros [= <- <-].
  - rewrite !ask_number_first.
    destruct (first_accepted _ inputs) as [ [b r] | ] eqn:Hf; simpl; [ | done ].
    intros [= <- <-]. by rewrite (first_accepted_more _ _ _ more _ Hf).
Qed.

Lemma loop_more (questions : list Question) (st st' : QuestionEngine.state)
    (more : list string) :
  QuestionEngine.loop questions st = Ok st' →
  QuestionEngine.loop questions (with_more more st) = Ok (with_more more st').
Proof.
  revert st. induction questions as [ | q questions IH ]; intros st; simpl.
  - by intros [= <-].
  - destruct (QuestionEngine.step q st) as [st1 | e] eqn:Hstep; simpl; [ | done ].
    intros Hloop.
    assert (Hstep' : QuestionEngine.step q (with_more more st) = Ok (with_more more st1)).
    { destruct (step_cases q st st1 Hstep) as [ [Hskip ->] | (Hpres & a & rest & Hc & ->) ].
      - by apply step_skipped.
      - unfold QuestionEngine.step.
        unfold presented_in in Hpres. simpl.
        destruct (depends_on q); [ rewrite Hpres | ]; simpl;
          by rewrite (collect_answer_more _ _ _ more _ Hc). }
    rewrite Hstep'. simpl. by apply IH.
Qed.

(** The engine leaves the rest of the console alone: when a run completes
    on a console, it completes with the same answers, numbers and counter
    on that console followed by more lines, and the extra lines are left
    unread for what comes next.  A run that does not complete ends with
    [EOFError], never with another exception. *)
Theorem run_leaves_later_lines (questions : list Question) (inputs : list string)
    (st : QuestionEngine.state) :
  QuestionEngine.run questions inputs = Ok st →
  (∀ more, QuestionEngine.run questions (inputs ++ more) = Ok (with_more more st))
  ∧ (∀ inputs' e, QuestionEngine.run questions inputs' = Raise e → e = EOFError).
Proof.
  intros Hrun. split.
  - intros more. by apply (loop_more questions (QuestionEngine.init inputs) st more).
  - intros inputs' e. apply run_raises_EOFError.
Qed.

Lemma run_leaves_later_lines_witness :
  QuestionEngine.run DATA_FLOW_QUESTIONS (["no"; "N"] ++ ["y"])
  = Ok (with_more ["y"] data_flow_denied).
Proof.
  refine (proj1 (run_leaves_later_lines DATA_FLOW_QUESTIONS ["no"; "N"] data_flow_denied _)
            ["y"]).
  vm_compute. reflexivity.
Defined.

(** What the loop over the modules does. *)
Lemma run_modules_spec (modules : list (string * list Question)) (self self' : ScopingAssessment.t)
    (console console' : list string) (o : option exn) :
  ScopingAssessment.run_modules modules self console = (self', console', o) →
  ∃ new,
    ScopingAssessment.responses self' = ScopingAssessment.responses self ++ new
    ∧ ScopingAssessment.metadata self' = ScopingAssessment.metadata self
    ∧ new.*1 `sublist_of` modules.*1
    ∧ (∀ key, key ∈ new.*1 → key ∉ (ScopingAssessment.responses self).*1)
    ∧ Forall (entry_of_run modules) new
    ∧ (new = [] → self' = self)
    ∧ (new ≠ [] →
       ScopingAssessment.disk self'
       = Some {| ck_metadata := ScopingAssessment.metadata self';
                 ck_responses := ScopingAssessment.responses self' |})
    ∧ (o = None →
       console' `suffix_of` console
       ∧ ∀ key, key ∈ modules.*1 → key ∈ (ScopingAssessment.responses self').*1)
    ∧ (o ≠ None → o = Some EOFError ∧ console' = []).
Proof.
  revert self console.
  induction modules as [ | [key questions] modules IH ]; intros self console; simpl.
  - intros [= <- <- <-]. exists []. rewrite app_nil_r.
    split; [ done | ]. split; [ done | ]. split; [ constructor | ].
    split; [ intros k Hk; by apply elem_of_nil in Hk | ].
    split; [ constructor | ]. split; [ done | ]. split; [ done | ].
    split; [ | done ]. intros _. split; [ done | ].
    intros k Hk. by apply elem_of_nil in Hk.
  - assert (Hweaken : ∀ entry, entry_of_run modules entry →
                               entry_of_run ((key, questions) :: modules) entry).
    { intros entry (qs & inputs & st & Hin & Hrun & Hd).
      exists qs, inputs, st. split; [ by right | done ]. }
    case_bool_decide as Hloaded.
    + intros Hrun.
      destruct (IH self console Hrun)
        as (new & Hresp & Hmeta & Hsub & Hfresh & Hruns & Hnil & Hdisk & Hdone & Hfail).
      exists new. split; [ done | ]. split; [ done | ].
      split; [ by apply sublist_cons | ]. split; [ done | ].
      split; [ by eapply Forall_impl | ]. split; [ done | ]. split; [ done | ].
      split; [ | done ].
      intros Ho. destruct (Hdone Ho) as [Hsuf Hall]. split; [ done | ].
      intros k Hk. apply elem_of_cons in Hk as [-> | Hk]; [ | by apply Hall ].
      rewrite Hresp, fmap_app. apply elem_of_app. by left.
    + destruct (QuestionEngine.run questions console) as [st | e] eqn:Hengine.
      2:{ intros [= <- <- <-]. exists []. rewrite app_nil_r.
          split; [ done | ]. split; [ done | ]. split; [ apply sublist_nil_l | ].
          split; [ intros k Hk; by apply elem_of_nil in Hk | ].
          split; [ constructor | ]. split; [ done | ]. split; [ done | ].
          split; [ done | ]. intros _. split; [ | done ].
          by rewrite (run_raises_EOFError _ _ _ Hengine). }
      intros Hrun.
      destruct (IH _ _ Hrun)
        as (new & Hresp & Hmeta & Hsub & Hfresh & Hruns & Hnil & Hdisk & Hdone & Hfail).
      simpl in Hresp, Hmeta, Hfresh.
      exists ((key, MDict (QuestionEngine.answers st)) :: new).
      split; [ by rewrite Hresp, <- app_assoc | ]. split; [ done | ].
      split; [ rewrite fmap_cons; by apply sublist_skip | ].
      split.
      { intros k Hk. rewrite fmap_cons in Hk. apply elem_of_cons in Hk as [-> | Hk].
        - done.
        - intros Hin. apply (Hfresh k Hk). rewrite fmap_app. apply elem_of_app. by left. }
      split.
      { constructor; [ | by eapply Forall_impl ].
        exists questions, console, st. split; [ by left | done ]. }
      split; [ done | ].
      split.
      { intros _. destruct new as [ | entry new ].
        - rewrite (Hnil eq_refl). done.
        - by apply Hdisk. }
      split; [ | done ].
      intros Ho. destruct (Hdone Ho) as [Hsuf Hall].
      split.
      { etrans; [ exact Hsuf | ].
        destruct (loop_entries questions _ st Hengine) as [Hs _]. exact Hs. }
      intros k Hk. apply elem_of_cons in Hk as [-> | Hk]; [ | by apply Hall ].
      rewrite Hresp, !fmap_app. apply elem_of_app. left. apply elem_of_app. right. by left.
Qed.

(** Resuming works module by module.  The loop over the modules leaves
    every loaded entry as it is and in its place, runs only the modules
    whose key is not loaded and puts their answers after the loaded
    entries, in module order, each being the store of a completed run of
    the engine on the questions of that module.  When every module key is
    loaded the loop reads no line and changes nothing.  When the loop
    completes, every module has an entry. *)
Theorem resume_skips_loaded_modules (modules : list (string * list Question))
    (self self' : ScopingAssessment.t) (console console' : list string) (o : option exn) :
  ScopingAssessment.run_modules modules self console = (self', console', o) →
  (∃ new,
     ScopingAssessment.responses self' = ScopingAssessment.responses self ++ new
     ∧ new.*1 `sublist_of` modules.*1
     ∧ (∀ key, key ∈ new.*1 → key ∉ (ScopingAssessment.responses self).*1)
     ∧ Forall (entry_of_run modules) new)
  ∧ ScopingAssessment.metadata self' = ScopingAssessment.metadata self
  ∧ ((∀ key, key ∈ modules.*1 → key ∈ (ScopingAssessment.responses self).*1) →
     self' = self ∧ console' = console ∧ o = None)
  ∧ (o = None →
     console' `suffix_of` console
     ∧ ∀ key, key ∈ modules.*1 → key ∈ (ScopingAssessment.responses self').*1).
Proof.
  intros Hrun.
  destruct (run_modules_spec modules self self' console console' o Hrun)
    as (new & Hresp & Hmeta & Hsub & Hfresh & Hruns & Hnil & Hdisk & Hdone & Hfail).
  split; [ by exists new | ]. split; [ done | ]. split; [ | done ].
  intros Hall. clear - Hrun Hall.
  revert Hrun. induction modules as [ | [key questions] modules IH ]; simpl.
  - by intros [= <- <- <-].
  - rewrite bool_decide_eq_true_2 by (apply Hall; rewrite fmap_cons; by left).
    apply IH. intros k Hk. apply Hall. rewrite fmap_cons. by right.
Qed.

Lemma resume_skips_loaded_modules_witness :
  "boundary" ∈ (ScopingAssessment.responses modules_outcome.1.1).*1.
Proof.
  refine (proj2 (proj2 (proj2 (proj2 (resume_skips_loaded_modules MODULES
            metadata_outcome.1.1 modules_outcome.1.1
            (drop 5 complete_console) modules_outcome.1.2 modules_outcome.2 _))) _)
            "boundary" _).
  - vm_compute. reflexivity.
  - reflexivity.
  - apply list_elem_of_In. simpl. tauto.
Defined.

(** The output file follows the modules.  Once the loop over the modules
    has run a module, the file holds the metadata and all responses the
    object holds; when no module was run the object and the file are as
    before.  A loop that does not complete ended with
    [EOFError] on an exhausted console, and the file then holds every
    module completed before. *)
Theorem autosave_follows_modules (modules : list (string * list Question))
    (self self' : ScopingAssessment.t) (console console' : list string) (o : option exn) :
  ScopingAssessment.run_modules modules self console = (self', console', o) →
  (ScopingAssessment.responses self' = ScopingAssessment.responses self → self' = self)
  ∧ (ScopingAssessment.responses self' ≠ ScopingAssessment.responses self →
     ScopingAssessment.disk self'
     = Some {| ck_metadata := ScopingAssessment.metadata self';
               ck_responses := ScopingAssessment.responses self' |})
  ∧ (o ≠ None → o = Some EOFError ∧ console' = []).
Proof.
  intros Hrun.
  destruct (run_modules_spec modules self self' console console' o Hrun)
    as (new & Hresp & Hmeta & Hsub & Hfresh & Hruns & Hnil & Hdisk & Hdone & Hfail).
  split; [ | split; [ | done ] ].
  - intros Heq. apply Hnil. rewrite Heq in Hresp.
    destruct new; [ done | ].
    apply (f_equal length) in Hresp. rewrite length_app in Hresp. simpl in Hresp. lia.
  - intros Hne. apply Hdisk. intros ->. apply Hne. by rewrite Hresp, app_nil_r.
Qed.

Lemma autosave_follows_modules_witness :
  ScopingAssessment.disk interrupted_outcome.1.1
  = Some {| ck_metadata := ScopingAssessment.metadata interrupted_outcome.1.1;
            ck_responses := ScopingAssessment.responses interrupted_outcome.1.1 |}.
Proof.
  refine (proj1 (proj2 (autosave_follows_modules MODULES
                          metadata_outcome.1.1 interrupted_outcome.1.1
                          (drop 5 (take 18 complete_console)) interrupted_outcome.1.2
                          (Some EOFError) _)) _).
  - vm_compute. reflexivity.
  - vm_compute. discriminate.
Defined.

Lemma sublist_same_length {A} (l1 l2 : list A) :
  l1 `sublist_of` l2 → (length l2 ≤ length l1)%nat → l1 = l2.
Proof.
  induction 1 as [ | x l1 l2 _ IH | x l1 l2 Hsub _ ]; simpl; intros Hlen.
  - done.
  - f_equal. apply IH. lia.
  - apply sublist_length in Hsub. lia.
Qed.

Lemma module_questions_in_catalog (name : string) (questions : list Question) (q : Question) :
  (name, questions) ∈ MODULES → q ∈ questions → q ∈ ALL_QUESTIONS.
Proof.
  intros Hm Hq. unfold ALL_QUESTIONS.
  apply list_elem_of_In, in_concat. exists questions.
  split; [ | by apply list_elem_of_In ].
  apply in_map_iff. exists (name, questions). split; [ done | by apply list_elem_of_In ].
Qed.

Lemma catalog_ids_unique : NoDup (id <$> ALL_QUESTIONS).
Proof.
  apply (bool_decide_unpack (NoDup (id <$> ALL_QUESTIONS))). vm_compute. exact I.
Qed.

Lemma entries_of_runs_well_typed (new : list (string * module_data)) :
  Forall (entry_of_run MODULES) new → well_typed (ScopeScorer.flatten new).
Proof.
  intros Hruns q a Hq Hlook.
  apply flatten_lookup_origin in Hlook as (name & d & Hin & Hd).
  rewrite Forall_forall in Hruns.
  destruct (Hruns _ Hin) as (questions & inputs & st & Hm & Hrun & Hdict).
  simpl in Hm, Hdict. injection Hdict as ->.
  destruct (loop_entries questions _ st Hrun) as (_ & _ & _ & Hkind & _).
  destruct (Hkind _ a Hd) as [ Hold | (q' & Hq' & Hid & Hfits) ].
  - simpl in Hold. by rewrite lookup_empty in Hold.
  - assert (Hq'all : q' ∈ ALL_QUESTIONS) by (by eapply module_questions_in_catalog).
    rewrite (NoDup_fmap_id_inj ALL_QUESTIONS q q' catalog_ids_unique Hq Hq'all (eq_sym Hid)).
    by apply answer_fits_kind.
Qed.

(** A fresh assessment can only end with [EOFError], when the console is
    exhausted: the scoring never raises on the answers the engine has
    collected.  When it reaches the score, the responses hold the four
    modules in order, the flattened store has every answer of the type of
    its question, the score is the one of that store, and the output file
    already holds the metadata and the four modules. *)
Theorem fresh_assessment_scores (now : string) (console console' : list string)
    (self' : ScopingAssessment.t) (r : result Derived) :
  ScopingAssessment.run None (ScopingAssessment.init now) console = (self', console', r) →
  (∀ e, r = Raise e → e = EOFError)
  ∧ (∀ score, r = Ok score →
     (ScopingAssessment.responses self').*1 = MODULES.*1
     ∧ well_typed (ScopeScorer.flatten (ScopingAssessment.responses self'))
     ∧ ScopeScorer.calculate (ScopeScorer.flatten (ScopingAssessment.responses self'))
       = Ok score
     ∧ ScopingAssessment.disk self'
       = Some {| ck_metadata := ScopingAssessment.metadata self';
                 ck_responses := ScopingAssessment.responses self' |}).
Proof.
  unfold ScopingAssessment.run.
  destruct console as [ | enter console ].
  { intros [= <- <- <-]. split; [ by intros e [= <-] | done ]. }
  destruct (ScopingAssessment._collect_metadata (ScopingAssessment.init now) console)
    as [ [self1 c1] o1 ] eqn:Hmeta.
  destruct (collect_metadata_frame _ _ _ _ _ Hmeta) as (Ho1 & Hresp1 & Hdisk1 & _).
  destruct o1 as [e1 | ].
  { intros [= <- <- <-]. destruct Ho1 as [ [=] | [= ->] ].
    split; [ by intros e [= <-] | done ]. }
  destruct (ScopingAssessment.run_modules MODULES self1 c1) as [ [self2 c2] o2 ] eqn:Hmods.
  destruct (run_modules_spec MODULES self1 self2 c1 c2 o2 Hmods)
    as (new & Hresp & Hmd & Hsub & Hfresh & Hruns & Hnil & Hdisk & Hdone & Hfail).
  rewrite Hresp1 in Hresp. simpl in Hresp.
  destruct o2 as [e2 | ].
  { intros [= <- <- <-]. destruct (Hfail ltac:(done)) as [ [= ->] _].
    split; [ by intros e [= <-] | done ]. }
  assert (Hwt : well_typed (ScopeScorer.flatten (ScopingAssessment.responses self2))).
  { rewrite Hresp. by apply entries_of_runs_well_typed. }
  pose proof (proj2 (calculate_ok_iff _) (well_typed_scorable _ Hwt)) as Hok.
  unfold ScopingAssessment._finalize. simpl.
  intros [= <- <- <-].
  destruct (ScopeScorer.calculate (ScopeScorer.flatten (ScopingAssessment.responses self2)))
    as [score | e] eqn:Hscore; [ | destruct Hok ].
  split; [ done | ]. intros score' [= <-].
  destruct (Hdone eq_refl) as [_ Hall].
  assert (Hkeys : new.*1 = MODULES.*1).
  { rewrite Hresp in Hall.
    apply sublist_same_length; [ done | ].
    apply submseteq_length, NoDup_submseteq; [ | done ].
    refine (bool_decide_unpack _ _). vm_compute. exact I. }
  split; [ by rewrite Hresp | ]. split; [ done | ]. split; [ done | ].
  apply Hdisk. intros ->. discriminate Hkeys.
Qed.

Lemma fresh_assessment_scores_witness :
  (ScopingAssessment.responses complete_outcome.1.1).*1 = MODULES.*1.
Proof.
  refine (proj1 (proj2 (fresh_assessment_scores "2025-01-01T00:00:00"
            complete_console complete_outcome.1.2 complete_outcome.1.1
            complete_outcome.2 _) complete_score _)).
  - vm_compute. reflexivity.
  - reflexivity.
Defined.

(** In a catalog with unique ids whose dependencies point backwards and
    expect the boolean answer of a yes/no question, as in the four
    catalogs of the tool, a completed run has an entry for a dependent
    question exactly when the question it depends on was answered with
    the expected boolean. *)
Theorem boolean_dependencies_exact (questions : list Question) (inputs : list string)
    (st : QuestionEngine.state) :
  NoDup (id <$> questions) →
  deps_backward questions = true →
  yes_no_deps questions = true →
  QuestionEngine.run questions inputs = Ok st →
  (∀ q d e, q ∈ questions → depends_on q = Some (d, e) →
     (is_Some (QuestionEngine.answers st !! id q)
      ↔ QuestionEngine.answers st !! d = Some e))
  ∧ Forall (λ m : string * list Question, yes_no_deps m.2 = true) MODULES.
Proof.
  intros Hnodup Hback Hyn Hrun. split.
  2:{ refine (bool_decide_unpack _ _). vm_compute. exact I. }
  intros q d e Hq Hdep.
  assert (Hinit : ∀ k, is_Some (QuestionEngine.answers (QuestionEngine.init inputs) !! k) →
                       k ∉ id <$> questions).
  { intros k [a Ha]. simpl in Ha. by rewrite lookup_empty in Ha. }
  rewrite (loop_certifies questions _ st Hrun Hnodup Hback Hinit q Hq).
  unfold presented_in. rewrite Hdep.
  unfold yes_no_deps in Hyn. rewrite forallb_forall in Hyn.
  specialize (Hyn q (proj1 (list_elem_of_In _ _) Hq)). rewrite Hdep in Hyn.
  destruct e as [ | b | | | ]; try done.
  apply existsb_exists in Hyn as (qd & Hqd & Hcheck).
  apply andb_true_iff in Hcheck as [Hid Hkind].
  apply String.eqb_eq in Hid. apply bool_decide_eq_true in Hkind.
  apply list_elem_of_In in Hqd.
  rewrite dependency_met_bool. split; [ | by left ].
  intros [ H | (s & Hs & _) ]; [ done | ].
  exfalso.
  destruct (loop_entries questions _ st Hrun) as (_ & _ & _ & Hfit & _).
  destruct (Hfit d (AStr s) Hs) as [ Hold | (q' & Hq' & Hid' & Hfits) ].
  - simpl in Hold. by rewrite lookup_empty in Hold.
  - rewrite <- Hid in Hid'.
    rewrite (NoDup_fmap_id_inj questions q' qd Hnodup Hq' Hqd Hid') in Hfits.
    unfold answer_fits in Hfits. by rewrite Hkind in Hfits.
Qed.

Lemma boolean_dependencies_exact_witness :
  is_Some (QuestionEngine.answers data_flow_denied !! "df_02")
  ↔ QuestionEngine.answers data_flow_denied !! "df_01" = Some (ABool true).
Proof.
  refine (proj1 (boolean_dependencies_exact DATA_FLOW_QUESTIONS ["no"; "N"]
                   data_flow_denied _ _ _ _) df_02_question "df_01" (ABool true) _ _).
  - refine (bool_decide_unpack _ _). vm_compute. exact I.
  - vm_compute. reflexivity.
  - vm_compute. reflexivity.
  - vm_compute. reflexivity.
  - refine (bool_decide_unpack _ _). vm_compute. exact I.
  - reflexivity.
Defined.

(** ** The shared-services rule *)

Lemma append_assoc (a b c : string) : (a +:+ b) +:+ c = a +:+ (b +:+ c).
Proof. induction a as [ | x a IH ]; [ done | ]. by rewrite !append_cons, IH. Qed.

Lemma contains_in_context (needle before after : string) :
  Str.contains needle (before +:+ needle +:+ after) = true.
Proof. apply contains_substring. by exists before, after. Qed.

Lemma contains_embed (needle s before after : string) :
  Str.contains needle s = true → Str.contains needle (before +:+ s +:+ after) = true.
Proof.
  intros H. apply contains_substring in H as (b & a & ->).
  apply contains_substring. exists (before +:+ b), (a +:+ after).
  by rewrite !append_assoc.
Qed.

Lemma repr_body_app (quote : ascii) (a b : string) :
  Py.repr_body quote (a +:+ b) = Py.repr_body quote a +:+ Py.repr_body quote b.
Proof.
  induction a as [ | x a IH ]; [ done | ].
  rewrite append_cons. simpl. by rewrite IH, append_assoc.
Qed.

Lemma repr_str_keeps_None (s : string) :
  Str.contains "None" s = true → Str.contains "None" (Py.repr_str s) = true.
Proof.
  intros H. apply contains_substring in H as (b & a & ->).
  unfold Py.repr_str.
  set (quote := if _ && _ then _ else _).
  assert (Hq : Py.repr_body quote "None" = "None").
  { subst quote. by destruct (_ && _). }
  rewrite !repr_body_app, Hq.
  change (String quote ?t) with (String quote EmptyString +:+ t).
  apply contains_substring.
  exists (String quote EmptyString +:+ Py.repr_body quote b),
         (Py.repr_body quote a +:+ String quote EmptyString).
  by rewrite !append_assoc.
Qed.

Lemma join_keeps (needle sep : string) (l : list string) (x : string) :
  x ∈ l → Str.contains needle x = true → Str.contains needle (Str.join sep l) = true.
Proof.
  induction l as [ | y l IH ]; intros Hx Hc; [ by apply elem_of_nil in Hx | ].
  destruct l as [ | z l ].
  - apply list_elem_of_singleton in Hx as ->. exact Hc.
  - rewrite join_cons_cons. apply elem_of_cons in Hx as [-> | Hx].
    + apply (contains_embed needle y EmptyString). exact Hc.
    + rewrite <- append_assoc.
      rewrite <- (append_nil_r (Str.join sep (z :: l))).
      apply contains_embed. by apply IH.
Qed.

Lemma str_list_keeps_None (l : list string) (x : string) :
  x ∈ l → Str.contains "None" x = true → Str.contains "None" (Py.str (AList l)) = true.
Proof.
  intros Hx Hc. simpl. apply contains_embed.
  apply (join_keeps "None" ", " (map Py.repr_str l) (Py.repr_str x)).
  - apply list_elem_of_In, in_map. by apply list_elem_of_In.
  - by apply repr_str_keeps_None.
Qed.

(** The shared-services gap is reported only when [bd_06] is yes and the
    selection of [bd_06a] is non-empty; a selection in which any label
    contains the word "None" gives no gap, whatever else is selected: the
    choice "None — shared services are separated", ticked together with
    real services, hides them.  A selection of labels without that word
    gives the gap, and its detail lists the labels. *)
Theorem shared_services_hidden_by_none (flat : gmap string answer) (selection : list string) :
  flat !! "bd_06a" = Some (AList selection) →
  (ScopeScorer.gap_shared flat ≠ [] →
     flat !! "bd_06" = Some (ABool true) ∧ selection ≠ [])
  ∧ ((∃ x, x ∈ selection ∧ Str.contains "None" x = true) →
     ScopeScorer.gap_shared flat = [])
  ∧ ("None — shared services are separated" ∈ selection →
     ScopeScorer.gap_shared flat = [])
  ∧ (flat !! "bd_06" = Some (ABool true) → selection ≠ [] →
     Str.contains "None" (Py.str (AList selection)) = false →
     ∃ g, ScopeScorer.gap_shared flat = [g]
          ∧ Str.contains (Str.join ", " selection) (detail g) = true).
Proof.
  intros Hsel.
  assert (Hget : Py.get_or flat "bd_06a" (AList []) = AList selection).
  { unfold Py.get_or. by rewrite Hsel. }
  assert (Hhide : (∃ x, x ∈ selection ∧ Str.contains "None" x = true) →
                  ScopeScorer.gap_shared flat = []).
  { intros (x & Hx & Hc). unfold ScopeScorer.gap_shared. rewrite Hget.
    rewrite (str_list_keeps_None selection x Hx Hc).
    destruct (Py.is_True _); [ | done ]. by rewrite andb_false_r. }
  split; [ | split; [ exact Hhide | split ] ].
  - unfold ScopeScorer.gap_shared. rewrite Hget.
    destruct (Py.is_True (Py.get flat "bd_06")) eqn:Hb; [ | done ].
    apply is_True_lookup in Hb.
    destruct selection; [ done | ]. by intros _.
  - intros Hin. apply Hhide. eexists. split; [ exact Hin | reflexivity ].
  - intros Hb Hne Hnone. apply is_True_lookup in Hb.
    unfold ScopeScorer.gap_shared. rewrite Hb, Hget, Hnone.
    destruct selection as [ | x l ]; [ done | ].
    change (Py.truthy (AList (x :: l))) with true. cbn [andb negb].
    eexists. split; [ reflexivity | ].
    unfold ScopeScorer.gap. cbn [detail].
    apply contains_in_context.
Qed.

Lemma shared_services_hidden_by_none_witness :
  ScopeScorer.gap_shared
    (shared_store ["DNS servers"; "None — shared services are separated"]) = [].
Proof.
  refine (proj1 (proj2 (proj2 (shared_services_hidden_by_none
            (shared_store ["DNS servers"; "None — shared services are separated"])
            ["DNS servers"; "None — shared services are separated"] _))) _).
  - reflexivity.
  - apply list_elem_of_In. simpl. tauto.
Defined.
